(** * cemetery-api: the audit-and-notify write path of [server.js]

    A shallow embedding of the mutating routes of [src/server.js]
    (create / update / soft-delete plot, create / update deceased record),
    of the plot listing, and of the helpers they call ([esc], [nice],
    [writeAuditSafe], [sendMail], [getCemeteryName]); further on, of
    the login route, of [GET /debug/email-test] and of the parsing of
    [NOTIFY_TO].

    Conventions.
    - A JavaScript string is a [string]: one [ascii] per UTF-16 code unit,
      for strings whose code units are below 256.  Literal text of the
      source is copied as it stands.
    - A JSON number is an integer [Z]; fractional numbers are not modelled.
    - The relational store is explicit state ([World]): one list of rows
      per table, in insertion order.  A nullable column is an [option];
      [None] is SQL [NULL].
    - A cell of a row holds the parameter that was bound to its column.
      The conversion PostgreSQL applies to a parameter for the type of
      the column, and the driver's when the row is read back, are not
      modelled: the repository has no schema.
    - A request is handled from its first statement to its answer with
      nothing in between ([server_app]).  The [await] between the count
      and the insert of a plot creation is opened up separately
      ([create_plot_start], [create_plots_interleaved]).
    - [pool.query] can throw.  Which statement throws, and with which
      message, is decided by an oracle ([query_fails]); every attempted
      statement is recorded in [queries].
    - What belongs to the JavaScript runtime or to the database engine and
      is not written in the repository ([toUpperCase], [toLowerCase],
      [JSON.stringify], [jwt.verify], the cast of a bound parameter to
      [bigint], the collation used by [ORDER BY]) is a field of
      [Platform], which the routes take as a parameter. *)

From Stdlib Require Import ZArith String Ascii List Bool Lia DecimalString.
From Stdlib Require Import Permutation Sorted.
Import ListNotations.

Open Scope string_scope.
Open Scope Z_scope.

Set Warnings "-register-all".

(* ------------------------------------------------------------------ *)
(** ** JavaScript values *)
(* ------------------------------------------------------------------ *)

Inductive JsVal : Type :=
| JUndefined
| JNull
| JBool (b : bool)
| JNum (z : Z)
| JStr (s : string)
| JArr (items : list JsVal)
| JObj (props : list (string * JsVal)).

(** [!!v] *)
Definition truthy (v : JsVal) : bool :=
  match v with
  | JUndefined | JNull => false
  | JBool b => b
  | JNum z => negb (z =? 0)
  | JStr s => negb (s =? "")%string
  | JArr _ | JObj _ => true
  end.

(** [a || b] *)
Definition js_or (a b : JsVal) : JsVal := if truthy a then a else b.

(** [v === null || v === undefined] *)
Definition nullish (v : JsVal) : bool :=
  match v with
  | JUndefined | JNull => true
  | _ => false
  end.

(** [a ?? b] *)
Definition js_coalesce (a b : JsVal) : JsVal := if nullish a then b else a.

(** [String(v)].  An array prints its items separated by commas, a
    [null] or [undefined] item printing as nothing. *)
Fixpoint js_String (v : JsVal) : string :=
  match v with
  | JUndefined => "undefined"
  | JNull => "null"
  | JBool true => "true"
  | JBool false => "false"
  | JNum z => NilZero.string_of_int (Z.to_int z)
  | JStr s => s
  | JArr items =>
      (fix join (l : list JsVal) : string :=
         match l with
         | [] => ""
         | x :: r =>
             let sx := if nullish x then "" else js_String x in
             match r with
             | [] => sx
             | _ :: _ => sx ++ "," ++ join r
             end
         end) items
  | JObj _ => "[object Object]"
  end.

(** Property access [o[k]] on a parsed JSON value: [undefined] when [o]
    is not an object or has no such property. *)
Fixpoint assoc {A : Type} (k : string) (l : list (string * A)) : option A :=
  match l with
  | [] => None
  | (k', v) :: r => if (k =? k')%string then Some v else assoc k r
  end.

Definition js_get (o : JsVal) (k : string) : JsVal :=
  match o with
  | JObj props => match assoc k props with Some v => v | None => JUndefined end
  | _ => JUndefined
  end.

(** [Object.keys(o)] of a request body *)
Definition js_keys (o : JsVal) : list string :=
  match o with
  | JObj props => map fst props
  | JArr items => map (fun i => NilZero.string_of_uint (Nat.to_uint i)) (seq 0 (length items))
  | _ => []
  end.

(* ------------------------------------------------------------------ *)
(** ** Strings: [trim] and the first piece of a split on commas *)
(* ------------------------------------------------------------------ *)

Definition dquote : ascii := "034"%char.

(** White space of [String.prototype.trim], among code units below 256:
    TAB, LF, VT, FF, CR, SPACE and NBSP. *)
Definition is_space (c : ascii) : bool :=
  let n := nat_of_ascii c in
  ((9 <=? n) && (n <=? 13) || (n =? 32) || (n =? 160))%nat.

Fixpoint trimStart (s : string) : string :=
  match s with
  | EmptyString => EmptyString
  | String c r => if is_space c then trimStart r else s
  end.

Fixpoint trimEnd (s : string) : string :=
  match s with
  | EmptyString => EmptyString
  | String c r =>
      let r' := trimEnd r in
      if is_space c && (r' =? "")%string then EmptyString else String c r'
  end.

Definition trim (s : string) : string := trimEnd (trimStart s).

Definition str_length (s : string) : Z := Z.of_nat (String.length s).

(** [s.split(sep)] for a one-character separator: never empty. *)
Fixpoint split (sep : ascii) (s : string) : list string :=
  match s with
  | EmptyString => [EmptyString]
  | String c r =>
      if (c =? sep)%char then EmptyString :: split sep r
      else match split sep r with
           | [] => [String c EmptyString]
           | piece :: pieces => String c piece :: pieces
           end
  end.

(** [l.join(sep)] *)
Fixpoint join (sep : string) (l : list string) : string :=
  match l with
  | [] => ""
  | [x] => x
  | x :: r => x ++ sep ++ join sep r
  end.

(** [a || b] on strings *)
Definition str_or (a b : string) : string := if (a =? "")%string then b else a.

(** [a || null] on strings *)
Definition str_or_null (a : option string) : option string :=
  match a with
  | Some s => if (s =? "")%string then None else Some s
  | None => None
  end.

(* ------------------------------------------------------------------ *)
(** ** [esc] and [nice] *)
(* ------------------------------------------------------------------ *)

(** The object literal [map] inside [esc]. *)
Definition esc_map : list (string * string) :=
  [ ("&", "&amp;");
    ("<", "&lt;");
    (">", "&gt;");
    (String dquote "", "&quot;");
    ("'", "&#039;") ].

(** The character class of the regular expression in [esc]: ampersand,
    less-than, greater-than, double quote, single quote. *)
Definition esc_class (c : ascii) : bool :=
  (c =? "&")%char || (c =? "<")%char || (c =? ">")%char
  || (c =? dquote)%char || (c =? "'")%char.

(** [s.replace(/[cls]/g, cb)]: every code unit of the class is replaced
    by what the callback returns for it, the others are copied. *)
Fixpoint replace_class (cls : ascii -> bool) (cb : string -> string) (s : string) : string :=
  match s with
  | EmptyString => EmptyString
  | String c r =>
      (if cls c then cb (String c "") else String c "") ++ replace_class cls cb r
  end.

(** [(m) => map[m] || m] *)
Definition esc_cb (m : string) : string :=
  match assoc m esc_map with
  | Some e => str_or e m
  | None => m
  end.

Definition esc (s : JsVal) : string :=
  replace_class esc_class esc_cb (js_String (js_coalesce s (JStr ""))).

Definition nice (v : JsVal) : string :=
  match v with
  | JNull | JUndefined => ""
  | _ => js_String v
  end.

(* ------------------------------------------------------------------ *)
(** ** Tables *)
(* ------------------------------------------------------------------ *)

(** A nullable column holding a bound parameter. *)
Definition Cell : Type := option JsVal.

(** A row read back by the driver: [NULL] is [null]. *)
Definition cell_js (c : Cell) : JsVal :=
  match c with Some v => v | None => JNull end.

(** A parameter as the driver binds it: [null] and [undefined] are [NULL]. *)
Definition bind_param (v : JsVal) : Cell :=
  if nullish v then None else Some v.

(** [COALESCE(p, old)] *)
Definition COALESCE {A : Type} (p old : option A) : option A :=
  match p with Some _ => p | None => old end.

Module Plot.
Record t : Type := mk {
  id : Z;
  cemetery_id : Z;
  plot_code : string;
  status : Cell;
  owner_name : Cell;
  gender : Cell;
  payment_date : Cell;
  row_num : Cell;
  col_num : Cell;
  coords : Cell;
  created_at : Z;
  updated_at : Z;
  deleted_at : option Z
}.
End Plot.

Module Deceased.
(** [cols] holds the fifteen data columns by name. *)
Record t : Type := mk {
  id : Z;
  plot_id : Z;
  cols : list (string * Cell)
}.
Definition col (c : string) (r : t) : Cell :=
  match assoc c (cols r) with Some v => v | None => None end.
End Deceased.

Module Cemetery.
Record t : Type := mk { id : Z; name : option string }.
End Cemetery.

Module AuditLog.
Record t : Type := mk {
  action : string;
  entity_type : string;
  entity_id : option Z;
  cemetery_id : option Z;
  plot_code : option string;
  actor_username : option string;
  actor_role : option string;
  ip_address : option string;
  details : string
}.
End AuditLog.

Module Mail.
Record t : Type := mk { from : string; to : string; subject : string; html : string }.
End Mail.

(** The statements of [server.js] that the modelled routes issue. *)
Inductive Query : Type :=
| Q_insert_audit
| Q_cemetery_name
| Q_list_plots
| Q_count_plots
| Q_insert_plot
| Q_select_plot
| Q_update_plot
| Q_soft_delete_plot
| Q_insert_deceased
| Q_update_deceased.

Definition Query_eqb (a b : Query) : bool :=
  match a, b with
  | Q_insert_audit, Q_insert_audit
  | Q_cemetery_name, Q_cemetery_name
  | Q_list_plots, Q_list_plots
  | Q_count_plots, Q_count_plots
  | Q_insert_plot, Q_insert_plot
  | Q_select_plot, Q_select_plot
  | Q_update_plot, Q_update_plot
  | Q_soft_delete_plot, Q_soft_delete_plot
  | Q_insert_deceased, Q_insert_deceased
  | Q_update_deceased, Q_update_deceased => true
  | _, _ => false
  end.

(** The store, the outbox of the mail transport, the console, and the
    statements attempted so far. *)
Record World : Type := mkWorld {
  plots : list Plot.t;
  deceased_records : list Deceased.t;
  cemeteries : list Cemetery.t;
  audit_logs : list AuditLog.t;
  plots_id_seq : Z;
  deceased_id_seq : Z;
  outbox : list Mail.t;
  console : list string;
  queries : list Query
}.

Definition set_plots (l : list Plot.t) (next : Z) (w : World) : World :=
  mkWorld l (deceased_records w) (cemeteries w) (audit_logs w) next
          (deceased_id_seq w) (outbox w) (console w) (queries w).

Definition set_deceased_records (l : list Deceased.t) (next : Z) (w : World) : World :=
  mkWorld (plots w) l (cemeteries w) (audit_logs w) (plots_id_seq w)
          next (outbox w) (console w) (queries w).

Definition set_audit_logs (l : list AuditLog.t) (w : World) : World :=
  mkWorld (plots w) (deceased_records w) (cemeteries w) l (plots_id_seq w)
          (deceased_id_seq w) (outbox w) (console w) (queries w).

Definition set_outbox (l : list Mail.t) (w : World) : World :=
  mkWorld (plots w) (deceased_records w) (cemeteries w) (audit_logs w) (plots_id_seq w)
          (deceased_id_seq w) l (console w) (queries w).

Definition set_console (l : list string) (w : World) : World :=
  mkWorld (plots w) (deceased_records w) (cemeteries w) (audit_logs w) (plots_id_seq w)
          (deceased_id_seq w) (outbox w) l (queries w).

Definition set_queries (l : list Query) (w : World) : World :=
  mkWorld (plots w) (deceased_records w) (cemeteries w) (audit_logs w) (plots_id_seq w)
          (deceased_id_seq w) (outbox w) (console w) l.

(* ------------------------------------------------------------------ *)
(** ** Configuration, requests, responses *)
(* ------------------------------------------------------------------ *)

(** The CONFIG and EMAIL constants of [server.js], the clock of the
    store ([NOW()]), and the oracles: [query_fails q = Some m] makes
    statement [q] throw with message [m]; [smtp_fails] does the same for
    the mail transport. *)
Record Env : Type := mkEnv {
  PLOTS_PER_CEMETERY_LIMIT : Z;
  DISABLE_EMAIL : bool;
  SMTP_HOST : option string;
  SMTP_USER : option string;
  SMTP_PASS : option string;
  NOTIFY_TO : list string;
  MAIL_FROM : string;
  NOW : Z;
  query_fails : Query -> option string;
  smtp_fails : option string
}.

Definition set_query_fails (f : Query -> option string) (e : Env) : Env :=
  mkEnv (PLOTS_PER_CEMETERY_LIMIT e) (DISABLE_EMAIL e) (SMTP_HOST e) (SMTP_USER e)
        (SMTP_PASS e) (NOTIFY_TO e) (MAIL_FROM e) (NOW e) f (smtp_fails e).

Definition env_truthy (v : option string) : bool :=
  match v with Some s => negb (s =? "")%string | None => false end.

Definition emailEnabled (e : Env) : bool :=
  negb (DISABLE_EMAIL e) && env_truthy (SMTP_HOST e) && env_truthy (SMTP_USER e)
  && env_truthy (SMTP_PASS e) && negb (Nat.eqb (length (NOTIFY_TO e)) 0).

(** The payload of a verified token. *)
Record User : Type := mkUser { username : string; role : string; permission : string }.

Record Request : Type := mkRequest {
  authorization : option string;
  x_forwarded_for : option string;
  remoteAddress : option string;
  include_deleted : option string;
  body : JsVal;
  user : option User
}.

Definition set_user (u : User) (r : Request) : Request :=
  mkRequest (authorization r) (x_forwarded_for r) (remoteAddress r)
            (include_deleted r) (body r) (Some u).

(** What [res.json] is given. *)
Inductive Payload : Type :=
| ErrorBody (error : string)
| PlotBody (row : Plot.t)
| PlotsBody (rows : list Plot.t)
| DeceasedBody (row : Deceased.t)
| OkBody.

Record Response : Type := mkResponse { code : Z; payload : Payload }.

(* ------------------------------------------------------------------ *)
(** ** Effects: a state-and-exception monad over [World] *)
(* ------------------------------------------------------------------ *)

Inductive Outcome (A : Type) : Type :=
| Ok (a : A)
| Throw (message : string).
Arguments Ok {A} a.
Arguments Throw {A} message.

Definition M (A : Type) : Type := World -> Outcome A * World.

Definition ret {A : Type} (a : A) : M A := fun w => (Ok a, w).

Definition throw {A : Type} (message : string) : M A := fun w => (Throw message, w).

Definition bind {A B : Type} (m : M A) (k : A -> M B) : M B :=
  fun w =>
    match m w with
    | (Ok a, w') => k a w'
    | (Throw e, w') => (Throw e, w')
    end.

(** [try { m } catch (e) { h e.message }] *)
Definition try_catch {A : Type} (m : M A) (h : string -> M A) : M A :=
  fun w =>
    match m w with
    | (Ok a, w') => (Ok a, w')
    | (Throw e, w') => h e w'
    end.

Definition gets {A : Type} (f : World -> A) : M A := fun w => (Ok (f w), w).

Definition modify (f : World -> World) : M unit := fun w => (Ok tt, f w).

Definition of_outcome {A : Type} (o : Outcome A) : M A := fun w => (o, w).

Notation "x <- m ;; k" := (bind m (fun x => k))
  (at level 61, m at next level, right associativity).
Notation "m ;;; k" := (bind m (fun _ => k))
  (at level 61, right associativity).

Definition console_log (line : string) : M unit :=
  modify (fun w => set_console (console w ++ [line]) w).

(** [await pool.query(...)]: the statement is attempted, and throws when
    the oracle says so; otherwise it runs against the store. *)
Definition pool_query {A : Type} (env : Env) (q : Query) (exec : M A) : M A :=
  fun w =>
    let w1 := set_queries (queries w ++ [q]) w in
    match query_fails env q with
    | Some message => (Throw message, w1)
    | None => exec w1
    end.

(** A handler that has sent its response. *)
Definition respond (code : Z) (p : Payload) : M Response := ret (mkResponse code p).

(** The outer [try { ... } catch (e) { ... }] of a route handler: the
    handler always answers. *)
Definition catch_all (h : M Response) (on_error : string -> World -> World * Response)
  (w : World) : World * Response :=
  match h w with
  | (Ok r, w') => (w', r)
  | (Throw e, w') => on_error e w'
  end.

(** What the JavaScript runtime, the token library and the database
    engine contribute. *)
Record Platform : Type := mkPlatform {
  toUpperCase : string -> string;
  toLowerCase : string -> string;
  (** [JSON.stringify(v, null, indent)]; indent 0 is [JSON.stringify(v)] *)
  JSON_stringify : nat -> JsVal -> string;
  (** [jwt.verify(token, JWT_SECRET)]: the payload, or [None] when it throws *)
  jwt_verify : string -> option User;
  (** the cast of a bound parameter compared with a [bigint] column *)
  as_bigint : JsVal -> Outcome Z;
  (** the collation of [ORDER BY plot_code] *)
  code_leb : string -> string -> bool
}.

Section Server.

Variable rt : Platform.

(* ------------------------------------------------------------------ *)
(** ** The SQL statements *)
(* ------------------------------------------------------------------ *)

Definition is_null {A : Type} (c : option A) : bool :=
  match c with None => true | Some _ => false end.

(** [INSERT INTO audit_logs (...) VALUES ($1,...,$9::jsonb)] *)
Definition sql_insert_audit (env : Env) (entry : AuditLog.t) : M unit :=
  pool_query env Q_insert_audit
    (modify (fun w => set_audit_logs (audit_logs w ++ [entry]) w)).

(** [SELECT name FROM cemeteries WHERE id=$1] *)
Definition sql_cemetery_name (env : Env) (cemeteryId : Z) : M (list (option string)) :=
  pool_query env Q_cemetery_name
    (gets (fun w => map Cemetery.name
                      (filter (fun c => Cemetery.id c =? cemeteryId) (cemeteries w)))).

Fixpoint insert_by_code (p : Plot.t) (l : list Plot.t) : list Plot.t :=
  match l with
  | [] => [p]
  | q :: r =>
      if code_leb rt (Plot.plot_code p) (Plot.plot_code q) then p :: l
      else q :: insert_by_code p r
  end.

(** [ORDER BY plot_code] *)
Definition order_by_plot_code (l : list Plot.t) : list Plot.t :=
  fold_right insert_by_code [] l.

(** [SELECT * FROM plots WHERE cemetery_id = $1
     AND ($2::boolean = true OR deleted_at IS NULL)
     ORDER BY plot_code LIMIT $3] *)
Definition sql_list_plots (env : Env) (cemeteryId : Z) (includeDeleted : bool) (limit : Z)
  : M (list Plot.t) :=
  pool_query env Q_list_plots
    (fun w =>
       if limit <? 0 then (Throw "LIMIT must not be negative", w)
       else
         (Ok (firstn (Z.to_nat limit)
                (order_by_plot_code
                   (filter (fun p => (Plot.cemetery_id p =? cemeteryId)
                                     && (includeDeleted || is_null (Plot.deleted_at p)))
                      (plots w)))), w)).

(** [SELECT COUNT( * )::int AS n FROM plots WHERE cemetery_id=$1 AND deleted_at IS NULL] *)
Definition sql_count_plots (env : Env) (cemetery_id : JsVal) : M Z :=
  pool_query env Q_count_plots
    (c <- of_outcome (as_bigint rt cemetery_id) ;;
     gets (fun w => Z.of_nat (length
                      (filter (fun p => (Plot.cemetery_id p =? c) && is_null (Plot.deleted_at p))
                         (plots w))))).

(** [INSERT INTO plots (cemetery_id, plot_code, status, owner_name, gender,
     payment_date, row_num, col_num, coords, created_at, updated_at)
     VALUES ($1,...,$9, NOW(), NOW()) RETURNING *] *)
Definition sql_insert_plot (env : Env) (cemetery_id : JsVal) (plot_code : string)
  (status owner_name gender payment_date row_num col_num coords : JsVal) : M Plot.t :=
  pool_query env Q_insert_plot
    (c <- of_outcome (as_bigint rt cemetery_id) ;;
     fun w =>
       let row :=
         Plot.mk (plots_id_seq w) c plot_code
           (bind_param status) (bind_param owner_name) (bind_param gender)
           (bind_param payment_date) (bind_param row_num) (bind_param col_num)
           (bind_param coords) (NOW env) (NOW env) None in
       (Ok row, set_plots (plots w ++ [row]) (plots_id_seq w + 1) w)).

(** [SELECT p.*, c.name AS cemetery_name FROM plots p
     JOIN cemeteries c ON c.id = p.cemetery_id
     WHERE p.id=$1 AND p.deleted_at IS NULL] *)
Definition sql_select_plot (env : Env) (id : Z) : M (list (Plot.t * option string)) :=
  pool_query env Q_select_plot
    (gets (fun w =>
       flat_map (fun p =>
                   map (fun c => (p, Cemetery.name c))
                     (filter (fun c => Cemetery.id c =? Plot.cemetery_id p) (cemeteries w)))
         (filter (fun p => (Plot.id p =? id) && is_null (Plot.deleted_at p)) (plots w)))).

(** [UPDATE t SET ... WHERE id = $n]: the rows with that id are
    rewritten in place. *)
Definition update_where {A : Type} (key : A -> Z) (id : Z) (set : A -> A) (rows : list A)
  : list A :=
  map (fun r => if key r =? id then set r else r) rows.

(** The [SET] clause of the plot update, on one row. *)
Definition plot_set (now : Z)
  (owner_name gender status payment_date row_num col_num coords : Cell) (p : Plot.t) : Plot.t :=
  Plot.mk (Plot.id p) (Plot.cemetery_id p) (Plot.plot_code p)
    (COALESCE status (Plot.status p))
    (COALESCE owner_name (Plot.owner_name p))
    (COALESCE gender (Plot.gender p))
    (COALESCE payment_date (Plot.payment_date p))
    (COALESCE row_num (Plot.row_num p))
    (COALESCE col_num (Plot.col_num p))
    (COALESCE coords (Plot.coords p))
    (Plot.created_at p) now (Plot.deleted_at p).

(** [UPDATE plots SET owner_name = COALESCE($1, owner_name), ...,
     coords = COALESCE($7, coords), updated_at = NOW()
     WHERE id = $8 RETURNING *] *)
Definition sql_update_plot (env : Env)
  (owner_name gender status payment_date row_num col_num coords : JsVal) (id : Z)
  : M (list Plot.t) :=
  pool_query env Q_update_plot
    (fun w =>
       let set := plot_set (NOW env) (bind_param owner_name) (bind_param gender) (bind_param status)
                    (bind_param payment_date) (bind_param row_num) (bind_param col_num)
                    (bind_param coords) in
       let rows := update_where Plot.id id set (plots w) in
       (Ok (filter (fun p => Plot.id p =? id) rows), set_plots rows (plots_id_seq w) w)).

(** The [SET] clause of the soft delete, on one row. *)
Definition plot_mark_deleted (now : Z) (p : Plot.t) : Plot.t :=
  Plot.mk (Plot.id p) (Plot.cemetery_id p) (Plot.plot_code p)
    (Plot.status p) (Plot.owner_name p) (Plot.gender p) (Plot.payment_date p)
    (Plot.row_num p) (Plot.col_num p) (Plot.coords p)
    (Plot.created_at p) now (Some now).

(** [UPDATE plots SET deleted_at = NOW(), updated_at = NOW() WHERE id=$1] *)
Definition sql_soft_delete_plot (env : Env) (id : Z) : M unit :=
  pool_query env Q_soft_delete_plot
    (modify (fun w =>
       set_plots (update_where Plot.id id (plot_mark_deleted (NOW env)) (plots w))
         (plots_id_seq w) w)).

(** [INSERT INTO deceased_records (plot_id, deceased_full_name, ..., notes)
     VALUES ($1, ..., $16) RETURNING *] *)
Definition sql_insert_deceased (env : Env) (plotId : Z) (columns : list (string * JsVal))
  : M Deceased.t :=
  pool_query env Q_insert_deceased
    (fun w =>
       let row := Deceased.mk (deceased_id_seq w) plotId
                    (map (fun cv => (fst cv, bind_param (snd cv))) columns) in
       (Ok row, set_deceased_records (deceased_records w ++ [row]) (deceased_id_seq w + 1) w)).

(** The [SET] clause built from [fields]: [f = COALESCE($i, f)] for
    every [f] of [fields], [$i] being the matching entry of [values]. *)
Definition deceased_set (fields : list string) (values : list JsVal) (r : Deceased.t)
  : Deceased.t :=
  let params := combine fields (map bind_param values) in
  Deceased.mk (Deceased.id r) (Deceased.plot_id r)
    (map (fun cv =>
            match assoc (fst cv) params with
            | Some param => (fst cv, COALESCE param (snd cv))
            | None => cv
            end) (Deceased.cols r)).

(** [UPDATE deceased_records SET ${sets} WHERE id = $16 RETURNING *] *)
Definition sql_update_deceased (env : Env) (fields : list string) (values : list JsVal) (id : Z)
  : M (list Deceased.t) :=
  pool_query env Q_update_deceased
    (fun w =>
       let rows := update_where Deceased.id id (deceased_set fields values)
                     (deceased_records w) in
       (Ok (filter (fun r => Deceased.id r =? id) rows),
        set_deceased_records rows (deceased_id_seq w) w)).

(* ------------------------------------------------------------------ *)
(** ** Middleware and helpers *)
(* ------------------------------------------------------------------ *)

(** [a || b], [a] possibly [undefined] *)
Definition opt_or (a : option string) (b : string) : string :=
  match a with Some s => str_or s b | None => b end.

(** [req.user?.f] *)
Definition user_field (f : User -> string) (req : Request) : option string :=
  option_map f (user req).

Definition authRequired (req : Request) : Response + Request :=
  match nth_error (split " " (opt_or (authorization req) "")) 1 with
  | None => inl (mkResponse 401 (ErrorBody "Missing token"))
  | Some token =>
      if (token =? "")%string then inl (mkResponse 401 (ErrorBody "Missing token"))
      else match jwt_verify rt token with
           | Some payload => inr (set_user payload req)
           | None => inl (mkResponse 401 (ErrorBody "Invalid token"))
           end
  end.

Definition requireFullControl (req : Request) : Response + Request :=
  match user_field permission req with
  | Some p =>
      if (p =? "full")%string then inr req
      else inl (mkResponse 403 (ErrorBody "Read-only role"))
  | None => inl (mkResponse 403 (ErrorBody "Read-only role"))
  end.

(** A template literal: literal text and substitutions. *)
Inductive Piece : Type :=
| Text (s : string)
| Subst (s : string).

Definition piece_string (p : Piece) : string :=
  match p with Text s | Subst s => s end.

Fixpoint template (l : list Piece) : string :=
  match l with
  | [] => ""
  | p :: r => piece_string p ++ template r
  end.

Definition dq : string := String dquote "".

Definition sendMail (env : Env) (subject html : string) : M unit :=
  if negb (emailEnabled env) then ret tt
  else
    try_catch
      (match smtp_fails env with
       | Some message => throw message
       | None =>
           modify (fun w =>
             set_outbox (outbox w ++ [Mail.mk (MAIL_FROM env) (join ", " (NOTIFY_TO env))
                                        subject html]) w)
       end)
      (fun e => console_log ("❌ Email send failed: " ++ e)).

(** [writeAuditSafe(req, { action, entity_type = "plot", entity_id = null,
    cemetery_id = null, plot_code = null, details = {} })].  A caller that
    leaves a property out passes its default. *)
Definition writeAuditSafe (env : Env) (req : Request) (action entity_type : string)
  (entity_id cemetery_id : option Z) (plot_code : option string) (details : JsVal) : M unit :=
  try_catch
    (let actor_username := str_or_null (user_field username req) in
     let actor_role := str_or_null (user_field role req) in
     let forwarded := trim (hd "" (split "," (opt_or (x_forwarded_for req) ""))) in
     let ip_address :=
       if (forwarded =? "")%string then str_or_null (remoteAddress req) else Some forwarded in
     sql_insert_audit env
       (AuditLog.mk action entity_type entity_id cemetery_id plot_code
          actor_username actor_role ip_address
          (JSON_stringify rt 0 (js_or details (JObj [])))))
    (fun e => console_log ("⚠️ Audit skipped: " ++ e)).

Definition getCemeteryName (env : Env) (cemeteryId : Z) : M string :=
  rows <- sql_cemetery_name env cemeteryId ;;
  ret (match rows with
       | [] => ""
       | name :: _ => opt_or name ""
       end).

(** [a || b], [a] a number *)
Definition num_or (a b : Z) : Z := if a =? 0 then b else a.

(** [plot.plot_code || plot.id] *)
Definition code_or_id (p : Plot.t) : JsVal :=
  if (Plot.plot_code p =? "")%string then JNum (Plot.id p) else JStr (Plot.plot_code p).

(** [{ status: p.status, owner_name: p.owner_name, gender: p.gender }] *)
Definition plot_details (p : Plot.t) : JsVal :=
  JObj [ ("status", cell_js (Plot.status p));
         ("owner_name", cell_js (Plot.owner_name p));
         ("gender", cell_js (Plot.gender p)) ].

(** The snapshot of the audit details of an update. *)
Definition plot_snapshot (p : Plot.t) : JsVal :=
  JObj [ ("status", cell_js (Plot.status p));
         ("owner_name", cell_js (Plot.owner_name p));
         ("gender", cell_js (Plot.gender p));
         ("has_coords", JBool (truthy (cell_js (Plot.coords p)))) ].

(** The snapshot printed in the mail of an update. *)
Definition plot_mail_snapshot (p : Plot.t) : JsVal :=
  JObj [ ("status", cell_js (Plot.status p));
         ("owner_name", cell_js (Plot.owner_name p));
         ("gender", cell_js (Plot.gender p));
         ("row_num", cell_js (Plot.row_num p));
         ("col_num", cell_js (Plot.col_num p));
         ("has_coords", JBool (truthy (cell_js (Plot.coords p)))) ].

(* ------------------------------------------------------------------ *)
(** ** The mail bodies *)
(* ------------------------------------------------------------------ *)

Definition plot_created_html (cemeteryName : string) (plot : Plot.t) (req : Request)
  : list Piece :=
  [ Text ("
        <div style=" ++ dq ++ "font-family:Arial,sans-serif" ++ dq ++ ">
          <h2>Plot Created</h2>
          <p><b>Cemetery:</b> ");
    Subst (esc (JStr cemeteryName));
    Text ("</p>
          <p><b>Plot:</b> ");
    Subst (esc (JStr (Plot.plot_code plot)));
    Text ("</p>
          <p><b>Status:</b> ");
    Subst (esc (js_or (cell_js (Plot.status plot)) (JStr "")));
    Text ("</p>
          <hr/>
          <p><b>By:</b> ");
    Subst (esc (JStr (opt_or (user_field username req) "")));
    Text (" (");
    Subst (esc (JStr (opt_or (user_field role req) "")));
    Text (")</p>
        </div>
      ") ].

Definition plot_updated_html (before : Plot.t) (cemetery_name : option string)
  (after : Plot.t) (req : Request) : list Piece :=
  [ Text ("
        <div style=" ++ dq ++ "font-family:Arial,sans-serif" ++ dq ++ ">
          <h2>Plot Updated</h2>
          <p><b>Cemetery:</b> ");
    Subst (esc (JStr (opt_or cemetery_name "")));
    Text ("</p>
          <p><b>Plot:</b> ");
    Subst (esc (code_or_id after));
    Text ("</p>
          <p><b>User:</b> ");
    Subst (esc (JStr (opt_or (user_field username req) "")));
    Text (" (");
    Subst (esc (JStr (opt_or (user_field role req) "")));
    Text (")</p>
          <hr/>
          <h3>Before</h3>
          <pre>");
    Subst (esc (JStr (JSON_stringify rt 2 (plot_mail_snapshot before))));
    Text ("</pre>
          <h3>After</h3>
          <pre>");
    Subst (esc (JStr (JSON_stringify rt 2 (plot_mail_snapshot after))));
    Text ("</pre>
        </div>
      ") ].

Definition plot_deleted_html (plot : Plot.t) (cemetery_name : option string) (req : Request)
  : list Piece :=
  [ Text ("
        <div style=" ++ dq ++ "font-family:Arial,sans-serif" ++ dq ++ ">
          <h2>Plot Deleted</h2>
          <p><b>Cemetery:</b> ");
    Subst (esc (JStr (opt_or cemetery_name "")));
    Text ("</p>
          <p><b>Plot:</b> ");
    Subst (esc (code_or_id plot));
    Text ("</p>
          <p><b>Deleted by:</b> ");
    Subst (esc (JStr (opt_or (user_field username req) "")));
    Text (" (");
    Subst (esc (JStr (opt_or (user_field role req) "")));
    Text (")</p>
        </div>
      ") ].

Definition deceased_added_html (created : Deceased.t) (plotId : Z) (req : Request)
  : list Piece :=
  [ Text ("
        <div style=" ++ dq ++ "font-family:Arial,sans-serif" ++ dq ++ ">
          <h2>Deceased record added</h2>
          <p><b>Name:</b> ");
    Subst (esc (cell_js (Deceased.col "deceased_full_name" created)));
    Text ("</p>
          <p><b>Plot ID:</b> ");
    Subst (esc (JNum plotId));
    Text ("</p>
          <p><b>Type:</b> ");
    Subst (esc (js_or (cell_js (Deceased.col "burial_type" created)) (JStr "")));
    Text ("</p>
          <p><b>Burial date:</b> ");
    Subst (esc (js_or (cell_js (Deceased.col "burial_date" created)) (JStr "")));
    Text ("</p>
          <hr/>
          <p><b>By:</b> ");
    Subst (esc (JStr (opt_or (user_field username req) "")));
    Text (" (");
    Subst (esc (JStr (opt_or (user_field role req) "")));
    Text (")</p>
        </div>
      ") ].

(* ------------------------------------------------------------------ *)
(** ** The route handlers *)
(* ------------------------------------------------------------------ *)

(** [String(req.query.include_deleted || "").toLowerCase() === "true"] *)
Definition includeDeleted (req : Request) : bool :=
  (toLowerCase rt (opt_or (include_deleted req) "") =? "true")%string.

(** [GET /api/cemeteries/:id/plots] *)
Definition get_cemetery_plots (env : Env) (id : Z) (req : Request) : World -> World * Response :=
  catch_all
    (rows <- sql_list_plots env id (includeDeleted req) (PLOTS_PER_CEMETERY_LIMIT env) ;;
     respond 200 (PlotsBody rows))
    (fun e w => (w, mkResponse 500 (ErrorBody e))).

(** [coords ? JSON.stringify(coords) : null] *)
Definition coords_param (coords : JsVal) : JsVal :=
  if truthy coords then JStr (JSON_stringify rt 0 coords) else JNull.

(** [POST /api/plots] *)
Definition post_plots (env : Env) (req : Request) : World -> World * Response :=
  catch_all
    (let b := js_or (body req) (JObj []) in
     let cemetery_id := js_get b "cemetery_id" in
     let plot_code := js_get b "plot_code" in
     let status := js_get b "status" in
     let owner_name := js_get b "owner_name" in
     let gender := js_get b "gender" in
     let payment_date := js_get b "payment_date" in
     let row_num := js_get b "row_num" in
     let col_num := js_get b "col_num" in
     let coords := js_get b "coords" in
     if negb (truthy cemetery_id) || negb (truthy plot_code)
     then respond 400 (ErrorBody "cemetery_id and plot_code are required")
     else
       n <- sql_count_plots env cemetery_id ;;
       if PLOTS_PER_CEMETERY_LIMIT env <=? num_or n 0
       then respond 400
              (ErrorBody ("Plot limit reached ("
                            ++ js_String (JNum (PLOTS_PER_CEMETERY_LIMIT env))
                            ++ " plots per cemetery)"))
       else
         plot <- sql_insert_plot env cemetery_id
                   (trim (js_String plot_code))
                   (js_or status (JStr "Available"))
                   (js_or owner_name JNull)
                   (js_or gender JNull)
                   (js_or payment_date JNull)
                   (js_coalesce row_num JNull)
                   (js_coalesce col_num JNull)
                   (coords_param coords) ;;
         writeAuditSafe env req "CREATE_PLOT" "plot"
           (Some (Plot.id plot)) (Some (Plot.cemetery_id plot)) (Some (Plot.plot_code plot))
           (plot_details plot) ;;;
         cemeteryName <- getCemeteryName env (Plot.cemetery_id plot) ;;
         sendMail env
           (template [ Text "✅ Plot Created: "; Subst (Plot.plot_code plot);
                       Text " ("; Subst cemeteryName; Text ")" ])
           (template (plot_created_html cemeteryName plot req)) ;;;
         respond 201 (PlotBody plot))
    (fun e w =>
       (set_console (console w ++ ["POST /api/plots error: " ++ e]) w,
        mkResponse 500 (ErrorBody (str_or e "Failed to create plot")))).

(** [PATCH /api/plots/:id] *)
Definition patch_plot (env : Env) (id : Z) (req : Request) : World -> World * Response :=
  catch_all
    (beforeQ <- sql_select_plot env id ;;
     match beforeQ with
     | [] => respond 404 (ErrorBody "Plot not found")
     | (before, cemetery_name) :: _ =>
         let b := js_or (body req) (JObj []) in
         let owner_name := js_get b "owner_name" in
         let gender := js_get b "gender" in
         let status := js_get b "status" in
         let payment_date := js_get b "payment_date" in
         let row_num := js_get b "row_num" in
         let col_num := js_get b "col_num" in
         let coords := js_get b "coords" in
         let coordsJson := coords_param coords in
         result <- sql_update_plot env
                     (js_coalesce owner_name JNull)
                     (js_coalesce gender JNull)
                     (js_coalesce status JNull)
                     (js_coalesce payment_date JNull)
                     (js_coalesce row_num JNull)
                     (js_coalesce col_num JNull)
                     coordsJson
                     id ;;
         match result with
         | [] => throw "Cannot read properties of undefined (reading 'id')"
         | after :: _ =>
             writeAuditSafe env req "UPDATE_PLOT" "plot"
               (Some (Plot.id after)) (Some (Plot.cemetery_id after))
               (Some (Plot.plot_code after))
               (JObj [ ("before", plot_snapshot before); ("after", plot_snapshot after) ]) ;;;
             sendMail env
               (template [ Text "✏️ Plot Updated: "; Subst (Plot.plot_code after);
                           Text " ("; Subst (opt_or cemetery_name ""); Text ")" ])
               (template (plot_updated_html before cemetery_name after req)) ;;;
             respond 200 (PlotBody after)
         end
     end)
    (fun e w =>
       (set_console (console w ++ ["PATCH /api/plots/:id error: " ++ e]) w,
        mkResponse 500 (ErrorBody "Failed to update plot"))).

(** [DELETE /api/plots/:id] *)
Definition delete_plot (env : Env) (id : Z) (req : Request) : World -> World * Response :=
  catch_all
    (before <- sql_select_plot env id ;;
     match before with
     | [] => respond 404 (ErrorBody "Plot not found or already deleted")
     | (plot, cemetery_name) :: _ =>
         sql_soft_delete_plot env id ;;;
         writeAuditSafe env req "DELETE_PLOT" "plot"
           (Some (Plot.id plot)) (Some (Plot.cemetery_id plot)) (Some (Plot.plot_code plot))
           (plot_details plot) ;;;
         sendMail env
           (template [ Text "🗑️ Plot Deleted: "; Subst (Plot.plot_code plot);
                       Text " ("; Subst (opt_or cemetery_name ""); Text ")" ])
           (template (plot_deleted_html plot cemetery_name req)) ;;;
         respond 200 OkBody
     end)
    (fun e w =>
       (set_console (console w ++ ["DELETE /api/plots/:id error: " ++ e]) w,
        mkResponse 500 (ErrorBody (str_or e "Failed to delete plot")))).

(** [(burial_type || "BURIAL").toUpperCase()]: a [TypeError] when the
    value is not a string. *)
Definition burial_type_param (burial_type : JsVal) : M string :=
  match js_or burial_type (JStr "BURIAL") with
  | JStr s => ret (toUpperCase rt s)
  | _ => throw ("(burial_type || " ++ dq ++ "BURIAL" ++ dq ++ ").toUpperCase is not a function")
  end.

(** [POST /api/plots/:plotId/deceased] *)
Definition post_deceased (env : Env) (plotId : Z) (req : Request) : World -> World * Response :=
  catch_all
    (let b := js_or (body req) (JObj []) in
     let deceased_full_name := js_get b "deceased_full_name" in
     if negb (truthy deceased_full_name)
        || (str_length (trim (js_String deceased_full_name)) <? 2)
     then respond 400 (ErrorBody "deceased_full_name is required")
     else
       burial_type <- burial_type_param (js_get b "burial_type") ;;
       created <- sql_insert_deceased env plotId
         [ ("deceased_full_name", JStr (trim (js_String deceased_full_name)));
           ("id_number", js_or (js_get b "id_number") JNull);
           ("date_of_birth", js_or (js_get b "date_of_birth") JNull);
           ("date_of_death", js_or (js_get b "date_of_death") JNull);
           ("burial_type", JStr burial_type);
           ("burial_date", js_or (js_get b "burial_date") JNull);
           ("next_of_kin_name", js_or (js_get b "next_of_kin_name") JNull);
           ("next_of_kin_relationship", js_or (js_get b "next_of_kin_relationship") JNull);
           ("next_of_kin_phone", js_or (js_get b "next_of_kin_phone") JNull);
           ("next_of_kin_email", js_or (js_get b "next_of_kin_email") JNull);
           ("next_of_kin_address", js_or (js_get b "next_of_kin_address") JNull);
           ("undertaker_name", js_or (js_get b "undertaker_name") JNull);
           ("undertaker_phone", js_or (js_get b "undertaker_phone") JNull);
           ("cause_of_death", js_or (js_get b "cause_of_death") JNull);
           ("notes", js_or (js_get b "notes") JNull) ] ;;
       writeAuditSafe env req "CREATE_DECEASED" "deceased"
         (Some (Deceased.id created)) None None
         (JObj [ ("plot_id", JNum plotId);
                 ("deceased_full_name", cell_js (Deceased.col "deceased_full_name" created));
                 ("burial_type", cell_js (Deceased.col "burial_type" created)) ]) ;;;
       sendMail env
         (template [ Text "⚰️ Deceased record added: ";
                     Subst (nice (cell_js (Deceased.col "deceased_full_name" created))) ])
         (template (deceased_added_html created plotId req)) ;;;
       respond 201 (DeceasedBody created))
    (fun e w =>
       (set_console (console w ++ ["POST /api/plots/:plotId/deceased error: " ++ e]) w,
        mkResponse 500 (ErrorBody e))).

(** The array [fields] of [PATCH /api/deceased/:id]. *)
Definition fields : list string :=
  [ "deceased_full_name"; "id_number"; "date_of_birth"; "date_of_death";
    "burial_type"; "burial_date";
    "next_of_kin_name"; "next_of_kin_relationship"; "next_of_kin_phone";
    "next_of_kin_email"; "next_of_kin_address";
    "undertaker_name"; "undertaker_phone"; "cause_of_death"; "notes" ].

(** [x === ""] *)
Definition is_empty_string (v : JsVal) : bool :=
  match v with JStr s => (s =? "")%string | _ => false end.

(** [req.body?.[f] === "" ? null : req.body?.[f] ?? null] *)
Definition patch_value (req : Request) (f : string) : JsVal :=
  if is_empty_string (js_get (body req) f) then JNull
  else js_coalesce (js_get (body req) f) JNull.

(** [PATCH /api/deceased/:id] *)
Definition patch_deceased (env : Env) (id : Z) (req : Request) : World -> World * Response :=
  catch_all
    (let values := map (patch_value req) fields in
     r <- sql_update_deceased env fields values id ;;
     match r with
     | [] => respond 404 (ErrorBody "Record not found")
     | row :: _ =>
         writeAuditSafe env req "UPDATE_DECEASED" "deceased"
           (Some (Deceased.id row)) None None
           (JObj [ ("updated_fields",
                    JArr (map JStr (js_keys (js_or (body req) (JObj []))))) ]) ;;;
         respond 200 (DeceasedBody row)
     end)
    (fun e w => (w, mkResponse 500 (ErrorBody e))).

(* ------------------------------------------------------------------ *)
(** ** Routing *)
(* ------------------------------------------------------------------ *)

Inductive Route : Type :=
| GET_cemetery_plots (id : Z)
| POST_plots
| PATCH_plot (id : Z)
| DELETE_plot (id : Z)
| POST_plot_deceased (plotId : Z)
| PATCH_deceased (id : Z).

(** [app.METHOD(path, mw1, ..., handler)]: the first middleware that
    answers ends the request. *)
Fixpoint chain (mws : list (Request -> Response + Request))
  (handler : Request -> World -> World * Response) (req : Request) (w : World)
  : World * Response :=
  match mws with
  | [] => handler req w
  | mw :: rest =>
      match mw req with
      | inl response => (w, response)
      | inr req' => chain rest handler req' w
      end
  end.

(** The middleware each route is registered with. *)
Definition middleware (route : Route) : list (Request -> Response + Request) :=
  match route with
  | GET_cemetery_plots _ => [authRequired]
  | _ => [authRequired; requireFullControl]
  end.

(** The handler each route is registered with. *)
Definition handler (env : Env) (route : Route) : Request -> World -> World * Response :=
  match route with
  | GET_cemetery_plots id => get_cemetery_plots env id
  | POST_plots => post_plots env
  | PATCH_plot id => patch_plot env id
  | DELETE_plot id => delete_plot env id
  | POST_plot_deceased plotId => post_deceased env plotId
  | PATCH_deceased id => patch_deceased env id
  end.

(** The application: one request on one route. *)
Definition server_app (env : Env) (route : Route) : Request -> World -> World * Response :=
  chain (middleware route) (handler env route).

(** The routes of the write path. *)
Definition mutating (route : Route) : bool :=
  match route with
  | GET_cemetery_plots _ => false
  | _ => true
  end.

End Server.

(* ------------------------------------------------------------------ *)
(** ** A platform to run the model on *)
(* ------------------------------------------------------------------ *)

Module Demo.

Definition upper_ascii (c : ascii) : ascii :=
  let n := nat_of_ascii c in
  if ((97 <=? n) && (n <=? 122))%nat then ascii_of_nat (n - 32) else c.

Definition lower_ascii (c : ascii) : ascii :=
  let n := nat_of_ascii c in
  if ((65 <=? n) && (n <=? 90))%nat then ascii_of_nat (n + 32) else c.

Fixpoint map_string (f : ascii -> ascii) (s : string) : string :=
  match s with
  | EmptyString => EmptyString
  | String c r => String (f c) (map_string f r)
  end.

(** Compact JSON text, without escapes inside strings or indentation. *)
Fixpoint json (v : JsVal) : string :=
  match v with
  | JUndefined | JNull => "null"
  | JStr s => dq ++ s ++ dq
  | JArr items => "[" ++ join "," (map json items) ++ "]"
  | JObj props =>
      "{" ++ join ","
               ((fix members (l : list (string * JsVal)) : list string :=
                   match l with
                   | [] => []
                   | (k, JUndefined) :: r => members r
                   | (k, x) :: r => (dq ++ k ++ dq ++ ":" ++ json x) :: members r
                   end) props) ++ "}"
  | _ => js_String v
  end.

Definition manager : User := mkUser "manager" "manager" "full".
Definition supervisor : User := mkUser "supervisor" "supervisor" "read".

Definition verify (token : string) : option User :=
  if (token =? "manager-token")%string then Some manager
  else if (token =? "supervisor-token")%string then Some supervisor
  else None.

Definition bigint (v : JsVal) : Outcome Z :=
  match v with
  | JNum z => Ok z
  | JStr s =>
      match NilEmpty.int_of_string s with
      | Some i => Ok (Z.of_int i)
      | None => Throw "invalid input syntax for type bigint"
      end
  | _ => Throw "invalid input syntax for type bigint"
  end.

(** ASCII case mapping, byte-wise collation, integer ids. *)
Definition platform : Platform :=
  mkPlatform (map_string upper_ascii) (map_string lower_ascii)
    (fun _ => json) verify bigint String.leb.

Definition no_fault : Query -> option string := fun _ => None.

(** The default limit of ten plots per cemetery, mail not configured. *)
Definition env (now : Z) : Env :=
  mkEnv 10 false None None None [] "no-reply@example.com" now no_fault None.

(** The same with a configured mail channel. *)
Definition env_mail (now : Z) : Env :=
  mkEnv 10 false (Some "smtp.example.com") (Some "mailer") (Some "secret")
    ["office@example.com"] "mailer" now no_fault None.

Definition cemetery1 : Cemetery.t := Cemetery.mk 1 (Some "Hillside").

Definition empty_world : World := mkWorld [] [] [cemetery1] [] 1 1 [] [] [].

Definition request (b : JsVal) : Request :=
  mkRequest (Some "Bearer manager-token") None (Some "10.0.0.7") None b None.

Definition new_plot (plot_code : string) : JsVal :=
  JObj [("cemetery_id", JNum 1); ("plot_code", JStr plot_code)].

Definition create (w : World) (plot_code : string) : World :=
  fst (server_app platform (env 100) POST_plots (request (new_plot plot_code)) w).

(** Cemetery 1 after ten creations. *)
Definition full_world : World :=
  fold_left create
    ["A-01"; "A-02"; "A-03"; "A-04"; "A-05"; "A-06"; "A-07"; "A-08"; "A-09"; "A-10"]
    empty_world.

(** A listing request, with or without the include-deleted flag. *)
Definition listing (flag : option string) : Request :=
  mkRequest (Some "Bearer manager-token") None (Some "10.0.0.7") flag JUndefined None.

(** Cemetery 1 after ten creations, the soft delete of plot 1 and the
    creation of an eleventh plot. *)
Definition crowded_world : World :=
  fst (server_app platform (env 300) POST_plots (request (new_plot "A-11"))
         (fst (server_app platform (env 200) (DELETE_plot 1) (request JUndefined)
                 full_world))).

(** Plot A-01 and one burial in it. *)
Definition burial_world : World :=
  fst (server_app platform (env 200) (POST_plot_deceased 1)
         (request (JObj [("deceased_full_name", JStr "Thabo Nkosi");
                         ("notes", JStr "family plot")]))
         (create empty_world "A-01")).

Definition plot_A01 : JsVal := JObj [("cemetery_id", JNum 1); ("plot_code", JStr "A-01")].

End Demo.

(* ================================================================== *)
(** * Vocabulary of the statements *)
(* ================================================================== *)

(* ------------------------------------------------------------------ *)
(** ** Escaping *)
(* ------------------------------------------------------------------ *)

(** The escaping as the specification words it: each of the five
    reserved characters becomes its entity, any other character stays. *)
Definition entity_of (c : ascii) : string :=
  if (c =? "&")%char then "&amp;"
  else if (c =? "<")%char then "&lt;"
  else if (c =? ">")%char then "&gt;"
  else if (c =? dquote)%char then "&quot;"
  else if (c =? "'")%char then "&#039;"
  else String c "".

Fixpoint escape_spec (s : string) : string :=
  match s with
  | EmptyString => EmptyString
  | String c r => entity_of c ++ escape_spec r
  end.

(** The markup characters a substituted value could use to open or
    close a tag or an attribute. *)
Definition is_markup (c : ascii) : bool :=
  (c =? "<")%char || (c =? ">")%char || (c =? dquote)%char || (c =? "'")%char.

Fixpoint markup (s : string) : string :=
  match s with
  | EmptyString => EmptyString
  | String c r => if is_markup c then String c (markup r) else markup r
  end.

(** A substitution that went through [esc]. *)
Definition escaped (p : Piece) : Prop :=
  match p with
  | Text _ => True
  | Subst s => exists v, s = esc v
  end.

(** The literal text of a template, its substitutions emptied. *)
Definition literal_text (l : list Piece) : string :=
  template (map (fun p => match p with Text s => Text s | Subst _ => Subst "" end) l).

(* ------------------------------------------------------------------ *)
(** ** The audit statement *)
(* ------------------------------------------------------------------ *)

(** The oracle of [env], its answer for the audit statement replaced. *)
Definition override_audit (o : option string) (env : Env) : Env :=
  set_query_fails (fun q => if Query_eqb q Q_insert_audit then o else query_fails env q) env.

Definition audit_attempts (w : World) : nat :=
  length (filter (Query_eqb Q_insert_audit) (queries w)).

(** What a request shows of the outcome of its audit statement: nothing
    in the response, the rows or the outbox, and one attempt at most. *)
Definition audit_blind (w : World) (failing passing : World * Response) : Prop :=
  snd failing = snd passing
  /\ plots (fst failing) = plots (fst passing)
  /\ deceased_records (fst failing) = deceased_records (fst passing)
  /\ outbox (fst failing) = outbox (fst passing)
  /\ (audit_attempts (fst failing) <= audit_attempts w + 1)%nat
  /\ (audit_attempts (fst passing) <= audit_attempts w + 1)%nat.


(* ------------------------------------------------------------------ *)
(** ** Requests and audit entries *)
(* ------------------------------------------------------------------ *)

(** [authRequired, requireFullControl] in front of a mutating route. *)
Definition guards (rt : Platform) (req : Request) : Response + Request :=
  match authRequired rt req with
  | inl resp => inl resp
  | inr req' => requireFullControl req'
  end.

(** The request carries a valid token of a full-permission user. *)
Definition full_control (rt : Platform) (req : Request) : bool :=
  match guards rt req with inr _ => true | inl _ => false end.

(** A 2xx answer. *)
Definition success (r : Response) : bool := (200 <=? code r) && (code r <? 300).

(** The action tag of each mutating route. *)
Definition action_of (route : Route) : option string :=
  match route with
  | GET_cemetery_plots _ => None
  | POST_plots => Some "CREATE_PLOT"
  | PATCH_plot _ => Some "UPDATE_PLOT"
  | DELETE_plot _ => Some "DELETE_PLOT"
  | POST_plot_deceased _ => Some "CREATE_DECEASED"
  | PATCH_deceased _ => Some "UPDATE_DECEASED"
  end.

(** The id of the row a successful request wrote: the row it created,
    or the row its path names. *)
Definition affected_id (route : Route) (r : Response) : option Z :=
  match route, payload r with
  | POST_plots, PlotBody row => Some (Plot.id row)
  | POST_plot_deceased _, DeceasedBody row => Some (Deceased.id row)
  | PATCH_plot id, _ => Some id
  | DELETE_plot id, _ => Some id
  | PATCH_deceased id, _ => Some id
  | _, _ => None
  end.

(** One audit entry was appended, for this route and this row. *)
Definition audited_once (route : Route) (w : World) (after : World * Response) : Prop :=
  exists entry,
    audit_logs (fst after) = (audit_logs w ++ [entry])%list
    /\ Some (AuditLog.action entry) = action_of route
    /\ AuditLog.entity_id entry = affected_id route (snd after).

(** The sentence of the specification about audit entries, at one request. *)
Definition every_success_is_audited (rt : Platform) (env : Env) (route : Route)
  (req : Request) (w : World) : Prop :=
  mutating route = true ->
  success (snd (server_app rt env route req w)) = true ->
  audited_once route w (server_app rt env route req w).

(* ------------------------------------------------------------------ *)
(** ** Capacity *)
(* ------------------------------------------------------------------ *)

(** The number of plots of a cemetery that are not soft-deleted. *)
Definition live_plots (cemetery : Z) (w : World) : Z :=
  Z.of_nat (length (filter (fun p => (Plot.cemetery_id p =? cemetery)
                                     && is_null (Plot.deleted_at p)) (plots w))).

(** The answer of a create-plot request refused for capacity. *)
Definition capacity_error (env : Env) : Response :=
  mkResponse 400
    (ErrorBody ("Plot limit reached (" ++ js_String (JNum (PLOTS_PER_CEMETERY_LIMIT env))
                  ++ " plots per cemetery)")).

(** The answer of a create-plot request that lacks a required field. *)
Definition required_fields_error : Response :=
  mkResponse 400 (ErrorBody "cemetery_id and plot_code are required").

(* ------------------------------------------------------------------ *)
(** ** Updating a plot *)
(* ------------------------------------------------------------------ *)

(** The columns an update-plot request can carry. *)
Definition plot_fields : list string :=
  [ "owner_name"; "gender"; "status"; "payment_date"; "row_num"; "col_num"; "coords" ].

Definition plot_field (f : string) (p : Plot.t) : Cell :=
  if (f =? "owner_name")%string then Plot.owner_name p
  else if (f =? "gender")%string then Plot.gender p
  else if (f =? "status")%string then Plot.status p
  else if (f =? "payment_date")%string then Plot.payment_date p
  else if (f =? "row_num")%string then Plot.row_num p
  else if (f =? "col_num")%string then Plot.col_num p
  else if (f =? "coords")%string then Plot.coords p
  else None.

(** The parameters the update statement is given. *)
Definition plot_update_of (rt : Platform) (env : Env) (req : Request) : Plot.t -> Plot.t :=
  plot_set (NOW env)
    (bind_param (js_coalesce (js_get (body req) "owner_name") JNull))
    (bind_param (js_coalesce (js_get (body req) "gender") JNull))
    (bind_param (js_coalesce (js_get (body req) "status") JNull))
    (bind_param (js_coalesce (js_get (body req) "payment_date") JNull))
    (bind_param (js_coalesce (js_get (body req) "row_num") JNull))
    (bind_param (js_coalesce (js_get (body req) "col_num") JNull))
    (bind_param (coords_param rt (js_get (body req) "coords"))).

(** The request carries no value for any plot column. *)
Definition empty_update (req : Request) : Prop :=
  forall f, In f plot_fields -> nullish (js_get (body req) f) = true.

(** Two plot rows that differ at most in [updated_at]. *)
Definition same_but_updated_at (p q : Plot.t) : Prop :=
  Plot.id p = Plot.id q
  /\ Plot.cemetery_id p = Plot.cemetery_id q
  /\ Plot.plot_code p = Plot.plot_code q
  /\ (forall f, plot_field f p = plot_field f q)
  /\ Plot.created_at p = Plot.created_at q
  /\ Plot.deleted_at p = Plot.deleted_at q.

(** The sentence of the specification on the empty update, at one
    pair of requests: the rows after the empty update are the rows
    after the first update. *)
Definition empty_update_changes_nothing (rt : Platform) (env1 env2 : Env) (id : Z)
  (req1 req2 : Request) (w : World) : Prop :=
  empty_update req2 ->
  let w1 := fst (server_app rt env1 (PATCH_plot id) req1 w) in
  let w2 := fst (server_app rt env2 (PATCH_plot id) req2 w1) in
  plots w2 = plots w1.


(* ------------------------------------------------------------------ *)
(** ** Deceased records *)
(* ------------------------------------------------------------------ *)

(** The sentence of the specification on the empty string, at one
    request and one column: once the update is answered 200, the stored
    column of the record is [NULL]. *)
Definition empty_string_clears (rt : Platform) (env : Env) (id : Z) (req : Request)
  (w : World) (f : string) : Prop :=
  In f fields ->
  js_get (body req) f = JStr "" ->
  code (snd (server_app rt env (PATCH_deceased id) req w)) = 200 ->
  forall r, In r (deceased_records (fst (server_app rt env (PATCH_deceased id) req w))) ->
            Deceased.id r = id -> Deceased.col f r = None.

(** The answer of an update that finds no record. *)
Definition record_not_found : Response := mkResponse 404 (ErrorBody "Record not found").

(** The full name of a create-deceased request is missing, or shorter
    than two characters once trimmed. *)
Definition name_too_short (req : Request) : Prop :=
  truthy (js_get (body req) "deceased_full_name") = false
  \/ str_length (trim (js_String (js_get (body req) "deceased_full_name"))) < 2.


(* ------------------------------------------------------------------ *)
(** ** Soft delete and listings *)
(* ------------------------------------------------------------------ *)

(** How many rows of a list carry the given plot id. *)
Definition count_id (id : Z) (rows : list Plot.t) : nat :=
  length (filter (fun p => Plot.id p =? id) rows).

(** How many times a plot shows in a listing answer. *)
Definition occurrences (id : Z) (r : Response) : nat :=
  match payload r with
  | PlotsBody rows => count_id id rows
  | _ => 0%nat
  end.

(** The rows of a cemetery, soft-deleted ones included. *)
Definition cemetery_rows (cemetery : Z) (w : World) : list Plot.t :=
  filter (fun p => Plot.cemetery_id p =? cemetery) (plots w).

(** The answer of a soft delete that finds no live plot. *)
Definition plot_not_found : Response :=
  mkResponse 404 (ErrorBody "Plot not found or already deleted").

(** The sentence of the specification on the listing with the
    include-deleted flag, at one soft delete followed by one listing. *)
Definition deleted_plot_is_listed_once (rt : Platform) (env : Env) (id cemetery : Z)
  (req listing : Request) (w : World) : Prop :=
  code (snd (server_app rt env (DELETE_plot id) req w)) = 200 ->
  (exists p, In p (plots w) /\ Plot.id p = id /\ Plot.cemetery_id p = cemetery) ->
  includeDeleted rt listing = true ->
  occurrences id
    (snd (server_app rt env (GET_cemetery_plots cemetery) listing
            (fst (server_app rt env (DELETE_plot id) req w)))) = 1%nat.

(* ------------------------------------------------------------------ *)
(** ** Mails *)
(* ------------------------------------------------------------------ *)

(** The four mails of the write path. *)
Inductive MailKind : Type := PlotCreated | PlotUpdated | PlotDeleted | DeceasedAdded.

(** The body of a mail of each kind, for some values of what it
    interpolates. *)
Inductive mail_body (rt : Platform) : MailKind -> list Piece -> Prop :=
| body_created cemeteryName plot req :
    mail_body rt PlotCreated (plot_created_html cemeteryName plot req)
| body_updated before cemetery_name after req :
    mail_body rt PlotUpdated (plot_updated_html rt before cemetery_name after req)
| body_deleted plot cemetery_name req :
    mail_body rt PlotDeleted (plot_deleted_html plot cemetery_name req)
| body_deceased created plotId req :
    mail_body rt DeceasedAdded (deceased_added_html created plotId req).

(** A request adds at most one mail to the outbox, and its body is one
    of the four. *)
Definition sends_at_most_one (rt : Platform) (w : World) (after : World * Response) : Prop :=
  outbox (fst after) = outbox w
  \/ exists m k, outbox (fst after) = (outbox w ++ [m])%list
                 /\ exists pieces, Mail.html m = template pieces /\ mail_body rt k pieces.

(* ================================================================== *)
(** * Further vocabulary: steps, invariants, guards, login *)
(* ================================================================== *)

(** What a [SET] clause may do to a plot row: it keeps the id and the
    cemetery, and never clears a deletion time. *)
Definition plot_rewrite (set : Plot.t -> Plot.t) : Prop :=
  forall p, Plot.id (set p) = Plot.id p
            /\ Plot.cemetery_id (set p) = Plot.cemetery_id p
            /\ Plot.plot_code (set p) = Plot.plot_code p
            /\ Plot.created_at (set p) = Plot.created_at p
            /\ (Plot.deleted_at p <> None -> Plot.deleted_at (set p) <> None).

(** The three things a request can do to the [plots] table: nothing,
    one insert for a cemetery that is below its limit, or one update in
    place of the rows with one id. *)
Definition plots_step (rt : Platform) (env : Env) (w w' : World) : Prop :=
  (plots w' = plots w /\ plots_id_seq w' = plots_id_seq w)
  \/ (exists row,
        plots w' = (plots w ++ [row])%list
        /\ plots_id_seq w' = plots_id_seq w + 1
        /\ Plot.id row = plots_id_seq w
        /\ Plot.deleted_at row = None
        /\ live_plots (Plot.cemetery_id row) w < PLOTS_PER_CEMETERY_LIMIT env)
  \/ (exists id set,
        plots w' = update_where Plot.id id set (plots w)
        /\ plots_id_seq w' = plots_id_seq w
        /\ plot_rewrite set).

(** What a [SET] clause may do to a deceased record: it keeps the id
    and the plot. *)
Definition deceased_rewrite (set : Deceased.t -> Deceased.t) : Prop :=
  forall r, Deceased.id (set r) = Deceased.id r
            /\ Deceased.plot_id (set r) = Deceased.plot_id r
            /\ map fst (Deceased.cols (set r)) = map fst (Deceased.cols r).

(** The three things a request can do to the [deceased_records] table. *)
Definition deceased_step (w w' : World) : Prop :=
  (deceased_records w' = deceased_records w /\ deceased_id_seq w' = deceased_id_seq w)
  \/ (exists row,
        deceased_records w' = (deceased_records w ++ [row])%list
        /\ deceased_id_seq w' = deceased_id_seq w + 1
        /\ Deceased.id row = deceased_id_seq w)
  \/ (exists id set,
        deceased_records w' = update_where Deceased.id id set (deceased_records w)
        /\ deceased_id_seq w' = deceased_id_seq w
        /\ deceased_rewrite set).

(** The ip address [writeAuditSafe] records for a request. *)
Definition audit_ip (req : Request) : option string :=
  let forwarded := trim (hd "" (split "," (opt_or (x_forwarded_for req) ""))) in
  if (forwarded =? "")%string then str_or_null (remoteAddress req) else Some forwarded.

(** The entity type of the audit entries of a route. *)
Definition entity_type_of (route : Route) : string :=
  match route with
  | POST_plot_deceased _ | PATCH_deceased _ => "deceased"
  | _ => "plot"
  end.

(** A request leaves the audit log alone or appends one entry, which
    names the route's action and the user and origin of the request. *)
Definition audit_step (route : Route) (req : Request) (w w' : World) : Prop :=
  audit_logs w' = audit_logs w
  \/ exists entry,
       audit_logs w' = (audit_logs w ++ [entry])%list
       /\ Some (AuditLog.action entry) = action_of route
       /\ AuditLog.entity_type entry = entity_type_of route
       /\ AuditLog.actor_username entry = str_or_null (user_field username req)
       /\ AuditLog.actor_role entry = str_or_null (user_field role req)
       /\ AuditLog.ip_address entry = audit_ip req.

(** Ids are unique in both tables and below the next value of their
    sequence. *)
Definition ids_fresh (w : World) : Prop :=
  NoDup (map Plot.id (plots w))
  /\ (forall p, In p (plots w) -> Plot.id p < plots_id_seq w)
  /\ NoDup (map Deceased.id (deceased_records w))
  /\ (forall r, In r (deceased_records w) -> Deceased.id r < deceased_id_seq w).

(** What identifies a plot row for good. *)
Definition plot_identity (p : Plot.t) : Z * Z * string * Z :=
  (Plot.id p, Plot.cemetery_id p, Plot.plot_code p, Plot.created_at p).

(** What identifies a deceased record for good. *)
Definition deceased_identity (r : Deceased.t) : Z * Z * list string :=
  (Deceased.id r, Deceased.plot_id r, map fst (Deceased.cols r)).











(** The string has the character. *)
Fixpoint contains (c : ascii) (s : string) : bool :=
  match s with
  | EmptyString => false
  | String c' r => (c' =? c)%char || contains c r
  end.

(** [Authorization: <scheme> <token>] *)
Definition with_header (scheme token : string) (req : Request) : Prop :=
  authorization req = Some (scheme ++ " " ++ token)
  /\ contains " " scheme = false
  /\ contains " " token = false.

Definition missing_token : Response := mkResponse 401 (ErrorBody "Missing token").
Definition invalid_token : Response := mkResponse 401 (ErrorBody "Invalid token").
Definition read_only_role : Response := mkResponse 403 (ErrorBody "Read-only role").

(** The environment with another answer of the mail transport. *)
Definition set_smtp_fails (o : option string) (e : Env) : Env :=
  mkEnv (PLOTS_PER_CEMETERY_LIMIT e) (DISABLE_EMAIL e) (SMTP_HOST e) (SMTP_USER e)
        (SMTP_PASS e) (NOTIFY_TO e) (MAIL_FROM e) (NOW e) (query_fails e) o.

(** What a request shows of the outcome of the mail transport: nothing
    but the mail itself. *)
Definition mail_blind (failing passing : World * Response) : Prop :=
  snd failing = snd passing
  /\ plots (fst failing) = plots (fst passing)
  /\ deceased_records (fst failing) = deceased_records (fst passing)
  /\ audit_logs (fst failing) = audit_logs (fst passing)
  /\ queries (fst failing) = queries (fst passing).

(** The routes that notify. *)
Definition notifies (route : Route) : bool :=
  match route with
  | POST_plots | PATCH_plot _ | DELETE_plot _ | POST_plot_deceased _ => true
  | GET_cemetery_plots _ | PATCH_deceased _ => false
  end.

(** A request leaves the outbox alone, or appends one mail from
    [MAIL_FROM] to the whole of [NOTIFY_TO]; the latter only on a
    notifying route, answered 2xx, with mail enabled and a transport
    that does not throw. *)
Definition mail_step (env : Env) (route : Route) (w : World) (after : World * Response)
  : Prop :=
  outbox (fst after) = outbox w
  \/ exists m,
       outbox (fst after) = (outbox w ++ [m])%list
       /\ Mail.from m = MAIL_FROM env
       /\ Mail.to m = join ", " (NOTIFY_TO env)
       /\ emailEnabled env = true
       /\ smtp_fails env = None
       /\ notifies route = true
       /\ success (snd after) = true.

(** What [GET /debug/email-test] answers: [{ ok: false, error }] or
    [{ ok: true, messageId }]. *)
Inductive DebugBody : Type :=
| DebugError (error : string)
| DebugOk (messageId : string).

Record DebugResponse : Type := mkDebug { debug_code : Z; debug_body : DebugBody }.

(** The mail of [GET /debug/email-test]; [time] is
    [new Date().toLocaleString()]. *)
Definition test_mail (env : Env) (time : string) : Mail.t :=
  Mail.mk (MAIL_FROM env) (join ", " (NOTIFY_TO env)) "✅ Cemetery Cloud Test Email"
    (template [ Text "<h3>SMTP test OK</h3><p>Time: "; Subst (esc (JStr time));
                Text "</p>" ]).

(** [GET /debug/email-test], registered with no middleware; it reads
    nothing of the request and calls the transport itself, not
    [sendMail].  [mailTransporter] is [null] exactly when mail is not
    enabled; [messageId] is what the transport returns. *)
Definition debug_email_test (env : Env) (time messageId : string) (w : World)
  : World * DebugResponse :=
  if negb (emailEnabled env)
  then (w, mkDebug 500 (DebugError "Email disabled / not configured"))
  else
    match smtp_fails env with
    | Some message => (w, mkDebug 500 (DebugError message))
    | None => (set_outbox (outbox w ++ [test_mail env time]) w, mkDebug 200 (DebugOk messageId))
    end.

(** The debug route leaves the outbox alone and answers 500, or appends
    its test mail and answers 200; the latter exactly when mail is
    enabled and the transport does not throw.  No table changes. *)
Definition debug_mail_step (env : Env) (time : string) (w : World)
  (after : World * DebugResponse) : Prop :=
  plots (fst after) = plots w
  /\ deceased_records (fst after) = deceased_records w
  /\ audit_logs (fst after) = audit_logs w
  /\ queries (fst after) = queries w
  /\ ((outbox (fst after) = outbox w
       /\ debug_code (snd after) = 500
       /\ (emailEnabled env = false \/ smtp_fails env <> None))
      \/ (outbox (fst after) = (outbox w ++ [test_mail env time])%list
          /\ debug_code (snd after) = 200
          /\ emailEnabled env = true
          /\ smtp_fails env = None)).

(** The columns of a plot that an update binds through [??]. *)
Definition plot_value_fields : list string :=
  [ "owner_name"; "gender"; "status"; "payment_date"; "row_num"; "col_num" ].

(** A decoder of the five entities, to show that [esc] loses nothing. *)
Fixpoint unescape (s : string) : string :=
  match s with
  | String "&" (String "a" (String "m" (String "p" (String ";" r)))) =>
      String "&" (unescape r)
  | String "&" (String "l" (String "t" (String ";" r))) => String "<" (unescape r)
  | String "&" (String "g" (String "t" (String ";" r))) => String ">" (unescape r)
  | String "&" (String "q" (String "u" (String "o" (String "t" (String ";" r))))) =>
      String dquote (unescape r)
  | String "&" (String "#" (String "0" (String "3" (String "9" (String ";" r))))) =>
      String "'" (unescape r)
  | String c r => String c (unescape r)
  | EmptyString => EmptyString
  end.

(** The rows a listing query selects, before [ORDER BY] and [LIMIT]. *)
Definition listed (cemetery : Z) (flag : bool) (rows : list Plot.t) : list Plot.t :=
  filter (fun p => (Plot.cemetery_id p =? cemetery) && (flag || is_null (Plot.deleted_at p)))
    rows.

(** Two rows in the order of the collation on plot codes. *)
Definition code_ordered (rt : Platform) (p q : Plot.t) : Prop :=
  code_leb rt (Plot.plot_code p) (Plot.plot_code q) = true.

(** Any two plot codes compare one way or the other. *)
Definition collation_total (rt : Platform) : Prop :=
  forall a b, code_leb rt a b = true \/ code_leb rt b a = true.

(** [writeAuditSafe] never records an empty string. *)
Definition not_empty (o : option string) : Prop := o <> Some "".

(** [NOTIFY_TO]: the variable split on commas, each piece trimmed, the
    empty pieces dropped. *)
Definition notify_to (raw : option string) : list string :=
  filter (fun s => negb (s =? "")%string) (map trim (split "," (opt_or raw ""))).

Fixpoint all_chars (p : ascii -> bool) (s : string) : bool :=
  match s with
  | EmptyString => true
  | String c r => p c && all_chars p r
  end.

(** The variable is unset or has nothing but white space and commas. *)
Definition blank_list (raw : option string) : bool :=
  all_chars (fun c => is_space c || (c =? ",")%char) (opt_or raw "").

(** The environment with the recipients read from the variable. *)
Definition set_notify_to (raw : option string) (e : Env) : Env :=
  mkEnv (PLOTS_PER_CEMETERY_LIMIT e) (DISABLE_EMAIL e) (SMTP_HOST e) (SMTP_USER e)
        (SMTP_PASS e) (notify_to raw) (MAIL_FROM e) (NOW e) (query_fails e) (smtp_fails e).

(** What the login route takes from its libraries. *)
Record Crypto : Type := mkCrypto {
  (** [bcrypt.hashSync(password, 10)] at start-up *)
  bcrypt_hashSync : string -> string;
  (** [await bcrypt.compare(data, hash)], which rejects data that is no string *)
  bcrypt_compare : JsVal -> string -> Outcome bool;
  (** [jwt.sign(payload, JWT_SECRET, { expiresIn: "8h" })] at a time *)
  jwt_sign : Z -> User -> string
}.

Record Account : Type := mkAccount { account : User; passwordHash : string }.

Definition users (cr : Crypto) : list Account :=
  [ mkAccount (mkUser "manager" "manager" "full") (bcrypt_hashSync cr "Manager@123");
    mkAccount (mkUser "administrator" "administrator" "full") (bcrypt_hashSync cr "Admin@123");
    mkAccount (mkUser "supervisor" "supervisor" "read")
      (bcrypt_hashSync cr "Supervisor@123") ].

Definition signToken (cr : Crypto) (now : Z) (a : Account) : string :=
  jwt_sign cr now
    (mkUser (username (account a)) (role (account a)) (permission (account a))).

Inductive LoginBody : Type :=
| LoginError (error : string)
| LoginOk (token : string) (user : User).

Record LoginResponse : Type := mkLogin { login_code : Z; login_body : LoginBody }.

Definition invalid_login : LoginResponse := mkLogin 401 (LoginError "Invalid login").

(** The name the login route looks up: [String(username || "").toLowerCase()] *)
Definition login_name (rt : Platform) (b : JsVal) : string :=
  toLowerCase rt (js_String (js_or (js_get (js_or b (JObj [])) "username") (JStr ""))).

(** [POST /api/auth/login]; the route has no [try], so that a rejected
    comparison leaves the handler. *)
Definition login (rt : Platform) (cr : Crypto) (now : Z) (b : JsVal)
  : Outcome LoginResponse :=
  let password := js_get (js_or b (JObj [])) "password" in
  match find (fun a => (username (account a) =? login_name rt b)%string) (users cr) with
  | None => Ok invalid_login
  | Some a =>
      match bcrypt_compare cr password (passwordHash a) with
      | Throw e => Throw e
      | Ok false => Ok invalid_login
      | Ok true =>
          Ok (mkLogin 200
                (LoginOk (signToken cr now a)
                   (mkUser (username (account a)) (role (account a))
                      (permission (account a)))))
      end
  end.

(** A comparison and a signature to run the login route on: the hash
    keeps the password, the token names the user. *)
Definition demo_crypto : Crypto :=
  mkCrypto (fun password => "$2b$10$" ++ password)
    (fun data hash =>
       match data with
       | JStr password => Ok (hash =? "$2b$10$" ++ password)%string
       | _ => Throw "data and hash arguments required"
       end)
    (fun _ u => username u ++ "-token").

Definition credentials (name password : string) : JsVal :=
  JObj [("username", JStr name); ("password", JStr password)].

(** A 4xx answer. *)
Definition client_error (r : Response) : bool := (400 <=? code r) && (code r <? 500).

(** Nothing but the log of attempted statements differs. *)
Definition untouched (w w' : World) : Prop :=
  plots w' = plots w
  /\ deceased_records w' = deceased_records w
  /\ cemeteries w' = cemeteries w
  /\ audit_logs w' = audit_logs w
  /\ outbox w' = outbox w
  /\ console w' = console w
  /\ plots_id_seq w' = plots_id_seq w
  /\ deceased_id_seq w' = deceased_id_seq w.


(** The status of the answer of a route that went through. *)
Definition ok_code (route : Route) : Z :=
  match route with
  | POST_plots | POST_plot_deceased _ => 201
  | _ => 200
  end.

(** The body of the answer of a route that went through. *)
Definition body_of (route : Route) (p : Payload) : Prop :=
  match route, p with
  | GET_cemetery_plots _, PlotsBody _ => True
  | POST_plots, PlotBody _ => True
  | PATCH_plot _, PlotBody _ => True
  | DELETE_plot _, OkBody => True
  | POST_plot_deceased _, DeceasedBody _ => True
  | PATCH_deceased _, DeceasedBody _ => True
  | _, _ => False
  end.

(** The statuses a route refuses or fails with. *)
Definition refusals (route : Route) : list Z :=
  match route with
  | GET_cemetery_plots _ => [401; 500]
  | POST_plots | POST_plot_deceased _ => [400; 401; 403; 500]
  | PATCH_plot _ | DELETE_plot _ | PATCH_deceased _ => [401; 403; 404; 500]
  end.

(** The route keeps the message of what failed to itself. *)
Definition hides_the_error (route : Route) : bool :=
  match route with PATCH_plot _ => true | _ => false end.

Definition answer_shape (route : Route) (resp : Response) : Prop :=
  (code resp = ok_code route /\ body_of route (payload resp))
  \/ (In (code resp) (refusals route)
      /\ exists e, payload resp = ErrorBody e
                   /\ (hides_the_error route = true -> code resp = 500 ->
                       e = "Failed to update plot")).


(* ================================================================== *)
(** * Proofs *)
(* ================================================================== *)

(* ------------------------------------------------------------------ *)
(** ** Symbolic execution of a handler *)
(* ------------------------------------------------------------------ *)

Ltac innermost x :=
  lazymatch x with
  | context [match _ with _ => _ end] => fail
  | _ => idtac
  end.

Ltac exec_step :=
  cbn -[template esc trim js_String Z.leb Z.ltb Z.eqb String.eqb update_where] in *;
  match goal with
  | |- context [match ?x with _ => _ end] => innermost x; destruct x eqn:?
  end.

Ltac exec := repeat exec_step.

Ltac unfold_server :=
  unfold chain, authRequired, requireFullControl,
    get_cemetery_plots, post_plots, patch_plot, delete_plot, post_deceased, patch_deceased,
    burial_type_param, catch_all, writeAuditSafe, getCemeteryName, sendMail,
    sql_insert_audit, sql_cemetery_name, sql_list_plots, sql_count_plots, sql_insert_plot,
    sql_select_plot, sql_update_plot, sql_soft_delete_plot, sql_insert_deceased,
    sql_update_deceased, pool_query, console_log, try_catch, bind, respond, ret,
    of_outcome, gets, modify, throw in *.

(* ------------------------------------------------------------------ *)
(** ** Escaping and the mail bodies *)
(* ------------------------------------------------------------------ *)

Lemma replace_class_step (c : ascii) (r : string) :
  replace_class esc_class esc_cb (String c r)
  = entity_of c ++ replace_class esc_class esc_cb r.
Proof.
  destruct c as [[] [] [] [] [] [] [] []]; reflexivity.
Qed.

Lemma esc_string_spec (s : string) : esc (JStr s) = escape_spec s.
Proof.
  unfold esc. cbn [js_coalesce nullish js_String].
  induction s as [|c r IH]; [reflexivity|].
  rewrite replace_class_step. cbn [escape_spec]. now rewrite IH.
Qed.

Lemma markup_app (a b : string) : markup (a ++ b) = markup a ++ markup b.
Proof.
  induction a as [|c a IH]; [reflexivity|].
  cbn [append markup]. destruct (is_markup c); cbn [append]; now rewrite IH.
Qed.

Lemma markup_entity (c : ascii) : markup (entity_of c) = "".
Proof. destruct c as [[] [] [] [] [] [] [] []]; reflexivity. Qed.

Lemma markup_replace (s : string) : markup (replace_class esc_class esc_cb s) = "".
Proof.
  induction s as [|c r IH]; [reflexivity|].
  rewrite replace_class_step, markup_app, markup_entity, IH. reflexivity.
Qed.

Lemma markup_esc (v : JsVal) : markup (esc v) = "".
Proof. apply markup_replace. Qed.

Lemma markup_template (l : list Piece) :
  Forall escaped l -> markup (template l) = markup (literal_text l).
Proof.
  unfold literal_text.
  induction 1 as [|p l Hp _ IH]; [reflexivity|].
  cbn [map template]. rewrite !markup_app, IH.
  destruct p as [s|s]; [reflexivity|]. destruct Hp as [v ->].
  cbn [piece_string]. now rewrite markup_esc.
Qed.


(* ------------------------------------------------------------------ *)
(** ** The audit write never reaches the caller *)
(* ------------------------------------------------------------------ *)

Lemma audit_blind_refl (w : World) (r : Response) : audit_blind w (w, r) (w, r).
Proof. unfold audit_blind; cbn [fst snd]; repeat split; lia. Qed.

Lemma chain_audit_blind (mws : list (Request -> Response + Request))
  (h1 h2 : Request -> World -> World * Response) (req : Request) (w : World) :
  (forall req', audit_blind w (h1 req' w) (h2 req' w)) ->
  audit_blind w (chain mws h1 req w) (chain mws h2 req w).
Proof.
  intros H. revert req. induction mws as [|mw mws IH]; intros req; cbn [chain].
  - apply H.
  - destruct (mw req) as [resp|req']; [apply audit_blind_refl | apply IH].
Qed.

Lemma emailEnabled_set_query_fails (f : Query -> option string) (env : Env) :
  emailEnabled (set_query_fails f env) = emailEnabled env.
Proof. reflexivity. Qed.

Lemma handler_audit_blind (rt : Platform) (env : Env) (o : option string) (route : Route)
  (req : Request) (w : World) :
  audit_blind w (handler rt (override_audit o env) route req w)
                (handler rt (override_audit None env) route req w).
Proof.
  destruct route; cbn [handler];
    (unfold audit_blind, override_audit; unfold_server;
     rewrite ?emailEnabled_set_query_fails; exec;
     (repeat split; try reflexivity; try congruence;
      unfold audit_attempts;
      cbn [fst snd queries set_queries set_console set_outbox set_audit_logs
           set_plots set_deceased_records];
      repeat rewrite filter_app; repeat rewrite length_app; cbn; lia)).
Qed.

(** C1.  Whatever the route and the request, a throw of the audit
    statement changes nothing of the answer (status code and body), of
    the plot and deceased rows or of the mails sent, compared with the
    same request whose audit statement succeeds; and a request attempts
    the audit statement once at most. *)
Theorem audit_failure_is_swallowed (rt : Platform) (env : Env) (message : string)
  (route : Route) (req : Request) (w : World) :
  audit_blind w
    (server_app rt (override_audit (Some message) env) route req w)
    (server_app rt (override_audit None env) route req w).
Proof.
  unfold server_app. apply chain_audit_blind. intros req'. apply handler_audit_blind.
Qed.

(* ------------------------------------------------------------------ *)
(** ** One audit entry for each successful mutation *)
(* ------------------------------------------------------------------ *)


Lemma filter_head {A : Type} (f : A -> bool) (l : list A) (x : A) (r : list A) :
  filter f l = x :: r -> f x = true.
Proof.
  intros H. assert (In x (filter f l)) as Hin by (rewrite H; now left).
  now apply filter_In in Hin.
Qed.

Lemma chain_guards (rt : Platform) (h : Request -> World -> World * Response)
  (req : Request) (w : World) :
  chain [authRequired rt; requireFullControl] h req w
  = match guards rt req with
    | inl resp => (w, resp)
    | inr req' => h req' w
    end.
Proof.
  unfold chain, guards. destruct (authRequired rt req) as [resp|req1]; [reflexivity|].
  destruct (requireFullControl req1); reflexivity.
Qed.

Lemma guards_inl (rt : Platform) (req : Request) (resp : Response) :
  guards rt req = inl resp -> success resp = false.
Proof.
  unfold guards, authRequired, requireFullControl, user_field.
  repeat match goal with
         | |- context [match ?x with _ => _ end] => innermost x; destruct x
         end; cbn; intros H; inversion H; reflexivity.
Qed.

Lemma guards_inr (rt : Platform) (req req' : Request) :
  guards rt req = inr req' ->
  exists u, req' = set_user u req /\ permission u = "full".
Proof.
  unfold guards, authRequired, requireFullControl, user_field.
  destruct (nth_error _ 1) as [token|]; [|discriminate].
  destruct (token =? "")%string; [discriminate|].
  destruct (jwt_verify rt token) as [p|]; [|discriminate].
  cbn [user set_user option_map].
  destruct (permission p =? "full")%string eqn:E; [|discriminate].
  intros H. inversion H. exists p. split; [reflexivity | now apply String.eqb_eq].
Qed.

Lemma joined_head {A B C : Type} (f : A -> bool) (g : A -> list B) (h : A -> B -> C)
  (rows : list A) (a : A) (c : C) (rest : list (A * C)) :
  flat_map (fun p => map (fun b => (p, h p b)) (g p)) (filter f rows) = (a, c) :: rest ->
  f a = true /\ In a rows.
Proof.
  intros H.
  assert (In (a, c) (flat_map (fun p => map (fun b => (p, h p b)) (g p)) (filter f rows)))
    as Hin by (rewrite H; now left).
  apply in_flat_map in Hin. destruct Hin as (p & Hp & Hin).
  apply in_map_iff in Hin. destruct Hin as (b & Hb & _).
  injection Hb as -> _. apply filter_In in Hp. tauto.
Qed.

Lemma handler_audited (rt : Platform) (env : Env) (route : Route) (req : Request)
  (w : World) :
  query_fails env Q_insert_audit = None ->
  mutating route = true ->
  success (snd (handler rt env route req w)) = true ->
  audited_once route w (handler rt env route req w).
Proof.
  intros Ha Hm. revert Ha.
  destruct route; try discriminate Hm; cbn [handler];
    (unfold audited_once, success; unfold_server; exec;
     (intros; try discriminate;
      eexists;
      cbn [fst snd audit_logs set_audit_logs set_outbox set_console set_queries
           set_plots set_deceased_records affected_id action_of payload];
      repeat split; cbn [AuditLog.action AuditLog.entity_id]; try congruence;
      repeat match goal with
        | H : filter _ _ = _ :: _ |- _ => apply filter_head in H
        | H : flat_map _ (filter _ _) = (_, _) :: _ |- _ =>
            apply (joined_head _ _ (fun _ c => Cemetery.name c)) in H; destruct H as [H _]
        | H : (_ && _) = true |- _ => apply andb_prop in H; destruct H
        | H : (_ =? _) = true |- _ => apply Z.eqb_eq in H
        end; congruence)).
Qed.

Lemma handler_audit_skipped (rt : Platform) (env : Env) (message : string) (route : Route)
  (req : Request) (w : World) :
  query_fails env Q_insert_audit = Some message ->
  audit_logs (fst (handler rt env route req w)) = audit_logs w.
Proof.
  intros Ha.
  destruct route; cbn [handler]; (unfold_server; rewrite ?Ha; exec; reflexivity).
Qed.

Lemma chain_audit_skipped (mws : list (Request -> Response + Request))
  (h : Request -> World -> World * Response) (req : Request) (w : World) :
  (forall req', audit_logs (fst (h req' w)) = audit_logs w) ->
  audit_logs (fst (chain mws h req w)) = audit_logs w.
Proof.
  intros H. revert req. induction mws as [|mw mws IH]; intros req; cbn [chain].
  - apply H.
  - destruct (mw req) as [resp|req']; [reflexivity | apply IH].
Qed.

(** C2 (amended).  When the audit statement itself does not throw, every
    successful create, update or soft delete of a plot or of a deceased
    record appends exactly one audit entry, whose action tag is the one
    of the operation and whose entity id is the id of the row written;
    nothing is assumed of the mail channel, configured or not.  When the
    audit statement throws, on any route and for any request, no audit
    entry is written, and the answer is the one the same request gets
    when the audit statement works: what succeeds with an audit entry
    succeeds without. *)
Theorem audit_entry_when_audit_succeeds (rt : Platform) (env : Env) (route : Route)
  (req : Request) (w : World) :
  (query_fails env Q_insert_audit = None -> every_success_is_audited rt env route req w)
  /\ (forall message,
        query_fails env Q_insert_audit = Some message ->
        audit_logs (fst (server_app rt env route req w)) = audit_logs w)
  /\ (forall message,
        snd (server_app rt (override_audit (Some message) env) route req w)
        = snd (server_app rt (override_audit None env) route req w)
        /\ audit_logs (fst (server_app rt (override_audit (Some message) env) route req w))
           = audit_logs w).
Proof.
  split; [|split].
  - intros Ha Hm. unfold server_app.
    assert (middleware rt route = [authRequired rt; requireFullControl]) as ->
      by (destruct route; [discriminate Hm | reflexivity ..]).
    rewrite chain_guards. destruct (guards rt req) as [resp|req'] eqn:Hg.
    + cbn [snd]. rewrite (guards_inl _ _ _ Hg). discriminate.
    + now apply handler_audited.
  - intros message Ha. unfold server_app. apply chain_audit_skipped.
    intros req'. now apply (handler_audit_skipped rt env message).
  - intros message. split.
    + assert (audit_blind w
                (server_app rt (override_audit (Some message) env) route req w)
                (server_app rt (override_audit None env) route req w)) as H
        by (unfold server_app; apply chain_audit_blind; intros req';
            apply handler_audit_blind).
      exact (proj1 H).
    + unfold server_app. apply chain_audit_skipped. intros req'.
      apply (handler_audit_skipped rt _ message). reflexivity.
Qed.


(** C2 as stated fails: when the audit statement throws, the plot is
    created and answered with 201, and no audit entry is written. *)
Lemma audit_entry_missing_when_audit_fails :
  ~ every_success_is_audited Demo.platform
      (override_audit (Some "connection refused") (Demo.env 100))
      POST_plots (Demo.request Demo.plot_A01) Demo.empty_world.
Proof.
  unfold every_success_is_audited, audited_once. intros H.
  destruct (H eq_refl eq_refl) as (entry & Hlog & _).
  vm_compute in Hlog. discriminate Hlog.
Qed.

Lemma audit_entry_when_audit_succeeds_witness :
  emailEnabled (Demo.env 100) = false
  /\ audited_once POST_plots Demo.empty_world
       (server_app Demo.platform (Demo.env 100) POST_plots
          (Demo.request Demo.plot_A01) Demo.empty_world)
  /\ audit_logs (fst (server_app Demo.platform
                        (override_audit (Some "connection refused") (Demo.env 100))
                        POST_plots (Demo.request Demo.plot_A01) Demo.empty_world)) = []
  /\ code (snd (server_app Demo.platform
                  (override_audit (Some "connection refused") (Demo.env 100))
                  POST_plots (Demo.request Demo.plot_A01) Demo.empty_world)) = 201.
Proof.
  split; [reflexivity|].
  split; [|split; [|vm_compute; reflexivity]].
  - apply (audit_entry_when_audit_succeeds Demo.platform (Demo.env 100) POST_plots
             (Demo.request Demo.plot_A01) Demo.empty_world); reflexivity.
  - apply (proj1 (proj2 (audit_entry_when_audit_succeeds Demo.platform
                           (override_audit (Some "connection refused") (Demo.env 100))
                           POST_plots (Demo.request Demo.plot_A01) Demo.empty_world))
             "connection refused").
    reflexivity.
Defined.

(* ------------------------------------------------------------------ *)
(** ** Creating a plot: capacity *)
(* ------------------------------------------------------------------ *)


Lemma js_get_or_empty (b : JsVal) (f : string) :
  js_get (js_or b (JObj [])) f = js_get b f.
Proof. destruct b as [| |[]|z|s| |]; try reflexivity; unfold js_or, truthy.
  - destruct (z =? 0); reflexivity.
  - destruct (s =? "")%string; reflexivity.
Qed.

Lemma num_or_0 (n : Z) : num_or n 0 = n.
Proof. unfold num_or. destruct (Z.eqb_spec n 0); congruence. Qed.

Lemma post_plots_full rt env req w c :
  as_bigint rt (js_get (body req) "cemetery_id") = Ok c ->
  PLOTS_PER_CEMETERY_LIMIT env <= live_plots c w ->
  plots (fst (post_plots rt env req w)) = plots w
  /\ (truthy (js_get (body req) "cemetery_id") = true ->
      truthy (js_get (body req) "plot_code") = true ->
      query_fails env Q_count_plots = None ->
      snd (post_plots rt env req w) = capacity_error env).
Proof.
  unfold live_plots, capacity_error. intros Hc Hfull. apply Z.leb_le in Hfull.
  unfold_server. rewrite !js_get_or_empty.
  exec; rewrite ?num_or_0 in *;
    repeat match goal with
      | H : Ok _ = Ok _ |- _ => inversion H; subst; clear H
      end; try congruence.
  all: (split; [reflexivity|]); intros H1 H2 H3; try congruence.
  all: rewrite ?H1, ?H2 in *; try discriminate; reflexivity.
Qed.

(** C3.  When the cemetery named by a create-plot request already holds
    as many non-deleted plots as the configured limit, no plot row is
    inserted; and a request that has passed the guards and the required
    fields check, its count statement answered, gets 400 with the
    capacity message. *)
Theorem create_plot_at_capacity (rt : Platform) (env : Env) (req : Request) (w : World)
  (cemetery : Z) :
  as_bigint rt (js_get (body req) "cemetery_id") = Ok cemetery ->
  PLOTS_PER_CEMETERY_LIMIT env <= live_plots cemetery w ->
  plots (fst (server_app rt env POST_plots req w)) = plots w
  /\ (full_control rt req = true ->
      truthy (js_get (body req) "cemetery_id") = true ->
      truthy (js_get (body req) "plot_code") = true ->
      query_fails env Q_count_plots = None ->
      snd (server_app rt env POST_plots req w) = capacity_error env).
Proof.
  intros Hc Hfull. unfold server_app; cbn [middleware handler]. rewrite chain_guards. unfold full_control.
  destruct (guards rt req) as [resp|req'] eqn:Hg.
  - split; [reflexivity | discriminate].
  - destruct (guards_inr _ _ _ Hg) as (u & -> & _).
    destruct (post_plots_full rt env (set_user u req) w cemetery Hc Hfull) as [Hrows Hresp].
    split; [exact Hrows | intros _; exact Hresp].
Qed.

Lemma create_plot_at_capacity_witness :
  let req := Demo.request (JObj [("cemetery_id", JNum 1); ("plot_code", JStr "A-11")]) in
  plots (fst (server_app Demo.platform (Demo.env 200) POST_plots req Demo.full_world))
  = plots Demo.full_world
  /\ snd (server_app Demo.platform (Demo.env 200) POST_plots req Demo.full_world)
     = capacity_error (Demo.env 200).
Proof.
  intros req.
  destruct (create_plot_at_capacity Demo.platform (Demo.env 200) req Demo.full_world 1)
    as [Hrows Hresp].
  - reflexivity.
  - vm_compute. discriminate.
  - split; [exact Hrows|]. apply Hresp; reflexivity.
Defined.


(* ------------------------------------------------------------------ *)
(** ** Creating a plot: required fields *)
(* ------------------------------------------------------------------ *)


(** A create-plot request whose cemetery id or plot code is missing,
    null, empty (or zero) is answered 400 and inserts nothing. *)
Lemma post_plots_required_fields (rt : Platform) (env : Env) (req : Request) (w : World) :
  truthy (js_get (body req) "cemetery_id") = false
  \/ truthy (js_get (body req) "plot_code") = false ->
  post_plots rt env req w = (w, required_fields_error).
Proof.
  intros H. unfold post_plots, catch_all, respond, ret. rewrite !js_get_or_empty.
  destruct H as [-> | ->]; cbn [negb orb]; [reflexivity|].
  now rewrite orb_true_r.
Qed.


(** C8, the failing input.  A plot code of three spaces passes the
    required-fields check, and the row is stored with the empty plot
    code that the check is there to refuse. *)
Lemma blank_plot_code_is_stored :
  let req := Demo.request (JObj [("cemetery_id", JNum 1); ("plot_code", JStr "   ")]) in
  let after := server_app Demo.platform (Demo.env 100) POST_plots req Demo.empty_world in
  trim "   " = ""
  /\ code (snd after) = 201
  /\ map Plot.plot_code (plots (fst after)) = [""]
  /\ plots Demo.empty_world = [].
Proof. vm_compute. repeat split. Qed.

(* ------------------------------------------------------------------ *)
(** ** Updating a plot: coalescing *)
(* ------------------------------------------------------------------ *)


Lemma update_where_In {A : Type} (key : A -> Z) (id : Z) (set : A -> A) (rows : list A)
  (x : A) :
  In x (update_where key id set rows) ->
  exists old, In old rows /\ x = (if key old =? id then set old else old).
Proof.
  unfold update_where. intros H. apply in_map_iff in H.
  destruct H as (old & <- & Hin). now exists old.
Qed.

Lemma update_where_Forall2 {A : Type} (R : A -> A -> Prop) (key : A -> Z) (id : Z)
  (set : A -> A) (rows : list A) :
  (forall r, R r r) -> (forall r, R (set r) r) ->
  Forall2 R (update_where key id set rows) rows.
Proof.
  intros Hrefl Hset. unfold update_where.
  induction rows as [|r rows IH]; cbn [map]; constructor; [|exact IH].
  destruct (key r =? id); auto.
Qed.

Lemma same_but_updated_at_refl (p : Plot.t) : same_but_updated_at p p.
Proof. unfold same_but_updated_at. repeat split. Qed.

Lemma plot_set_nothing (now : Z) (p : Plot.t) :
  same_but_updated_at (plot_set now None None None None None None None p) p.
Proof. unfold same_but_updated_at. repeat split. Qed.

Lemma Forall2_refl {A : Type} (R : A -> A -> Prop) (l : list A) :
  (forall x, R x x) -> Forall2 R l l.
Proof. intros H. induction l; constructor; auto. Qed.

Lemma coords_param_falsy (rt : Platform) (v : JsVal) :
  truthy v = false -> bind_param (coords_param rt v) = None.
Proof. unfold coords_param. now intros ->. Qed.

Lemma nullish_falsy (v : JsVal) : nullish v = true -> truthy v = false.
Proof. destruct v; cbn; congruence. Qed.

Lemma bind_param_nullish (v : JsVal) :
  nullish v = true -> bind_param (js_coalesce v JNull) = None.
Proof. unfold bind_param, js_coalesce. intros ->. reflexivity. Qed.

Lemma patch_plot_rows (rt : Platform) (env : Env) (id : Z) (req : Request) (w : World) :
  plots (fst (patch_plot rt env id req w)) = plots w
  \/ plots (fst (patch_plot rt env id req w))
     = update_where Plot.id id
         (plot_set (NOW env)
            (bind_param (js_coalesce (js_get (body req) "owner_name") JNull))
            (bind_param (js_coalesce (js_get (body req) "gender") JNull))
            (bind_param (js_coalesce (js_get (body req) "status") JNull))
            (bind_param (js_coalesce (js_get (body req) "payment_date") JNull))
            (bind_param (js_coalesce (js_get (body req) "row_num") JNull))
            (bind_param (js_coalesce (js_get (body req) "col_num") JNull))
            (bind_param (coords_param rt (js_get (body req) "coords"))))
         (plots w).
Proof.
  unfold_server. rewrite !js_get_or_empty. exec; auto.
Qed.

Lemma patch_plot_empty (rt : Platform) (env : Env) (id : Z) (req : Request) (w : World) :
  empty_update req ->
  Forall2 same_but_updated_at (plots (fst (patch_plot rt env id req w))) (plots w).
Proof.
  intros He.
  destruct (patch_plot_rows rt env id req w) as [-> | ->].
  - apply Forall2_refl, same_but_updated_at_refl.
  - rewrite !bind_param_nullish, coords_param_falsy
      by (try apply nullish_falsy; apply He; cbn; tauto).
    apply update_where_Forall2; [apply same_but_updated_at_refl | apply plot_set_nothing].
Qed.

Lemma key_unique {A : Type} (key : A -> Z) (l : list A) (a b : A) :
  NoDup (map key l) -> In a l -> In b l -> key a = key b -> a = b.
Proof.
  induction l as [|x l IH]; cbn [map In]; [tauto|].
  intros Hnd Ha Hb Hk. inversion Hnd as [|? ? Hx Hl]; subst.
  destruct Ha as [-> | Ha], Hb as [-> | Hb]; auto.
  - exfalso. apply Hx. rewrite Hk. now apply in_map.
  - exfalso. apply Hx. rewrite <- Hk. now apply in_map.
Qed.

Lemma patch_plot_ok (rt : Platform) (env : Env) (id : Z) (req : Request) (w : World)
  (after : Plot.t) :
  snd (patch_plot rt env id req w) = mkResponse 200 (PlotBody after) ->
  plots (fst (patch_plot rt env id req w))
  = update_where Plot.id id (plot_update_of rt env req) (plots w)
  /\ (exists live, In live (plots w) /\ Plot.id live = id /\ Plot.deleted_at live = None)
  /\ (exists old, In old (plots w) /\ Plot.id old = id /\ after = plot_update_of rt env req old).
Proof.
  unfold plot_update_of. unfold_server. rewrite !js_get_or_empty.
  exec; intros H; inversion H; subst; clear H.
  all: (split; [reflexivity|]).
  all: match goal with
       | H : flat_map _ _ = (?b, _) :: _ |- _ =>
           apply (joined_head _ _ (fun _ c => Cemetery.name c)) in H;
           destruct H as [Hlive Hin]; apply andb_prop in Hlive; destruct Hlive as [Hid Hdel];
           apply Z.eqb_eq in Hid
       end.
  all: split; [eexists; repeat split; [eassumption | assumption | ];
               match goal with H : is_null ?d = true |- _ => destruct d; [discriminate|reflexivity] end|].
  all: match goal with
       | H : filter ?f ?l = ?a :: _ |- _ =>
           assert (In a (filter f l)) as Ha by (rewrite H; now left)
       end.
  all: apply filter_In in Ha; destruct Ha as [Ha Hk]; apply Z.eqb_eq in Hk;
    apply update_where_In in Ha; destruct Ha as (old & Hold & Hafter).
  all: exists old; split; [assumption|].
  all: match type of Hafter with
       | _ = (if ?c then _ else _) => destruct c eqn:E
       end;
    [apply Z.eqb_eq in E; split; [exact E | exact Hafter]
    | apply Z.eqb_neq in E; subst; contradiction].
Qed.

Lemma plot_update_keeps (rt : Platform) (env : Env) (req : Request) (p : Plot.t) (f : string) :
  In f plot_fields -> nullish (js_get (body req) f) = true ->
  plot_field f (plot_update_of rt env req p) = plot_field f p.
Proof.
  intros Hf Hn. cbn in Hf.
  repeat (destruct Hf as [<- | Hf];
          [ unfold plot_update_of, plot_field; cbn [String.eqb Ascii.eqb Bool.eqb plot_set
              Plot.owner_name Plot.gender Plot.status Plot.payment_date Plot.row_num
              Plot.col_num Plot.coords];
            rewrite ?bind_param_nullish, ?coords_param_falsy
              by (try apply nullish_falsy; exact Hn);
            reflexivity | ]).
  contradiction.
Qed.

Lemma plot_update_fixed (rt : Platform) (env : Env) (req : Request) (p : Plot.t) :
  Plot.id (plot_update_of rt env req p) = Plot.id p
  /\ Plot.cemetery_id (plot_update_of rt env req p) = Plot.cemetery_id p
  /\ Plot.plot_code (plot_update_of rt env req p) = Plot.plot_code p
  /\ Plot.created_at (plot_update_of rt env req p) = Plot.created_at p
  /\ Plot.deleted_at (plot_update_of rt env req p) = Plot.deleted_at p
  /\ Plot.updated_at (plot_update_of rt env req p) = NOW env.
Proof. repeat split. Qed.

Lemma update_where_keeps_others {A : Type} (key : A -> Z) (id : Z) (set : A -> A)
  (rows : list A) (r : A) :
  In r rows -> key r <> id -> In r (update_where key id set rows).
Proof.
  intros Hin Hk. unfold update_where. apply in_map_iff. exists r. split; [|exact Hin].
  apply Z.eqb_neq in Hk. now rewrite Hk.
Qed.

Lemma update_where_hits {A : Type} (key : A -> Z) (id : Z) (set : A -> A)
  (rows : list A) (r : A) :
  In r rows -> key r = id -> In (set r) (update_where key id set rows).
Proof.
  intros Hin Hk. unfold update_where. apply in_map_iff. exists r. split; [|exact Hin].
  apply Z.eqb_eq in Hk. now rewrite Hk.
Qed.

(** C4 (amended).  A successful update of the one non-deleted plot with
    the given id replaces a column only when the request supplies a
    non-null value for it, keeps every column the request omits, keeps
    id, cemetery, plot code, creation and deletion times, and sets
    [updated_at] to the time of the update; every other row is kept; and
    an empty update applied afterwards leaves every row as it was but
    for [updated_at]. *)
Theorem update_plot_coalesces (rt : Platform) (env : Env) (id : Z) (req : Request)
  (w : World) (after : Plot.t) :
  NoDup (map Plot.id (plots w)) ->
  snd (server_app rt env (PATCH_plot id) req w) = mkResponse 200 (PlotBody after) ->
  let w1 := fst (server_app rt env (PATCH_plot id) req w) in
  exists before,
    In before (plots w) /\ Plot.id before = id /\ Plot.deleted_at before = None
    /\ In after (plots w1)
    /\ (forall f, In f plot_fields ->
          plot_field f after <> plot_field f before ->
          nullish (js_get (body req) f) = false)
    /\ (forall f, In f plot_fields ->
          nullish (js_get (body req) f) = true ->
          plot_field f after = plot_field f before)
    /\ Plot.id after = Plot.id before
    /\ Plot.cemetery_id after = Plot.cemetery_id before
    /\ Plot.plot_code after = Plot.plot_code before
    /\ Plot.created_at after = Plot.created_at before
    /\ Plot.deleted_at after = Plot.deleted_at before
    /\ Plot.updated_at after = NOW env
    /\ (forall other, In other (plots w) -> Plot.id other <> id -> In other (plots w1))
    /\ (forall env2 req2, empty_update req2 ->
          Forall2 same_but_updated_at
            (plots (fst (server_app rt env2 (PATCH_plot id) req2 w1))) (plots w1)).
Proof.
  intros Hnd. unfold server_app; cbn [middleware handler]. rewrite chain_guards.
  destruct (guards rt req) as [resp|req'] eqn:Hg.
  - cbn [snd]. intros ->. apply guards_inl in Hg. discriminate Hg.
  - destruct (guards_inr _ _ _ Hg) as (u & -> & _). intros Hok.
    destruct (patch_plot_ok _ _ _ _ _ _ Hok)
      as (Hrows & (live & Hlive & Hlid & Hldel) & (old & Hold & Hoid & Hafter)).
    assert (old = live) as ->
      by (apply (key_unique Plot.id (plots w)); auto; congruence).
    cbn zeta. rewrite Hrows. exists live.
    change (body (set_user u req)) with (body req) in *.
    repeat split; auto.
    + subst after. now apply update_where_hits.
    + intros f Hf Hne. destruct (nullish (js_get (body req) f)) eqn:E; [|reflexivity].
      exfalso. apply Hne. subst after. now apply plot_update_keeps.
    + intros f Hf Hn. subst after. now apply plot_update_keeps.
    + now subst after.
    + now subst after.
    + now subst after.
    + now subst after.
    + now subst after.
    + now subst after.
    + intros other Ho Hne. now apply update_where_keeps_others.
    + intros env2 req2 He. rewrite chain_guards.
      destruct (guards rt req2) as [resp2|req2'] eqn:Hg2.
      * cbn [fst]. rewrite Hrows. apply Forall2_refl, same_but_updated_at_refl.
      * destruct (guards_inr _ _ _ Hg2) as (u2 & -> & _).
        rewrite <- Hrows. apply patch_plot_empty. exact He.
Qed.

(** C4 as stated fails: an empty update applied one clock tick after an
    update changes the stored row, whose [updated_at] moves. *)
Lemma empty_update_moves_updated_at :
  ~ empty_update_changes_nothing Demo.platform (Demo.env 200) (Demo.env 300) 1
      (Demo.request (JObj [("owner_name", JStr "N. Mokoena")]))
      (Demo.request (JObj []))
      (Demo.create Demo.empty_world "A-01").
Proof.
  unfold empty_update_changes_nothing. intros H.
  assert (empty_update (Demo.request (JObj []))) as He by (intros f _; reflexivity).
  specialize (H He). vm_compute in H. discriminate H.
Qed.

Lemma update_plot_coalesces_witness :
  let req := Demo.request (JObj [("owner_name", JStr "N. Mokoena")]) in
  let w := Demo.create Demo.empty_world "A-01" in
  exists after before,
    snd (server_app Demo.platform (Demo.env 200) (PATCH_plot 1) req w)
    = mkResponse 200 (PlotBody after)
    /\ In before (plots w)
    /\ plot_field "status" after = plot_field "status" before
    /\ Plot.updated_at after = 200.
Proof.
  intros req w.
  eexists.
  assert (NoDup (map Plot.id (plots w))) as Hnd
    by (vm_compute; repeat constructor; cbn; tauto).
  destruct (update_plot_coalesces Demo.platform (Demo.env 200) 1 req w _ Hnd eq_refl)
    as (before & Hin & _ & _ & _ & _ & Hkeep & _ & _ & _ & _ & _ & Hup & _).
  exists before.
  split; [reflexivity|]. split; [exact Hin|]. split; [|exact Hup].
  apply Hkeep; [cbn; tauto | reflexivity].
Defined.

(* ------------------------------------------------------------------ *)
(** ** Updating a plot: coordinates *)
(* ------------------------------------------------------------------ *)





(* ------------------------------------------------------------------ *)
(** ** Updating a deceased record *)
(* ------------------------------------------------------------------ *)


Lemma assoc_combine_map {A : Type} (g : string -> A) (l : list string) (k : string) :
  assoc k (combine l (map g l)) = if existsb (String.eqb k) l then Some (g k) else None.
Proof.
  induction l as [|x l IH]; [reflexivity|].
  cbn [map combine assoc existsb]. destruct (String.eqb_spec k x) as [->|]; [reflexivity|].
  exact IH.
Qed.

Lemma assoc_map_snd {A : Type} (g : string * A -> string * A) (l : list (string * A))
  (k : string) :
  (forall cv, fst (g cv) = fst cv) ->
  assoc k (map g l) = option_map (fun v => snd (g (k, v))) (assoc k l).
Proof.
  intros Hg. induction l as [|[k' v] l IH]; [reflexivity|].
  cbn [map assoc]. specialize (Hg (k', v)). destruct (g (k', v)) as [k1 v1] eqn:E.
  cbn [fst] in Hg. subst k1.
  destruct (String.eqb_spec k k') as [->|]; [|exact IH].
  cbn [option_map]. now rewrite E.
Qed.

Lemma deceased_set_col (req : Request) (r : Deceased.t) (f : string) :
  In f fields ->
  js_get (body req) f = JStr "" \/ nullish (js_get (body req) f) = true ->
  Deceased.col f (deceased_set fields (map (patch_value req) fields) r) = Deceased.col f r.
Proof.
  intros Hf Hv. unfold Deceased.col, deceased_set. cbn [Deceased.cols].
  rewrite assoc_map_snd.
  2:{ intros cv. cbv beta. destruct (assoc _ _); reflexivity. }
  destruct (assoc f (Deceased.cols r)) as [old|]; [|reflexivity].
  cbn [option_map fst snd]. rewrite map_map, assoc_combine_map.
  assert (existsb (String.eqb f) fields = true) as ->.
  { apply existsb_exists. exists f. split; [exact Hf | apply String.eqb_refl]. }
  assert (bind_param (patch_value req f) = None) as ->.
  { unfold patch_value, bind_param, js_coalesce.
    destruct Hv as [-> | Hn]; [reflexivity|].
    rewrite Hn. destruct (is_empty_string _); reflexivity. }
  reflexivity.
Qed.

Lemma patch_deceased_ok (rt : Platform) (env : Env) (id : Z) (req : Request) (w : World)
  (row : Deceased.t) :
  snd (patch_deceased rt env id req w) = mkResponse 200 (DeceasedBody row) ->
  deceased_records (fst (patch_deceased rt env id req w))
  = update_where Deceased.id id (deceased_set fields (map (patch_value req) fields))
      (deceased_records w)
  /\ exists before, In before (deceased_records w) /\ Deceased.id before = id
       /\ row = deceased_set fields (map (patch_value req) fields) before.
Proof.
  unfold_server. exec; intros H; inversion H; subst; clear H.
  all: (split; [reflexivity|]).
  all: match goal with
       | H : filter ?f ?l = ?a :: _ |- _ =>
           assert (In a (filter f l)) as Ha by (rewrite H; now left)
       end.
  all: apply filter_In in Ha; destruct Ha as [Ha Hk]; apply Z.eqb_eq in Hk;
    apply update_where_In in Ha; destruct Ha as (old & Hold & Hrow).
  all: exists old; split; [assumption|].
  all: match type of Hrow with
       | _ = (if ?c then _ else _) => destruct c eqn:E
       end;
    [apply Z.eqb_eq in E; split; [exact E | exact Hrow]
    | apply Z.eqb_neq in E; subst; contradiction].
Qed.

Lemma update_where_misses {A : Type} (key : A -> Z) (id : Z) (set : A -> A) (rows : list A) :
  (forall r, In r rows -> key r <> id) ->
  update_where key id set rows = rows /\ filter (fun r => key r =? id) rows = [].
Proof.
  unfold update_where. induction rows as [|r rows IH]; intros H; [split; reflexivity|].
  cbn [map filter].
  assert ((key r =? id) = false) as -> by (apply Z.eqb_neq, H; now left).
  destruct IH as [-> ->]; [intros x Hx; apply H; now right|]. split; reflexivity.
Qed.

Lemma patch_deceased_missing (rt : Platform) (env : Env) (id : Z) (req : Request)
  (w : World) :
  query_fails env Q_update_deceased = None ->
  (forall r, In r (deceased_records w) -> Deceased.id r <> id) ->
  snd (patch_deceased rt env id req w) = record_not_found
  /\ deceased_records (fst (patch_deceased rt env id req w)) = deceased_records w
  /\ audit_logs (fst (patch_deceased rt env id req w)) = audit_logs w.
Proof.
  intros Hq Hnone.
  destruct (update_where_misses Deceased.id id
              (deceased_set fields (map (patch_value req) fields)) _ Hnone) as [Hu Hf].
  unfold_server. rewrite Hq. cbn [deceased_records set_queries]. rewrite Hu, Hf.
  cbn. repeat split.
Qed.

(** C5 (amended).  In an update of a deceased record, a column given as
    the empty string is handled as an omitted one: in both cases the
    stored value is left as it was.  An update whose id matches no
    record is answered 404, and changes neither the records nor the
    audit log. *)
Theorem update_deceased_empty_string_is_omitted (rt : Platform) (env : Env) (id : Z)
  (req : Request) (w : World) :
  full_control rt req = true ->
  (forall row,
      snd (server_app rt env (PATCH_deceased id) req w) = mkResponse 200 (DeceasedBody row) ->
      exists before,
        In before (deceased_records w) /\ Deceased.id before = id
        /\ In row (deceased_records (fst (server_app rt env (PATCH_deceased id) req w)))
        /\ Deceased.id row = id
        /\ forall f, In f fields ->
             js_get (body req) f = JStr "" \/ nullish (js_get (body req) f) = true ->
             Deceased.col f row = Deceased.col f before)
  /\ (query_fails env Q_update_deceased = None ->
      (forall r, In r (deceased_records w) -> Deceased.id r <> id) ->
      snd (server_app rt env (PATCH_deceased id) req w) = record_not_found
      /\ deceased_records (fst (server_app rt env (PATCH_deceased id) req w))
         = deceased_records w
      /\ audit_logs (fst (server_app rt env (PATCH_deceased id) req w)) = audit_logs w).
Proof.
  unfold full_control. unfold server_app; cbn [middleware handler]. rewrite chain_guards.
  destruct (guards rt req) as [resp|req'] eqn:Hg; [discriminate|]. intros _.
  destruct (guards_inr _ _ _ Hg) as (u & -> & _). split.
  - intros row Hok. destruct (patch_deceased_ok _ _ _ _ _ _ Hok) as (Hrows & before & Hin & Hid & Hrow).
    exists before. rewrite Hrows. repeat split; auto.
    + subst row. now apply update_where_hits.
    + now subst row.
    + intros f Hf Hv. subst row. now apply (deceased_set_col (set_user u req)).
  - intros Hq Hnone. now apply patch_deceased_missing.
Qed.

(** C5 as stated fails: the note of a record survives an update that
    gives the empty string for it. *)
Lemma empty_string_keeps_stored_value :
  ~ empty_string_clears Demo.platform (Demo.env 300) 1
      (Demo.request (JObj [("notes", JStr "")])) Demo.burial_world "notes".
Proof.
  unfold empty_string_clears. intros H.
  assert (In "notes" fields) as Hf by (cbn; tauto).
  specialize (H Hf eq_refl eq_refl).
  specialize (H (Deceased.mk 1 1
     (map (fun c => (fst c, bind_param (snd c)))
        [ ("deceased_full_name", JStr "Thabo Nkosi"); ("id_number", JNull);
          ("date_of_birth", JNull); ("date_of_death", JNull);
          ("burial_type", JStr "BURIAL"); ("burial_date", JNull);
          ("next_of_kin_name", JNull); ("next_of_kin_relationship", JNull);
          ("next_of_kin_phone", JNull); ("next_of_kin_email", JNull);
          ("next_of_kin_address", JNull); ("undertaker_name", JNull);
          ("undertaker_phone", JNull); ("cause_of_death", JNull);
          ("notes", JStr "family plot") ]))).
  assert (Some (JStr "family plot") = None) as Habs; [|discriminate Habs].
  apply H; [vm_compute; now left | reflexivity].
Qed.

Lemma update_deceased_empty_string_is_omitted_witness :
  let req := Demo.request (JObj [("notes", JStr "")]) in
  exists row before,
    snd (server_app Demo.platform (Demo.env 300) (PATCH_deceased 1) req Demo.burial_world)
    = mkResponse 200 (DeceasedBody row)
    /\ In before (deceased_records Demo.burial_world)
    /\ Deceased.col "notes" row = Deceased.col "notes" before
    /\ snd (server_app Demo.platform (Demo.env 300) (PATCH_deceased 7) req Demo.burial_world)
       = record_not_found.
Proof.
  intros req. eexists.
  destruct (update_deceased_empty_string_is_omitted Demo.platform (Demo.env 300) 1 req
              Demo.burial_world eq_refl) as [Hok _].
  destruct (Hok _ eq_refl) as (before & Hin & _ & _ & _ & Hkeep).
  destruct (update_deceased_empty_string_is_omitted Demo.platform (Demo.env 300) 7 req
              Demo.burial_world eq_refl) as [_ Hmiss].
  exists before. split; [reflexivity|]. split; [exact Hin|]. split.
  - apply Hkeep; [cbn; tauto | now left].
  - apply Hmiss; [reflexivity|].
    intros r Hr. vm_compute in Hr. destruct Hr as [<- | []]. discriminate.
Defined.

(* ------------------------------------------------------------------ *)
(** ** Creating a deceased record *)
(* ------------------------------------------------------------------ *)






(* ------------------------------------------------------------------ *)
(** ** Soft delete and listings *)
(* ------------------------------------------------------------------ *)


Lemma count_id_insert (rt : Platform) (id : Z) (p : Plot.t) (l : list Plot.t) :
  count_id id (insert_by_code rt p l) = count_id id (p :: l).
Proof.
  unfold count_id. induction l as [|q l IH]; [reflexivity|].
  cbn [insert_by_code]. destruct (code_leb rt _ _); [reflexivity|].
  cbn [filter] in *. destruct (Plot.id q =? id), (Plot.id p =? id);
    cbn [length] in *; rewrite IH; reflexivity.
Qed.

Lemma count_id_order (rt : Platform) (id : Z) (l : list Plot.t) :
  count_id id (order_by_plot_code rt l) = count_id id l.
Proof.
  unfold order_by_plot_code. induction l as [|p l IH]; [reflexivity|].
  cbn [fold_right]. rewrite count_id_insert. unfold count_id in *. cbn [filter].
  destruct (Plot.id p =? id); cbn [length]; now rewrite IH.
Qed.

Lemma length_insert_by_code (rt : Platform) (p : Plot.t) (l : list Plot.t) :
  length (insert_by_code rt p l) = S (length l).
Proof.
  induction l as [|q l IH]; [reflexivity|].
  cbn [insert_by_code]. destruct (code_leb rt _ _); cbn [length]; [reflexivity|].
  now rewrite IH.
Qed.

Lemma length_order (rt : Platform) (l : list Plot.t) :
  length (order_by_plot_code rt l) = length l.
Proof.
  unfold order_by_plot_code. induction l as [|p l IH]; [reflexivity|].
  cbn [fold_right]. rewrite length_insert_by_code. cbn [length]. now rewrite IH.
Qed.

Lemma count_id_firstn (id : Z) (n : nat) (l : list Plot.t) :
  (count_id id (firstn n l) <= count_id id l)%nat.
Proof.
  unfold count_id. revert n. induction l as [|p l IH]; intros [|n]; cbn [firstn filter length];
    try lia.
  specialize (IH n). destruct (Plot.id p =? id); cbn [length]; lia.
Qed.

Lemma count_id_filter (id : Z) (g : Plot.t -> bool) (l : list Plot.t) :
  (count_id id (filter g l) <= count_id id l)%nat.
Proof.
  unfold count_id. induction l as [|p l IH]; [reflexivity|].
  cbn [filter]. destruct (g p); cbn [filter]; destruct (Plot.id p =? id); cbn [length]; lia.
Qed.

Lemma count_id_absent (id : Z) (l : list Plot.t) :
  ~ In id (map Plot.id l) -> count_id id l = 0%nat.
Proof.
  unfold count_id. induction l as [|p l IH]; [reflexivity|].
  cbn [map In filter]. intros H.
  destruct (Z.eqb_spec (Plot.id p) id) as [E|E]; [tauto|]. apply IH. tauto.
Qed.

Lemma count_id_unique (id : Z) (l : list Plot.t) :
  NoDup (map Plot.id l) -> (count_id id l <= 1)%nat.
Proof.
  induction l as [|p l IH]; cbn [map]; intros Hnd; [unfold count_id; cbn; lia|].
  inversion Hnd as [|? ? Hp Hl]; subst. specialize (IH Hl). unfold count_id in *.
  cbn [filter]. destruct (Z.eqb_spec (Plot.id p) id) as [E|E]; [|exact IH].
  subst id. cbn [length]. pose proof (count_id_absent _ _ Hp) as H0.
  unfold count_id in H0. lia.
Qed.

Lemma count_id_present (id : Z) (l : list Plot.t) (p : Plot.t) :
  In p l -> Plot.id p = id -> (1 <= count_id id l)%nat.
Proof.
  intros Hin Hid. unfold count_id.
  assert (In p (filter (fun q => Plot.id q =? id) l)) as H
    by (apply filter_In; split; [exact Hin | now apply Z.eqb_eq]).
  destruct (filter _ l); [contradiction | cbn [length]; lia].
Qed.

Lemma count_id_live (id : Z) (l : list Plot.t) :
  (forall p, In p l -> Plot.id p = id -> Plot.deleted_at p <> None) ->
  count_id id (filter (fun p => is_null (Plot.deleted_at p)) l) = 0%nat.
Proof.
  intros H. unfold count_id. induction l as [|p l IH]; [reflexivity|].
  cbn [filter]. assert (forall q, In q l -> Plot.id q = id -> Plot.deleted_at q <> None) as Hl
    by (intros q Hq; apply H; now right).
  specialize (IH Hl). destruct (Plot.deleted_at p) eqn:Ed; cbn [is_null]; [exact IH|].
  cbn [filter]. destruct (Z.eqb_spec (Plot.id p) id) as [E|E]; [|exact IH].
  exfalso. apply (H p); [now left | exact E | exact Ed].
Qed.

Lemma map_id_update_where (id : Z) (set : Plot.t -> Plot.t) (l : list Plot.t) :
  (forall p, Plot.id (set p) = Plot.id p) ->
  map Plot.id (update_where Plot.id id set l) = map Plot.id l.
Proof.
  intros Hset. unfold update_where. rewrite map_map. apply map_ext.
  intros p. destruct (Plot.id p =? id); [apply Hset | reflexivity].
Qed.

Lemma joined_empty (w : World) (id : Z) :
  (forall p, In p (plots w) -> Plot.id p = id -> Plot.deleted_at p <> None) ->
  flat_map (fun p => map (fun c => (p, Cemetery.name c))
                       (filter (fun c => Cemetery.id c =? Plot.cemetery_id p) (cemeteries w)))
    (filter (fun p => (Plot.id p =? id) && is_null (Plot.deleted_at p)) (plots w)) = [].
Proof.
  intros H.
  assert (filter (fun p => (Plot.id p =? id) && is_null (Plot.deleted_at p)) (plots w) = [])
    as ->; [|reflexivity].
  induction (plots w) as [|p l IH]; [reflexivity|].
  cbn [filter]. destruct (Z.eqb_spec (Plot.id p) id) as [E|E]; cbn [andb].
  - destruct (Plot.deleted_at p) eqn:Ed; cbn [is_null].
    + apply IH. intros q Hq. apply H. now right.
    + exfalso. apply (H p); [now left | exact E | exact Ed].
  - apply IH. intros q Hq. apply H. now right.
Qed.

Lemma delete_plot_missing (rt : Platform) (env : Env) (id : Z) (req : Request) (w : World) :
  (forall p, In p (plots w) -> Plot.id p = id -> Plot.deleted_at p <> None) ->
  query_fails env Q_select_plot = None ->
  delete_plot rt env id req w
  = (set_queries (queries w ++ [Q_select_plot]) w, plot_not_found).
Proof.
  intros Hnone Hq. unfold_server. rewrite Hq. cbn [plots cemeteries set_queries].
  rewrite (joined_empty w id Hnone). reflexivity.
Qed.

Lemma delete_plot_ok (rt : Platform) (env : Env) (id : Z) (req : Request) (w : World) :
  code (snd (delete_plot rt env id req w)) = 200 ->
  plots (fst (delete_plot rt env id req w))
  = update_where Plot.id id (plot_mark_deleted (NOW env)) (plots w)
  /\ deceased_records (fst (delete_plot rt env id req w)) = deceased_records w
  /\ exists live, In live (plots w) /\ Plot.id live = id /\ Plot.deleted_at live = None.
Proof.
  unfold_server. exec; cbn [code]; intros H; try discriminate H.
  all: (split; [reflexivity|]); (split; [reflexivity|]).
  all: match goal with
       | H : flat_map _ _ = (?b, _) :: _ |- _ =>
           apply (joined_head _ _ (fun _ c => Cemetery.name c)) in H;
           destruct H as [Hlive Hin]; apply andb_prop in Hlive; destruct Hlive as [Hid Hdel];
           apply Z.eqb_eq in Hid; exists b; repeat split; try assumption;
           destruct (Plot.deleted_at b); [discriminate | reflexivity]
       end.
Qed.

Lemma get_cemetery_plots_rows (rt : Platform) (env : Env) (cemetery : Z) (req : Request)
  (w : World) :
  code (snd (get_cemetery_plots rt env cemetery req w)) = 200 ->
  0 <= PLOTS_PER_CEMETERY_LIMIT env
  /\ payload (snd (get_cemetery_plots rt env cemetery req w))
     = PlotsBody
         (firstn (Z.to_nat (PLOTS_PER_CEMETERY_LIMIT env))
            (order_by_plot_code rt
               (filter (fun p => (Plot.cemetery_id p =? cemetery)
                                 && (includeDeleted rt req || is_null (Plot.deleted_at p)))
                  (plots w)))).
Proof.
  unfold_server. exec; cbn [code]; intros H; try discriminate H.
  split; [lia | reflexivity].
Qed.

Lemma get_cemetery_plots_body (rt : Platform) (env : Env) (cemetery : Z) (req : Request)
  (w : World) :
  code (snd (get_cemetery_plots rt env cemetery req w)) = 200
  \/ (exists e, payload (snd (get_cemetery_plots rt env cemetery req w)) = ErrorBody e).
Proof. unfold_server. exec; cbn; eauto. Qed.

Lemma filter_both {A : Type} (f g : A -> bool) (l : list A) :
  filter (fun x => f x && (false || g x)) l = filter f (filter g l).
Proof.
  rewrite (filter_ext _ (fun x => f x && g x)) by reflexivity.
  induction l as [|x l IH]; [reflexivity|].
  cbn [filter]. destruct (g x); cbn [filter]; destruct (f x); cbn [andb]; now rewrite IH.
Qed.

Lemma authRequired_inr (rt : Platform) (req req' : Request) :
  authRequired rt req = inr req' -> exists u, req' = set_user u req.
Proof.
  unfold authRequired.
  destruct (nth_error _ 1) as [token|]; [|discriminate].
  destruct (token =? "")%string; [discriminate|].
  destruct (jwt_verify rt token) as [p|]; [|discriminate].
  intros H. inversion H. now exists p.
Qed.

Lemma authRequired_inl (rt : Platform) (req : Request) (resp : Response) :
  authRequired rt req = inl resp -> code resp = 401 /\ exists e, payload resp = ErrorBody e.
Proof.
  unfold authRequired.
  repeat match goal with
         | |- context [match ?x with _ => _ end] => innermost x; destruct x
         end; intros H; inversion H; cbn; eauto.
Qed.

(** What a listing shows of one plot id. *)
Lemma listing_occurrences (rt : Platform) (env : Env) (cemetery id : Z) (listing : Request)
  (w : World) :
  NoDup (map Plot.id (plots w)) ->
  let r := snd (server_app rt env (GET_cemetery_plots cemetery) listing w) in
  (occurrences id r <= 1)%nat
  /\ (includeDeleted rt listing = false ->
      (forall p, In p (plots w) -> Plot.id p = id -> Plot.deleted_at p <> None) ->
      occurrences id r = 0%nat)
  /\ (includeDeleted rt listing = true ->
      code r = 200 ->
      (exists p, In p (plots w) /\ Plot.id p = id /\ Plot.cemetery_id p = cemetery) ->
      Z.of_nat (length (cemetery_rows cemetery w)) <= PLOTS_PER_CEMETERY_LIMIT env ->
      occurrences id r = 1%nat).
Proof.
  intros Hnd. unfold server_app; cbn [middleware handler chain].
  destruct (authRequired rt listing) as [resp|req'] eqn:Ha.
  - destruct (authRequired_inl _ _ _ Ha) as (Hc & e & He).
    cbn [snd]. unfold occurrences. rewrite He, Hc. repeat split; try lia; discriminate.
  - destruct (authRequired_inr _ _ _ Ha) as (u & ->).
    change (includeDeleted rt listing) with (includeDeleted rt (set_user u listing)).
    set (req := set_user u listing).
    destruct (get_cemetery_plots_body rt env cemetery req w) as [Hok | (e & He)].
    2:{ cbn zeta. unfold occurrences. rewrite He. repeat split; try lia.
        intros _ Hc. exfalso. revert Hc He. unfold_server. exec; cbn; congruence. }
    destruct (get_cemetery_plots_rows rt env cemetery req w Hok) as [Hlim Hrows].
    cbn zeta. unfold occurrences. rewrite Hrows.
    set (pred := fun p => (Plot.cemetery_id p =? cemetery)
                          && (includeDeleted rt req || is_null (Plot.deleted_at p))).
    assert (count_id id (firstn (Z.to_nat (PLOTS_PER_CEMETERY_LIMIT env))
                           (order_by_plot_code rt (filter pred (plots w))))
            <= count_id id (filter pred (plots w)))%nat as Hle.
    { etransitivity; [apply count_id_firstn|]. now rewrite count_id_order. }
    pose proof (count_id_filter id pred (plots w)) as Hf.
    pose proof (count_id_unique id _ Hnd) as Hu.
    split; [lia|]. split.
    + intros Hinc Hdel.
      assert (filter pred (plots w)
              = filter (fun p => Plot.cemetery_id p =? cemetery)
                  (filter (fun p => is_null (Plot.deleted_at p)) (plots w))) as E.
      { unfold pred. rewrite Hinc. apply filter_both. }
      rewrite E in Hle |- *.
      pose proof (count_id_filter id (fun p => Plot.cemetery_id p =? cemetery)
                    (filter (fun p => is_null (Plot.deleted_at p)) (plots w))) as Hf2.
      rewrite (count_id_live id _ Hdel) in Hf2. lia.
    + intros Hinc _ (p & Hin & Hid & Hcem) Hroom.
      assert (filter pred (plots w) = cemetery_rows cemetery w) as E.
      { unfold pred, cemetery_rows. rewrite Hinc. apply filter_ext. intros q.
        cbn [orb]. apply andb_true_r. }
      rewrite E in *.
      rewrite firstn_all2 by (rewrite length_order; lia).
      rewrite count_id_order.
      assert (1 <= count_id id (cemetery_rows cemetery w))%nat as H1.
      { apply (count_id_present id _ p); [|exact Hid].
        unfold cemetery_rows. apply filter_In. split; [exact Hin | now apply Z.eqb_eq]. }
      lia.
Qed.

Lemma plot_mark_deleted_id (now : Z) (p : Plot.t) :
  Plot.id (plot_mark_deleted now p) = Plot.id p.
Proof. reflexivity. Qed.

Lemma marked_rows_are_deleted (now id : Z) (rows : list Plot.t) (p : Plot.t) :
  In p (update_where Plot.id id (plot_mark_deleted now) rows) ->
  Plot.id p = id -> Plot.deleted_at p <> None.
Proof.
  intros Hin Hid. apply update_where_In in Hin. destruct Hin as (old & _ & ->).
  destruct (Z.eqb_spec (Plot.id old) id) as [E|E]; [discriminate | contradiction].
Qed.

Lemma In_insert_by_code (rt : Platform) (p x : Plot.t) (l : list Plot.t) :
  In x (insert_by_code rt p l) <-> x = p \/ In x l.
Proof.
  induction l as [|q l IH]; cbn [insert_by_code In]; [intuition congruence|].
  destruct (code_leb rt _ _); cbn [In]; [intuition congruence|].
  rewrite IH. intuition congruence.
Qed.

Lemma In_order_by_plot_code (rt : Platform) (x : Plot.t) (l : list Plot.t) :
  In x (order_by_plot_code rt l) <-> In x l.
Proof.
  unfold order_by_plot_code. induction l as [|p l IH]; cbn [fold_right In]; [tauto|].
  rewrite In_insert_by_code, IH. intuition congruence.
Qed.

Lemma In_firstn {A : Type} (n : nat) (l : list A) (x : A) : In x (firstn n l) -> In x l.
Proof.
  revert l. induction n as [|n IH]; intros [|y l]; cbn [firstn In]; try tauto.
  intros [-> | H]; [now left | right; now apply IH].
Qed.

(** The listing with the include-deleted flag is the page of the first
    [PLOTS_PER_CEMETERY_LIMIT] rows of the cemetery in plot-code order,
    and a stored plot shows in it once exactly when it is on that page. *)
Lemma listing_page (rt : Platform) (env : Env) (cemetery id : Z) (listing : Request)
  (w : World) (p : Plot.t) :
  NoDup (map Plot.id (plots w)) ->
  includeDeleted rt listing = true ->
  code (snd (server_app rt env (GET_cemetery_plots cemetery) listing w)) = 200 ->
  In p (plots w) -> Plot.id p = id ->
  payload (snd (server_app rt env (GET_cemetery_plots cemetery) listing w))
  = PlotsBody (firstn (Z.to_nat (PLOTS_PER_CEMETERY_LIMIT env))
                 (order_by_plot_code rt (cemetery_rows cemetery w)))
  /\ (occurrences id (snd (server_app rt env (GET_cemetery_plots cemetery) listing w)) = 1%nat
      <-> In p (firstn (Z.to_nat (PLOTS_PER_CEMETERY_LIMIT env))
                  (order_by_plot_code rt (cemetery_rows cemetery w)))).
Proof.
  intros Hnd Hinc Hok Hin Hid.
  destruct (listing_occurrences rt env cemetery id listing w Hnd) as (Hle & _).
  revert Hok Hle. unfold server_app; cbn [middleware handler chain].
  destruct (authRequired rt listing) as [resp|req'] eqn:Ha.
  - destruct (authRequired_inl _ _ _ Ha) as (Hc & _). cbn [snd]. rewrite Hc. discriminate.
  - destruct (authRequired_inr _ _ _ Ha) as (u & ->).
    change (includeDeleted rt listing) with (includeDeleted rt (set_user u listing)) in Hinc.
    intros Hok. destruct (get_cemetery_plots_rows rt env cemetery _ w Hok) as [_ Hrows].
    rewrite Hinc in Hrows.
    assert (filter (fun q => (Plot.cemetery_id q =? cemetery)
                             && (true || is_null (Plot.deleted_at q))) (plots w)
            = cemetery_rows cemetery w) as E.
    { unfold cemetery_rows. apply filter_ext. intros q. cbn [orb]. apply andb_true_r. }
    rewrite E in Hrows. unfold occurrences. rewrite Hrows. intros Hle.
    split; [reflexivity|]. split.
    + intros H1. unfold count_id in H1.
      destruct (filter (fun q => Plot.id q =? id) _) as [|q l] eqn:Ef; [discriminate H1|].
      assert (In q (filter (fun q => Plot.id q =? id)
                      (firstn (Z.to_nat (PLOTS_PER_CEMETERY_LIMIT env))
                         (order_by_plot_code rt (cemetery_rows cemetery w))))) as Hq
        by (rewrite Ef; now left).
      apply filter_In in Hq. destruct Hq as [Hq Hqid]. apply Z.eqb_eq in Hqid.
      assert (In q (plots w)) as Hqw.
      { apply In_firstn, In_order_by_plot_code in Hq. unfold cemetery_rows in Hq.
        apply filter_In in Hq. tauto. }
      assert (q = p) as <- by (apply (key_unique Plot.id (plots w)); congruence).
      exact Hq.
    + intros Hp. pose proof (count_id_present id _ p Hp Hid). lia.
Qed.

(** C6 (amended).  A soft delete that finds no plot with the given id
    that is not yet soft-deleted is answered 404 and changes no row.  A
    successful one stamps the row with the deletion time and removes
    neither a plot row nor a deceased record; afterwards the plot is
    absent from every default listing and never shows twice in a
    listing.  The listing of its cemetery with the include-deleted flag
    is the page of the first [PLOTS_PER_CEMETERY_LIMIT] rows of the
    cemetery, deleted ones included, in plot-code order: the plot shows
    in it exactly once if it is on that page, and not at all if it is
    cut off; it is on the page whenever the cemetery has no more rows
    than the limit. *)
Theorem soft_delete_and_listings (rt : Platform) (env : Env) (id : Z) (req : Request)
  (w : World) :
  NoDup (map Plot.id (plots w)) ->
  let after := server_app rt env (DELETE_plot id) req w in
  (full_control rt req = true ->
   (forall p, In p (plots w) -> Plot.id p = id -> Plot.deleted_at p <> None) ->
   query_fails env Q_select_plot = None ->
   snd after = plot_not_found /\ plots (fst after) = plots w)
  /\ (code (snd after) = 200 ->
      exists before,
        In before (plots w) /\ Plot.id before = id /\ Plot.deleted_at before = None
        /\ In (plot_mark_deleted (NOW env) before) (plots (fst after))
        /\ Plot.deleted_at (plot_mark_deleted (NOW env) before) = Some (NOW env)
        /\ map Plot.id (plots (fst after)) = map Plot.id (plots w)
        /\ deceased_records (fst after) = deceased_records w
        /\ forall env2 cemetery listing,
             let r := snd (server_app rt env2 (GET_cemetery_plots cemetery) listing
                             (fst after)) in
             let page := firstn (Z.to_nat (PLOTS_PER_CEMETERY_LIMIT env2))
                           (order_by_plot_code rt (cemetery_rows cemetery (fst after))) in
             (includeDeleted rt listing = false -> occurrences id r = 0%nat)
             /\ (occurrences id r <= 1)%nat
             /\ (includeDeleted rt listing = true ->
                 code r = 200 ->
                 cemetery = Plot.cemetery_id before ->
                 Z.of_nat (length (cemetery_rows cemetery (fst after)))
                 <= PLOTS_PER_CEMETERY_LIMIT env2 ->
                 occurrences id r = 1%nat)
             /\ (includeDeleted rt listing = true ->
                 code r = 200 ->
                 payload r = PlotsBody page
                 /\ (In (plot_mark_deleted (NOW env) before) page ->
                     occurrences id r = 1%nat)
                 /\ (~ In (plot_mark_deleted (NOW env) before) page ->
                     occurrences id r = 0%nat))).
Proof.
  intros Hnd. cbn zeta. unfold full_control. unfold server_app; cbn [middleware handler]. rewrite chain_guards.
  destruct (guards rt req) as [resp|req'] eqn:Hg.
  - split; [discriminate|]. cbn [snd]. intros Hc.
    apply guards_inl in Hg. unfold success in Hg. rewrite Hc in Hg. discriminate Hg.
  - destruct (guards_inr _ _ _ Hg) as (u & -> & _). split.
    + intros _ Hnone Hq. rewrite (delete_plot_missing rt env id _ w Hnone Hq).
      split; reflexivity.
    + intros Hok.
      destruct (delete_plot_ok rt env id _ w Hok) as (Hrows & Hdec & live & Hin & Hid & Hdel).
      exists live. rewrite Hrows, Hdec.
      pose proof (update_where_hits Plot.id id (plot_mark_deleted (NOW env)) _ _ Hin Hid)
        as Hmarked.
      pose proof (map_id_update_where id (plot_mark_deleted (NOW env)) (plots w)
                    (plot_mark_deleted_id (NOW env))) as Hids.
      split; [exact Hin|]. split; [exact Hid|]. split; [exact Hdel|].
      split; [exact Hmarked|]. split; [reflexivity|]. split; [exact Hids|].
      split; [reflexivity|].
      intros env2 cemetery listing.
      set (w1 := fst (delete_plot rt env id (set_user u req) w)) in *.
      assert (NoDup (map Plot.id (plots w1))) as Hnd1
          by (rewrite Hrows, Hids; exact Hnd).
      destruct (listing_occurrences rt env2 cemetery id listing w1 Hnd1)
          as (Hle & Hdefault & Hincl).
      fold (server_app rt env2 (GET_cemetery_plots cemetery)).
      split; [|split; [|split]].
      * intros Hinc. apply Hdefault; [exact Hinc|].
        intros p Hp. rewrite Hrows in Hp.
        now apply (marked_rows_are_deleted (NOW env) id (plots w)).
      * exact Hle.
      * intros Hinc Hc -> Hroom. apply Hincl; auto.
        exists (plot_mark_deleted (NOW env) live). rewrite Hrows. auto.
      * intros Hinc Hc.
        assert (In (plot_mark_deleted (NOW env) live) (plots w1)) as Hin1
          by (rewrite Hrows; exact Hmarked).
        destruct (listing_page rt env2 cemetery id listing w1
                    (plot_mark_deleted (NOW env) live) Hnd1 Hinc Hc Hin1 Hid)
          as [Hpage Hiff].
        split; [exact Hpage|]. split; [apply Hiff|].
        intros Hout. destruct (occurrences id _) as [|[|n]] eqn:En; [reflexivity| |lia].
        exfalso. apply Hout, Hiff. reflexivity.
Qed.

(** C6 as stated fails: with the limit of ten, the eleventh plot of a
    cemetery, once soft-deleted, is cut off the listing that includes
    deleted plots, which stops after ten rows in plot-code order. *)
Lemma deleted_plot_beyond_the_limit_is_not_listed :
  ~ deleted_plot_is_listed_once Demo.platform (Demo.env 400) 11 1
      (Demo.request JUndefined) (Demo.listing (Some "true")) Demo.crowded_world.
Proof.
  unfold deleted_plot_is_listed_once. intros H.
  assert (exists p, In p (plots Demo.crowded_world)
                    /\ Plot.id p = 11 /\ Plot.cemetery_id p = 1) as Hp.
  { vm_compute. eexists. split; [do 10 right; left; reflexivity | split; reflexivity]. }
  specialize (H eq_refl Hp eq_refl). vm_compute in H. discriminate H.
Qed.

Lemma soft_delete_and_listings_witness :
  let w := Demo.create Demo.empty_world "A-01" in
  let after := server_app Demo.platform (Demo.env 200) (DELETE_plot 1)
                 (Demo.request JUndefined) w in
  let crowded := server_app Demo.platform (Demo.env 400) (DELETE_plot 2)
                   (Demo.request JUndefined) Demo.crowded_world in
  code (snd after) = 200
  /\ occurrences 1 (snd (server_app Demo.platform (Demo.env 300) (GET_cemetery_plots 1)
                           (Demo.listing None) (fst after))) = 0%nat
  /\ occurrences 1 (snd (server_app Demo.platform (Demo.env 300) (GET_cemetery_plots 1)
                           (Demo.listing (Some "true")) (fst after))) = 1%nat
  /\ snd (server_app Demo.platform (Demo.env 300) (DELETE_plot 1)
            (Demo.request JUndefined) (fst after)) = plot_not_found
  /\ length (cemetery_rows 1 (fst crowded)) = 11%nat
  /\ occurrences 2 (snd (server_app Demo.platform (Demo.env 500) (GET_cemetery_plots 1)
                           (Demo.listing (Some "true")) (fst crowded))) = 1%nat.
Proof.
  intros w after crowded.
  assert (NoDup (map Plot.id (plots w))) as Hnd
    by (vm_compute; repeat constructor; cbn; tauto).
  destruct (soft_delete_and_listings Demo.platform (Demo.env 200) 1
              (Demo.request JUndefined) w Hnd) as [_ Hok].
  destruct (Hok eq_refl) as (before & Hin & _ & _ & _ & _ & _ & _ & Hlist).
  assert (Plot.cemetery_id before = 1) as Hcem
    by (vm_compute in Hin; destruct Hin as [<- | []]; reflexivity).
  split; [reflexivity|].
  destruct (Hlist (Demo.env 300) 1 (Demo.listing None)) as (Hdefault & _ & _).
  destruct (Hlist (Demo.env 300) 1 (Demo.listing (Some "true"))) as (_ & _ & Hflag & _).
  split; [apply Hdefault; reflexivity|].
  split; [apply Hflag; [reflexivity | reflexivity | now rewrite Hcem | vm_compute; discriminate]|].
  split.
  { assert (NoDup (map Plot.id (plots (fst after)))) as Hnd1
      by (vm_compute; repeat constructor; cbn; tauto).
    destruct (soft_delete_and_listings Demo.platform (Demo.env 300) 1
                (Demo.request JUndefined) (fst after) Hnd1) as [Hmissing _].
    apply Hmissing; [reflexivity | | reflexivity].
    intros p Hp Hid. vm_compute in Hp. destruct Hp as [<- | []]. discriminate. }
  split; [vm_compute; reflexivity|].
  assert (NoDup (map Plot.id (plots Demo.crowded_world))) as Hnd2
    by (vm_compute; repeat constructor;
        intros H; repeat (destruct H as [H|H]; [discriminate H|]); exact H).
  destruct (soft_delete_and_listings Demo.platform (Demo.env 400) 2
              (Demo.request JUndefined) Demo.crowded_world Hnd2) as [_ Hok2].
  assert (code (snd (server_app Demo.platform (Demo.env 400) (DELETE_plot 2)
                       (Demo.request JUndefined) Demo.crowded_world)) = 200) as Hc2
    by (vm_compute; reflexivity).
  destruct (Hok2 Hc2) as (b2 & Hin2 & Hid2 & _ & _ & _ & _ & _ & Hlist2).
  destruct (Hlist2 (Demo.env 500) 1 (Demo.listing (Some "true"))) as (_ & _ & _ & Hpage).
  destruct Hpage as (_ & Hon & _); [reflexivity | vm_compute; reflexivity |].
  subst crowded. apply Hon.
  clear - Hin2 Hid2. revert b2 Hin2 Hid2. vm_compute. intros b Hin Hid.
  repeat (destruct Hin as [<- | Hin]; [try discriminate Hid | ]); [|contradiction].
  right. left. reflexivity.
Defined.

(* ------------------------------------------------------------------ *)
(** ** Every mail body is escaped *)
(* ------------------------------------------------------------------ *)


Lemma mail_body_escaped (rt : Platform) (k : MailKind) (l : list Piece) :
  mail_body rt k l -> Forall escaped l.
Proof.
  destruct 1; unfold plot_created_html, plot_updated_html, plot_deleted_html,
    deceased_added_html; repeat constructor; cbn [escaped]; eauto.
Qed.

Lemma mail_body_literal (rt : Platform) (k : MailKind) (l l' : list Piece) :
  mail_body rt k l -> mail_body rt k l' -> literal_text l = literal_text l'.
Proof. destruct 1; inversion 1; reflexivity. Qed.

Lemma handler_outbox (rt : Platform) (env : Env) (route : Route) (req : Request)
  (w : World) :
  sends_at_most_one rt w (handler rt env route req w).
Proof.
  destruct route; cbn [handler];
    (unfold sends_at_most_one; unfold_server; exec;
     first [ left; reflexivity
           | right; eexists; eexists; split;
             [ reflexivity
             | cbn [Mail.html]; eexists; split; [reflexivity | constructor] ] ]).
Qed.

Lemma chain_outbox (rt : Platform) (mws : list (Request -> Response + Request))
  (h : Request -> World -> World * Response) (req : Request) (w : World) :
  (forall req', sends_at_most_one rt w (h req' w)) ->
  sends_at_most_one rt w (chain mws h req w).
Proof.
  intros H. revert req. induction mws as [|mw mws IH]; intros req; cbn [chain].
  - apply H.
  - destruct (mw req) as [resp|req']; [left; reflexivity | apply IH].
Qed.

Lemma server_app_outbox (rt : Platform) (env : Env) (route : Route) (req : Request)
  (w : World) :
  sends_at_most_one rt w (server_app rt env route req w).
Proof. unfold server_app. apply chain_outbox. intros req'. apply handler_outbox.
Qed.

(** C9.  [esc] replaces each ampersand, less-than, greater-than, double
    quote and single quote of a string by its entity and copies every
    other character; every mail a request sends has one of the four
    bodies of the write path; every value such a body interpolates went
    through [esc]; so the tags and attribute quotes of a body are those
    of its literal text, whatever the values. *)
Theorem mail_bodies_are_escaped (rt : Platform) :
  (forall s, esc (JStr s) = escape_spec s)
  /\ (forall env route req w m,
        In m (outbox (fst (server_app rt env route req w))) ->
        In m (outbox w)
        \/ exists k pieces, Mail.html m = template pieces /\ mail_body rt k pieces)
  /\ (forall k pieces, mail_body rt k pieces -> Forall escaped pieces)
  /\ (forall k pieces pieces',
        mail_body rt k pieces -> mail_body rt k pieces' ->
        markup (template pieces) = markup (template pieces')).
Proof.
  split; [exact esc_string_spec|]. split; [|split].
  - intros env route req w m Hin.
    destruct (server_app_outbox rt env route req w) as [E | (m' & k & E & pieces & Hh & Hb)];
      rewrite E in Hin; [now left|].
    apply in_app_or in Hin. destruct Hin as [Hin | [<- | []]]; [now left|].
    right. now exists k, pieces.
  - exact (mail_body_escaped rt).
  - intros k pieces pieces' Hb Hb'.
    rewrite !markup_template by (eapply mail_body_escaped; eassumption).
    f_equal. eapply mail_body_literal; eassumption.
Qed.

Lemma mail_bodies_are_escaped_witness :
  let req := Demo.request (Demo.new_plot "<b>A-01</b>") in
  let w := fst (server_app Demo.platform (Demo.env_mail 100) POST_plots req
                  Demo.empty_world) in
  let blank := Plot.mk 0 0 "" None None None None None None None 0 0 None in
  esc (JStr "<b>A-01</b>") = "&lt;b&gt;A-01&lt;/b&gt;"
  /\ exists m,
       outbox w = [m]
       /\ (exists k pieces, Mail.html m = template pieces /\ mail_body Demo.platform k pieces)
       /\ markup (Mail.html m) = markup (template (plot_created_html "" blank req)).
Proof.
  intros req w blank.
  destruct (mail_bodies_are_escaped Demo.platform) as (Hesc & Hsent & _ & Hmark).
  split; [rewrite Hesc; reflexivity|].
  assert (exists m, outbox w = [m]) as [m Hm] by (vm_compute; eexists; reflexivity).
  exists m. split; [exact Hm|]. split.
  - destruct (Hsent (Demo.env_mail 100) POST_plots req Demo.empty_world m)
      as [[] | Hbody]; [|exact Hbody].
    change (In m (outbox w)). rewrite Hm. now left.
  - assert (Mail.html m
            = template (plot_created_html "Hillside"
                          (Plot.mk 1 1 "<b>A-01</b>" (Some (JStr "Available"))
                             None None None None None None 100 100 None)
                          (set_user Demo.manager req))) as Hhtml.
    { vm_compute in Hm. injection Hm as <-. vm_compute. reflexivity. }
    rewrite Hhtml. apply (Hmark PlotCreated); constructor.
Defined.

(* ------------------------------------------------------------------ *)
(** ** The requests that succeed *)
(* ------------------------------------------------------------------ *)

Lemma joined_present (w : World) (id : Z) (p : Plot.t) (c : Cemetery.t) :
  In p (plots w) -> Plot.id p = id -> Plot.deleted_at p = None ->
  In c (cemeteries w) -> Cemetery.id c = Plot.cemetery_id p ->
  flat_map (fun p => map (fun c => (p, Cemetery.name c))
                       (filter (fun c => Cemetery.id c =? Plot.cemetery_id p) (cemeteries w)))
    (filter (fun p => (Plot.id p =? id) && is_null (Plot.deleted_at p)) (plots w)) <> [].
Proof.
  intros Hp Hid Hdel Hc Hcid E.
  assert (In (p, Cemetery.name c)
            (flat_map (fun p => map (fun c => (p, Cemetery.name c))
                       (filter (fun c => Cemetery.id c =? Plot.cemetery_id p) (cemeteries w)))
               (filter (fun p => (Plot.id p =? id) && is_null (Plot.deleted_at p)) (plots w))))
    as Hin; [|rewrite E in Hin; exact Hin].
  apply in_flat_map. exists p. split.
  - apply filter_In. split; [exact Hp|]. rewrite Hdel. apply Z.eqb_eq in Hid. now rewrite Hid.
  - apply in_map_iff. exists c. split; [reflexivity|].
    apply filter_In. split; [exact Hc | now apply Z.eqb_eq].
Qed.

Lemma updated_present {A : Type} (key : A -> Z) (id : Z) (set : A -> A) (rows : list A)
  (r : A) :
  (forall x, key (set x) = key x) -> In r rows -> key r = id ->
  filter (fun x => key x =? id) (update_where key id set rows) <> [].
Proof.
  intros Hset Hin Hk E.
  assert (In (set r) (filter (fun x => key x =? id) (update_where key id set rows))) as H;
    [|rewrite E in H; exact H].
  apply filter_In. split; [now apply update_where_hits|].
  apply Z.eqb_eq. now rewrite Hset.
Qed.

(** An update of a plot that is there, not soft-deleted and in a known
    cemetery is answered 200 when its two statements do not throw. *)
Lemma patch_plot_succeeds (rt : Platform) (env : Env) (id : Z) (req : Request) (w : World)
  (p : Plot.t) (c : Cemetery.t) :
  full_control rt req = true ->
  In p (plots w) -> Plot.id p = id -> Plot.deleted_at p = None ->
  In c (cemeteries w) -> Cemetery.id c = Plot.cemetery_id p ->
  query_fails env Q_select_plot = None ->
  query_fails env Q_update_plot = None ->
  code (snd (server_app rt env (PATCH_plot id) req w)) = 200.
Proof.
  unfold full_control, server_app; cbn [middleware handler]. rewrite chain_guards.
  destruct (guards rt req) as [resp|req']; [discriminate|].
  intros _ Hp Hid Hdel Hc Hcid Hq1 Hq2.
  pose proof (joined_present w id p c Hp Hid Hdel Hc Hcid) as Hsel.
  pose proof (updated_present Plot.id id (plot_update_of rt env req') (plots w) p
                (fun x => eq_refl) Hp Hid) as Hupd.
  unfold plot_update_of in Hupd. revert Hsel Hupd.
  unfold_server. rewrite Hq1. cbn [plots cemeteries set_queries]. rewrite !js_get_or_empty.
  destruct (flat_map _ _) as [|[before name] rest]; [congruence|]. intros _.
  cbn [queries set_queries]. rewrite Hq2. cbn [plots set_queries].
  destruct (filter _ (update_where _ _ _ _)) as [|after rest']; [congruence|]. intros _.
  exec; reflexivity.
Qed.

(** A soft delete of such a plot is answered 200 when its two
    statements do not throw. *)
Lemma delete_plot_succeeds (rt : Platform) (env : Env) (id : Z) (req : Request) (w : World)
  (p : Plot.t) (c : Cemetery.t) :
  full_control rt req = true ->
  In p (plots w) -> Plot.id p = id -> Plot.deleted_at p = None ->
  In c (cemeteries w) -> Cemetery.id c = Plot.cemetery_id p ->
  query_fails env Q_select_plot = None ->
  query_fails env Q_soft_delete_plot = None ->
  code (snd (server_app rt env (DELETE_plot id) req w)) = 200.
Proof.
  unfold full_control, server_app; cbn [middleware handler]. rewrite chain_guards.
  destruct (guards rt req) as [resp|req']; [discriminate|].
  intros _ Hp Hid Hdel Hc Hcid Hq1 Hq2.
  pose proof (joined_present w id p c Hp Hid Hdel Hc Hcid) as Hsel. revert Hsel.
  unfold_server. rewrite Hq1. cbn [plots cemeteries set_queries].
  destruct (flat_map _ _) as [|[before name] rest]; [congruence|]. intros _.
  cbn [queries set_queries]. rewrite Hq2.
  exec; reflexivity.
Qed.

(** A create-plot request with its two required fields, for a cemetery
    below its limit, is answered 201 when none of its statements
    throws (the audit statement apart, which may). *)
Lemma post_plots_succeeds (rt : Platform) (env : Env) (req : Request) (w : World)
  (cemetery : Z) :
  full_control rt req = true ->
  truthy (js_get (body req) "cemetery_id") = true ->
  truthy (js_get (body req) "plot_code") = true ->
  as_bigint rt (js_get (body req) "cemetery_id") = Ok cemetery ->
  live_plots cemetery w < PLOTS_PER_CEMETERY_LIMIT env ->
  query_fails env Q_count_plots = None ->
  query_fails env Q_insert_plot = None ->
  query_fails env Q_cemetery_name = None ->
  code (snd (server_app rt env POST_plots req w)) = 201.
Proof.
  unfold full_control, server_app; cbn [middleware handler]. rewrite chain_guards.
  destruct (guards rt req) as [resp|req'] eqn:Hg; [discriminate|].
  destruct (guards_inr _ _ _ Hg) as (u & -> & _).
  intros _ H1 H2 Hc Hroom Hq1 Hq2 Hq3. unfold live_plots in Hroom.
  apply Z.leb_gt in Hroom.
  unfold_server. rewrite !js_get_or_empty. cbn [body set_user].
  rewrite H1, H2, Hq1, Hc. cbn [negb orb plots set_queries].
  rewrite num_or_0, Hroom. cbn [queries set_queries]. rewrite Hq2, ?Hc.
  exec; try reflexivity; congruence.
Qed.

(** A create-deceased request with a usable name and a burial type that
    is a string or absent is answered 201 when its insert does not
    throw. *)
Lemma post_deceased_succeeds (rt : Platform) (env : Env) (plotId : Z) (req : Request)
  (w : World) :
  full_control rt req = true ->
  ~ name_too_short req ->
  (truthy (js_get (body req) "burial_type") = false
   \/ exists s, js_get (body req) "burial_type" = JStr s) ->
  query_fails env Q_insert_deceased = None ->
  code (snd (server_app rt env (POST_plot_deceased plotId) req w)) = 201.
Proof.
  unfold full_control, server_app; cbn [middleware handler]. rewrite chain_guards.
  destruct (guards rt req) as [resp|req'] eqn:Hg; [discriminate|].
  destruct (guards_inr _ _ _ Hg) as (u & -> & _).
  intros _ Hname Hbt Hq. unfold name_too_short in Hname.
  assert (truthy (js_get (body req) "deceased_full_name") = true) as H1
    by (destruct (truthy _); tauto).
  assert ((str_length (trim (js_String (js_get (body req) "deceased_full_name"))) <? 2)
          = false) as H2 by (apply Z.ltb_ge; lia).
  assert (exists s, js_or (js_get (body req) "burial_type") (JStr "BURIAL") = JStr s)
    as [s Hs].
  { unfold js_or. destruct Hbt as [-> | [s ->]]; [now exists "BURIAL"|].
    destruct (truthy (JStr s)); eauto. }
  unfold_server. rewrite !js_get_or_empty. cbn [body set_user].
  rewrite H1, H2, Hs. cbn [negb orb queries set_queries]. rewrite Hq.
  exec; reflexivity.
Qed.

(** An update of a deceased record that is there is answered 200 when
    its statement does not throw. *)
Lemma patch_deceased_succeeds (rt : Platform) (env : Env) (id : Z) (req : Request)
  (w : World) (r : Deceased.t) :
  full_control rt req = true ->
  In r (deceased_records w) -> Deceased.id r = id ->
  query_fails env Q_update_deceased = None ->
  code (snd (server_app rt env (PATCH_deceased id) req w)) = 200.
Proof.
  unfold full_control, server_app; cbn [middleware handler]. rewrite chain_guards.
  destruct (guards rt req) as [resp|req']; [discriminate|].
  intros _ Hr Hid Hq.
  pose proof (updated_present Deceased.id id
                (deceased_set fields (map (patch_value req') fields)) (deceased_records w) r
                (fun x => eq_refl) Hr Hid) as Hupd.
  revert Hupd. unfold_server. rewrite Hq. cbn [deceased_records set_queries].
  destruct (filter _ (update_where _ _ _ _)) as [|row rest]; [congruence|]. intros _.
  exec; reflexivity.
Qed.

(* ================================================================== *)
(** * Further properties of the routes *)
(* ================================================================== *)

(* ------------------------------------------------------------------ *)
(** ** Steps of the tables *)
(* ------------------------------------------------------------------ *)

Lemma chain_prop (P : World * Response -> Prop)
  (mws : list (Request -> Response + Request))
  (h : Request -> World -> World * Response) (req : Request) (w : World) :
  (forall resp, P (w, resp)) ->
  (forall req', P (h req' w)) ->
  P (chain mws h req w).
Proof.
  intros Hw H. revert req. induction mws as [|mw mws IH]; intros req; cbn [chain].
  - apply H.
  - destruct (mw req) as [resp|req']; [apply Hw | apply IH].
Qed.

Lemma plot_set_rewrite (now : Z) (a b c d e f g : Cell) : plot_rewrite (plot_set now a b c d e f g).
Proof. intros p. cbn. tauto. Qed.

Lemma deceased_set_rewrite (fs : list string) (values : list JsVal) :
  deceased_rewrite (deceased_set fs values).
Proof.
  intros r. unfold deceased_set. cbn [Deceased.id Deceased.plot_id Deceased.cols].
  repeat split. rewrite map_map. apply map_ext. intros cv.
  destruct (assoc _ _); reflexivity.
Qed.

Lemma plot_mark_deleted_rewrite (now : Z) : plot_rewrite (plot_mark_deleted now).
Proof. intros p. cbn. repeat split; auto; discriminate. Qed.

Lemma handler_plots_step (rt : Platform) (env : Env) (route : Route) (req : Request)
  (w : World) :
  plots_step rt env w (fst (handler rt env route req w)).
Proof.
  destruct route; cbn [handler];
    (unfold plots_step; unfold_server; exec;
     first
       [ left; split; reflexivity
       | right; right; eexists; eexists; split; [reflexivity|]; split; [reflexivity|];
         first [apply plot_set_rewrite | apply plot_mark_deleted_rewrite]
       | idtac ]).
  all: right; left; eexists; split; [reflexivity|].
  all: cbn [plots_id_seq set_plots set_queries set_console set_outbox set_audit_logs
            Plot.id Plot.deleted_at Plot.cemetery_id].
  all: repeat split.
  all: unfold live_plots; rewrite num_or_0 in *;
    match goal with H : (_ <=? _) = false |- _ => apply Z.leb_gt in H; exact H end.
Qed.

Lemma server_app_plots_step (rt : Platform) (env : Env) (route : Route) (req : Request)
  (w : World) :
  plots_step rt env w (fst (server_app rt env route req w)).
Proof.
  unfold server_app. apply (chain_prop (fun r => plots_step rt env w (fst r))).
  - intros resp. left. split; reflexivity.
  - intros req'. apply handler_plots_step.
Qed.

Lemma handler_deceased_step (rt : Platform) (env : Env) (route : Route) (req : Request)
  (w : World) :
  deceased_step w (fst (handler rt env route req w)).
Proof.
  destruct route; cbn [handler];
    (unfold deceased_step; unfold_server; exec;
     first
       [ left; split; reflexivity
       | right; right; eexists; eexists; split; [reflexivity|]; split; [reflexivity|];
         apply deceased_set_rewrite
       | right; left; eexists; split; [reflexivity|]; split; reflexivity ]).
Qed.

Lemma server_app_deceased_step (rt : Platform) (env : Env) (route : Route) (req : Request)
  (w : World) :
  deceased_step w (fst (server_app rt env route req w)).
Proof.
  unfold server_app. apply (chain_prop (fun r => deceased_step w (fst r))).
  - intros resp. left. split; reflexivity.
  - intros req'. apply handler_deceased_step.
Qed.

Lemma handler_audit_step (rt : Platform) (env : Env) (route : Route) (req : Request)
  (w : World) :
  audit_step route req w (fst (handler rt env route req w)).
Proof.
  destruct route; cbn [handler];
    (unfold audit_step, audit_ip; unfold_server; exec;
     first
       [ left; reflexivity
       | right; eexists; split; [reflexivity|]; repeat split ]).
Qed.

(* ------------------------------------------------------------------ *)
(** ** Invariants of the tables *)
(* ------------------------------------------------------------------ *)

Lemma map_update_where {A B : Type} (key : A -> Z) (proj : A -> B) (id : Z) (set : A -> A)
  (rows : list A) :
  (forall r, proj (set r) = proj r) ->
  map proj (update_where key id set rows) = map proj rows.
Proof.
  intros Hset. unfold update_where. rewrite map_map. apply map_ext.
  intros r. destruct (key r =? id); [apply Hset | reflexivity].
Qed.

Lemma NoDup_snoc_fresh (l : list Z) (n : Z) :
  NoDup l -> (forall x, In x l -> x < n) -> NoDup (l ++ [n]).
Proof.
  intros Hnd Hlt. induction l as [|x l IH]; cbn [app]; [repeat constructor; tauto|].
  apply NoDup_cons_iff in Hnd. destruct Hnd as [Hx Hl]. constructor.
  - intros Hin. apply in_app_or in Hin. destruct Hin as [Hin | [E | []]]; [tauto|].
    specialize (Hlt x (or_introl eq_refl)). lia.
  - apply IH; [exact Hl | intros y Hy; apply Hlt; now right].
Qed.

(** X1.  Ids stay unique.  Every request keeps the ids of both tables
    unique and below the next value of their sequence. *)
Theorem ids_stay_fresh (rt : Platform) (env : Env) (route : Route) (req : Request)
  (w : World) :
  ids_fresh w -> ids_fresh (fst (server_app rt env route req w)).
Proof.
  intros (Hp & Hpl & Hd & Hdl).
  pose proof (server_app_plots_step rt env route req w) as Sp.
  pose proof (server_app_deceased_step rt env route req w) as Sd.
  set (w' := fst (server_app rt env route req w)) in *.
  unfold ids_fresh. split; [|split; [|split]].
  - destruct Sp as [[-> _] | [(row & -> & _ & Hid & _) | (id & set & -> & _ & Hset)]].
    + exact Hp.
    + rewrite map_app. cbn [map]. rewrite Hid. apply NoDup_snoc_fresh.
      * exact Hp.
      * intros x Hx. apply in_map_iff in Hx. destruct Hx as (p & <- & Hin). now apply Hpl.
    + rewrite (map_update_where Plot.id Plot.id); [exact Hp | intros r; apply Hset].
  - destruct Sp as [[-> ->] | [(row & -> & -> & Hid & _) | (id & set & -> & -> & Hset)]].
    + exact Hpl.
    + intros p Hin. apply in_app_or in Hin. destruct Hin as [Hin | [<- | []]].
      * specialize (Hpl p Hin). lia.
      * lia.
    + intros p Hin. apply update_where_In in Hin. destruct Hin as (old & Hold & ->).
      specialize (Hpl old Hold). destruct (Plot.id old =? id); [|exact Hpl].
      destruct (Hset old) as [-> _]. exact Hpl.
  - destruct Sd as [[-> _] | [(row & -> & _ & Hid) | (id & set & -> & _ & Hset)]].
    + exact Hd.
    + rewrite map_app. cbn [map]. rewrite Hid. apply NoDup_snoc_fresh.
      * exact Hd.
      * intros x Hx. apply in_map_iff in Hx. destruct Hx as (p & <- & Hin). now apply Hdl.
    + rewrite (map_update_where Deceased.id Deceased.id); [exact Hd | intros r; apply Hset].
  - destruct Sd as [[-> ->] | [(row & -> & -> & Hid) | (id & set & -> & -> & Hset)]].
    + exact Hdl.
    + intros p Hin. apply in_app_or in Hin. destruct Hin as [Hin | [<- | []]].
      * specialize (Hdl p Hin). lia.
      * lia.
    + intros p Hin. apply update_where_In in Hin. destruct Hin as (old & Hold & ->).
      specialize (Hdl old Hold). destruct (Deceased.id old =? id); [|exact Hdl].
      destruct (Hset old) as [-> _]. exact Hdl.
Qed.

Lemma ids_stay_fresh_witness :
  ids_fresh (fst (server_app Demo.platform (Demo.env 500) POST_plots
                    (Demo.request (Demo.new_plot "B-01")) Demo.burial_world)).
Proof.
  apply ids_stay_fresh. vm_compute.
  split; [repeat constructor; cbn; tauto|].
  split; [intros p [<- | []]; reflexivity|].
  split; [repeat constructor; cbn; tauto|].
  intros r [<- | []]; reflexivity.
Defined.











(** X3.  Nothing is removed.  A request keeps every plot row and every
    deceased record, in place and under its id; a plot keeps its
    cemetery, code and creation time, a record its plot and its
    columns; at most one row is added to each table, to the audit log
    and to the outbox. *)
Theorem nothing_is_removed (rt : Platform) (env : Env) (route : Route) (req : Request)
  (w : World) :
  let w' := fst (server_app rt env route req w) in
  (exists added, map plot_identity (plots w') = (map plot_identity (plots w) ++ added)%list
                 /\ (length added <= 1)%nat)
  /\ (exists added, map deceased_identity (deceased_records w')
                   = (map deceased_identity (deceased_records w) ++ added)%list
                   /\ (length added <= 1)%nat)
  /\ (exists added, audit_logs w' = (audit_logs w ++ added)%list /\ (length added <= 1)%nat)
  /\ (exists added, outbox w' = (outbox w ++ added)%list /\ (length added <= 1)%nat).
Proof.
  cbn zeta. split; [|split; [|split]].
  - destruct (server_app_plots_step rt env route req w)
      as [[-> _] | [(row & -> & _) | (id & set & -> & _ & Hset)]].
    + exists []. rewrite app_nil_r. split; [reflexivity | cbn; lia].
    + exists [plot_identity row]. rewrite map_app. split; [reflexivity | cbn; lia].
    + exists []. rewrite app_nil_r. split; [|cbn; lia].
      apply map_update_where. intros p. unfold plot_identity.
      destruct (Hset p) as (-> & -> & -> & -> & _). reflexivity.
  - destruct (server_app_deceased_step rt env route req w)
      as [[-> _] | [(row & -> & _) | (id & set & -> & _ & Hset)]].
    + exists []. rewrite app_nil_r. split; [reflexivity | cbn; lia].
    + exists [deceased_identity row]. rewrite map_app. split; [reflexivity | cbn; lia].
    + exists []. rewrite app_nil_r. split; [|cbn; lia].
      apply map_update_where. intros r. unfold deceased_identity.
      destruct (Hset r) as (-> & -> & ->). reflexivity.
  - unfold server_app.
    apply (chain_prop (fun r => exists added, audit_logs (fst r) = (audit_logs w ++ added)%list
                                              /\ (length added <= 1)%nat)).
    + intros resp. exists []. rewrite app_nil_r. split; [reflexivity | cbn; lia].
    + intros req'. destruct (handler_audit_step rt env route req' w) as [-> | (e & -> & _)].
      * exists []. rewrite app_nil_r. split; [reflexivity | cbn; lia].
      * exists [e]. split; [reflexivity | cbn; lia].
  - destruct (server_app_outbox rt env route req w) as [-> | (m & k & -> & _)].
    + exists []. rewrite app_nil_r. split; [reflexivity | cbn; lia].
    + exists [m]. split; [reflexivity | cbn; lia].
Qed.

(** X4.  A soft delete is never undone.  A plot that is soft-deleted
    before a request is still there and still soft-deleted after it. *)
Theorem soft_delete_is_permanent (rt : Platform) (env : Env) (route : Route) (req : Request)
  (w : World) (p : Plot.t) :
  In p (plots w) -> Plot.deleted_at p <> None ->
  exists p', In p' (plots (fst (server_app rt env route req w)))
             /\ plot_identity p' = plot_identity p
             /\ Plot.deleted_at p' <> None.
Proof.
  intros Hin Hdel.
  destruct (server_app_plots_step rt env route req w)
    as [[-> _] | [(row & -> & _) | (id & set & -> & _ & Hset)]].
  - now exists p.
  - exists p. split; [apply in_or_app; now left | now split].
  - destruct (Z.eqb_spec (Plot.id p) id) as [E|E].
    + exists (set p). split; [now apply update_where_hits|].
      unfold plot_identity. destruct (Hset p) as (-> & -> & -> & -> & Hd). split; auto.
    + exists p. split; [now apply update_where_keeps_others | now split].
Qed.

Lemma soft_delete_is_permanent_witness :
  exists p', In p' (plots (fst (server_app Demo.platform (Demo.env 500) (PATCH_plot 1)
                                  (Demo.request (JObj [("status", JStr "Available")]))
                                  Demo.crowded_world)))
             /\ Plot.id p' = 1 /\ Plot.deleted_at p' <> None.
Proof.
  assert (exists p, In p (plots Demo.crowded_world) /\ Plot.id p = 1
                    /\ Plot.deleted_at p <> None) as (p & Hin & Hid & Hdel).
  { vm_compute. eexists. split; [left; reflexivity|]. split; [reflexivity | discriminate]. }
  destruct (soft_delete_is_permanent Demo.platform (Demo.env 500) (PATCH_plot 1)
              (Demo.request (JObj [("status", JStr "Available")])) Demo.crowded_world
              p Hin Hdel) as (p' & Hin' & Hident & Hdel').
  exists p'. split; [exact Hin'|]. split; [|exact Hdel'].
  unfold plot_identity in Hident. injection Hident as -> _ _ _. exact Hid.
Defined.

(* ------------------------------------------------------------------ *)
(** ** The guards *)
(* ------------------------------------------------------------------ *)

Lemma split_free (sep : ascii) (s : string) :
  contains sep s = false -> split sep s = [s].
Proof.
  induction s as [|c r IH]; [reflexivity|].
  cbn [contains split]. intros H. apply orb_false_elim in H. destruct H as [Hc Hr].
  rewrite Hc, (IH Hr). reflexivity.
Qed.

Lemma split_at (sep : ascii) (a b : string) :
  contains sep a = false ->
  split sep (a ++ String sep b) = a :: split sep b.
Proof.
  induction a as [|c r IH]; cbn [contains append split].
  - intros _. now rewrite Ascii.eqb_refl.
  - intros H. apply orb_false_elim in H. destruct H as [Hc Hr].
    rewrite Hc, (IH Hr). reflexivity.
Qed.

Lemma str_or_empty (s : string) : str_or s "" = s.
Proof. unfold str_or. destruct (String.eqb_spec s ""); congruence. Qed.

Lemma authRequired_header (rt : Platform) (req : Request) (scheme token : string) :
  with_header scheme token req ->
  authRequired rt req
  = if (token =? "")%string then inl missing_token
    else match jwt_verify rt token with
         | Some payload => inr (set_user payload req)
         | None => inl invalid_token
         end.
Proof.
  intros (Hh & Hs & Ht). unfold authRequired. rewrite Hh. cbn [opt_or].
  rewrite str_or_empty. change (scheme ++ " " ++ token) with (scheme ++ String " " token).
  rewrite (split_at " " scheme token Hs), (split_free " " token Ht). reflexivity.
Qed.

Lemma authRequired_bare (rt : Platform) (req : Request) :
  authorization req = None
  \/ (exists s, authorization req = Some s /\ contains " " s = false) ->
  authRequired rt req = inl missing_token.
Proof.
  unfold authRequired. intros [-> | (s & -> & Hs)]; [reflexivity|].
  cbn [opt_or]. rewrite str_or_empty, (split_free " " s Hs). reflexivity.
Qed.

Lemma chain_rejects (mws : list (Request -> Response + Request))
  (mw : Request -> Response + Request)
  (h : Request -> World -> World * Response) (req : Request) (w : World) (resp : Response) :
  mw req = inl resp -> chain (mw :: mws) h req w = (w, resp).
Proof. intros H. cbn [chain]. now rewrite H. Qed.

Lemma middleware_first (rt : Platform) (route : Route) :
  exists rest, middleware rt route = authRequired rt :: rest.
Proof. destruct route; eexists; reflexivity. Qed.

(** X5.  No token, no service behind [authRequired].  On each of the
    six routes of [Route], all registered behind [authRequired] (the
    plot listing and the five mutating routes), a request without an
    [Authorization] header, with a header of one word only, with an
    empty token or with a token that does not verify is answered 401,
    and nothing is changed nor any statement attempted.  The routes
    registered without it (the login, the debug mail test) take no
    token. *)
Theorem guarded_routes_need_a_token (rt : Platform) (env : Env) (route : Route)
  (req : Request) (w : World) :
  (authorization req = None
   \/ (exists s, authorization req = Some s /\ contains " " s = false)
   \/ (exists scheme, with_header scheme "" req) ->
   server_app rt env route req w = (w, missing_token))
  /\ (forall scheme token,
        with_header scheme token req -> token <> "" -> jwt_verify rt token = None ->
        server_app rt env route req w = (w, invalid_token)).
Proof.
  unfold server_app. destruct (middleware_first rt route) as [rest ->]. split.
  - intros [H | [H | (scheme & H)]]; apply chain_rejects.
    + apply authRequired_bare. now left.
    + apply authRequired_bare. now right.
    + now rewrite (authRequired_header rt req scheme "" H).
  - intros scheme token H Hne Hv. apply chain_rejects.
    rewrite (authRequired_header rt req scheme token H), Hv.
    apply String.eqb_neq in Hne. now rewrite Hne.
Qed.

Lemma guarded_routes_need_a_token_witness :
  let bare := mkRequest (Some "manager-token") None None None Demo.plot_A01 None in
  let forged := mkRequest (Some "Bearer forged") None None None Demo.plot_A01 None in
  server_app Demo.platform (Demo.env 100) POST_plots bare Demo.empty_world
  = (Demo.empty_world, missing_token)
  /\ server_app Demo.platform (Demo.env 100) POST_plots forged Demo.empty_world
     = (Demo.empty_world, invalid_token).
Proof.
  intros bare forged. split.
  - apply (guarded_routes_need_a_token Demo.platform (Demo.env 100) POST_plots
             bare Demo.empty_world).
    right. left. exists "manager-token". split; reflexivity.
  - apply (guarded_routes_need_a_token Demo.platform (Demo.env 100) POST_plots
             forged Demo.empty_world) with (scheme := "Bearer") (token := "forged").
    + repeat split.
    + discriminate.
    + reflexivity.
Defined.

(** X6.  The scheme is not looked at, the token is.  A request whose
    header carries a verified token after any scheme word reaches the
    handler of the listing route, and that of a mutating route when the
    token's permission is ["full"], with the token's payload as its
    user. *)
Theorem verified_requests_reach_the_handler (rt : Platform) (env : Env) (route : Route)
  (req : Request) (w : World) (scheme token : string) (u : User) :
  with_header scheme token req -> token <> "" -> jwt_verify rt token = Some u ->
  mutating route = false \/ permission u = "full" ->
  server_app rt env route req w = handler rt env route (set_user u req) w.
Proof.
  intros H Hne Hv Hperm. unfold server_app.
  assert (authRequired rt req = inr (set_user u req)) as Ha.
  { rewrite (authRequired_header rt req scheme token H), Hv.
    apply String.eqb_neq in Hne. now rewrite Hne. }
  destruct route; cbn [middleware chain]; rewrite Ha; try reflexivity;
    destruct Hperm as [Hm | Hp]; try discriminate Hm;
    unfold requireFullControl, user_field; cbn [user set_user option_map];
    rewrite Hp; reflexivity.
Qed.

Lemma verified_requests_reach_the_handler_witness :
  let req := mkRequest (Some "Basic manager-token") None None None Demo.plot_A01 None in
  code (snd (server_app Demo.platform (Demo.env 100) POST_plots req Demo.empty_world)) = 201.
Proof.
  intros req.
  rewrite (verified_requests_reach_the_handler Demo.platform (Demo.env 100) POST_plots req
             Demo.empty_world "Basic" "manager-token" Demo.manager).
  - reflexivity.
  - repeat split.
  - discriminate.
  - reflexivity.
  - right. reflexivity.
Defined.

(** X7.  A read-only user changes nothing.  On every mutating route a
    verified token whose permission is not ["full"] is answered 403, and
    nothing is changed nor any statement attempted. *)
Theorem read_only_users_cannot_mutate (rt : Platform) (env : Env) (route : Route)
  (req : Request) (w : World) (scheme token : string) (u : User) :
  with_header scheme token req -> token <> "" -> jwt_verify rt token = Some u ->
  permission u <> "full" -> mutating route = true ->
  server_app rt env route req w = (w, read_only_role).
Proof.
  intros H Hne Hv Hperm Hm. unfold server_app.
  assert (authRequired rt req = inr (set_user u req)) as Ha.
  { rewrite (authRequired_header rt req scheme token H), Hv.
    apply String.eqb_neq in Hne. now rewrite Hne. }
  apply String.eqb_neq in Hperm.
  destruct route; try discriminate Hm; cbn [middleware chain]; rewrite Ha;
    unfold requireFullControl, user_field; cbn [user set_user option_map];
    rewrite Hperm; reflexivity.
Qed.

Lemma read_only_users_cannot_mutate_witness :
  let req := mkRequest (Some "Bearer supervisor-token") None None None JUndefined None in
  server_app Demo.platform (Demo.env 500) (DELETE_plot 2) req Demo.full_world
  = (Demo.full_world, read_only_role).
Proof.
  intros req.
  apply (read_only_users_cannot_mutate Demo.platform (Demo.env 500) (DELETE_plot 2) req
           Demo.full_world "Bearer" "supervisor-token" Demo.supervisor).
  - repeat split.
  - discriminate.
  - reflexivity.
  - discriminate.
  - reflexivity.
Defined.

(* ------------------------------------------------------------------ *)
(** ** Mail *)
(* ------------------------------------------------------------------ *)

Lemma chain_rel (R : World * Response -> World * Response -> Prop)
  (mws : list (Request -> Response + Request))
  (h1 h2 : Request -> World -> World * Response) (req : Request) (w : World) :
  (forall resp, R (w, resp) (w, resp)) ->
  (forall req', R (h1 req' w) (h2 req' w)) ->
  R (chain mws h1 req w) (chain mws h2 req w).
Proof.
  intros Hw H. revert req. induction mws as [|mw mws IH]; intros req; cbn [chain].
  - apply H.
  - destruct (mw req) as [resp|req']; [apply Hw | apply IH].
Qed.

Lemma emailEnabled_set_smtp_fails (o : option string) (env : Env) :
  emailEnabled (set_smtp_fails o env) = emailEnabled env.
Proof. reflexivity. Qed.

Lemma handler_mail_blind (rt : Platform) (env : Env) (message : string) (route : Route)
  (req : Request) (w : World) :
  mail_blind (handler rt (set_smtp_fails (Some message) env) route req w)
             (handler rt (set_smtp_fails None env) route req w)
  /\ outbox (fst (handler rt (set_smtp_fails (Some message) env) route req w)) = outbox w.
Proof.
  destruct route; cbn [handler];
    (unfold mail_blind, set_smtp_fails; unfold_server;
     rewrite ?emailEnabled_set_smtp_fails; exec;
     (repeat split; try reflexivity; congruence)).
Qed.

(** X8.  A mail failure is swallowed by [sendMail], not by the debug
    route.  On each of the six routes of [Route], whatever the request,
    a throw of the mail transport changes nothing of the answer, of the
    rows, of the audit log or of the statements attempted, compared
    with the same request whose mail is sent; the only difference is
    that no mail is in the outbox.  [GET /debug/email-test] calls the
    transport itself: there the throw is answered 500 with its message,
    where a working transport is answered 200. *)
Theorem mail_failure_is_swallowed_by_sendMail (rt : Platform) (env : Env) (message : string)
  (route : Route) (req : Request) (w : World) (time messageId : string) :
  (mail_blind (server_app rt (set_smtp_fails (Some message) env) route req w)
              (server_app rt (set_smtp_fails None env) route req w)
   /\ outbox (fst (server_app rt (set_smtp_fails (Some message) env) route req w))
      = outbox w)
  /\ debug_email_test (set_smtp_fails (Some message) env) time messageId w
     = (w, mkDebug 500 (DebugError (if emailEnabled env then message
                                    else "Email disabled / not configured")))
  /\ debug_code (snd (debug_email_test (set_smtp_fails None env) time messageId w))
     = (if emailEnabled env then 200 else 500).
Proof.
  split; [|split].
  - unfold server_app.
    apply (chain_rel (fun a b => mail_blind a b /\ outbox (fst a) = outbox w)).
    + intros resp. unfold mail_blind. repeat split.
    + intros req'. apply handler_mail_blind.
  - unfold debug_email_test. rewrite emailEnabled_set_smtp_fails.
    destruct (emailEnabled env); reflexivity.
  - unfold debug_email_test. rewrite emailEnabled_set_smtp_fails.
    destruct (emailEnabled env); reflexivity.
Qed.

Lemma handler_mail_step (rt : Platform) (env : Env) (route : Route) (req : Request)
  (w : World) :
  mail_step env route w (handler rt env route req w).
Proof.
  destruct route; cbn [handler];
    (unfold mail_step; unfold_server; exec;
     first [ left; reflexivity
           | right; eexists; split; [reflexivity|];
             cbn [Mail.from Mail.to notifies snd code success];
             repeat split; try reflexivity; try assumption;
             match goal with
             | H : negb (emailEnabled env) = false |- _ =>
                 apply negb_false_iff in H; exact H
             end ]).
Qed.

(** X9.  Who sends mail, and when.  Two pieces of code reach the mail
    transport.  Through [sendMail], a request on one of the six routes
    of [Route] sends at most one mail, from [MAIL_FROM] to all of
    [NOTIFY_TO], and only if it is a create, update or soft delete of a
    plot or a create of a deceased record that is answered 2xx, with
    mail enabled and a transport that does not throw.
    [GET /debug/email-test] sends its test mail, from and to the same
    addresses, for any request at all, with no token and no write,
    exactly when mail is enabled and the transport does not throw. *)
Theorem who_sends_mail (rt : Platform) (env : Env) (route : Route)
  (req : Request) (w : World) (time messageId : string) :
  mail_step env route w (server_app rt env route req w)
  /\ debug_mail_step env time w (debug_email_test env time messageId w)
  /\ Mail.from (test_mail env time) = MAIL_FROM env
  /\ Mail.to (test_mail env time) = join ", " (NOTIFY_TO env).
Proof.
  split; [|split; [|split; reflexivity]].
  - unfold server_app. apply (chain_prop (mail_step env route w)).
    + intros resp. now left.
    + intros req'. apply handler_mail_step.
  - unfold debug_mail_step, debug_email_test.
    destruct (emailEnabled env); cbn [negb].
    + destruct (smtp_fails env) as [e|] eqn:Hs; cbn [fst snd debug_code].
      * repeat split. left. repeat split. right. discriminate.
      * repeat split. right. repeat split.
    + repeat split. left. repeat split. now left.
Qed.

(* ------------------------------------------------------------------ *)
(** ** Stored values *)
(* ------------------------------------------------------------------ *)



Lemma bind_param_given (v : JsVal) :
  nullish v = false -> bind_param (js_coalesce v JNull) = Some v.
Proof. unfold bind_param, js_coalesce. intros H. now rewrite H, H. Qed.

(** X11.  An update binds what it is given.  In a successful update of a
    plot, for each of owner_name, gender, status, payment_date, row_num
    and col_num, a value of the request that is neither null nor
    missing is itself the parameter bound for the column, the empty
    string, zero and false included: the handler neither trims it nor
    puts a default in its place, and [COALESCE] takes it over the
    stored value.  (A cell of the model is the bound parameter; what
    PostgreSQL makes of it for the type of the column is not
    modelled.) *)
Theorem update_plot_binds_given_values (rt : Platform) (env : Env) (id : Z) (req : Request)
  (w : World) (after : Plot.t) (f : string) :
  snd (server_app rt env (PATCH_plot id) req w) = mkResponse 200 (PlotBody after) ->
  In f plot_value_fields ->
  nullish (js_get (body req) f) = false ->
  plot_field f after = bind_param (js_get (body req) f)
  /\ plot_field f after <> None.
Proof.
  assert (forall v, nullish v = false -> bind_param v = Some v) as Hbind
    by (intros v Hv; unfold bind_param; now rewrite Hv).
  unfold server_app; cbn [middleware handler]. rewrite chain_guards.
  destruct (guards rt req) as [resp|req'] eqn:Hg.
  - cbn [snd]. intros ->. apply guards_inl in Hg. discriminate Hg.
  - destruct (guards_inr _ _ _ Hg) as (u & -> & _). intros Hok Hf Hv.
    destruct (patch_plot_ok _ _ _ _ _ _ Hok) as (_ & _ & old & _ & _ & ->).
    change (body (set_user u req)) with (body req).
    rewrite (Hbind _ Hv).
    assert (plot_field f (plot_update_of rt env (set_user u req) old)
            = Some (js_get (body req) f)) as ->; [|split; [reflexivity | discriminate]].
    cbn in Hf.
    repeat (destruct Hf as [<- | Hf];
            [ unfold plot_update_of, plot_field;
              cbn [String.eqb Ascii.eqb Bool.eqb plot_set
                   Plot.owner_name Plot.gender Plot.status Plot.payment_date Plot.row_num
                   Plot.col_num Plot.coords];
              change (body (set_user u req)) with (body req);
              rewrite (bind_param_given _ Hv); reflexivity | ]).
    contradiction.
Qed.

Lemma update_plot_binds_given_values_witness :
  let req := Demo.request (JObj [("owner_name", JStr ""); ("row_num", JNum 0)]) in
  exists after,
    snd (server_app Demo.platform (Demo.env 200) (PATCH_plot 1) req
           (Demo.create Demo.empty_world "A-01")) = mkResponse 200 (PlotBody after)
    /\ plot_field "owner_name" after = Some (JStr "")
    /\ plot_field "row_num" after = Some (JNum 0).
Proof.
  intros req. eexists. split; [reflexivity|]. split.
  - apply (update_plot_binds_given_values Demo.platform (Demo.env 200) 1 req
             (Demo.create Demo.empty_world "A-01") _ "owner_name" eq_refl);
      [cbn; tauto | reflexivity].
  - apply (update_plot_binds_given_values Demo.platform (Demo.env 200) 1 req
             (Demo.create Demo.empty_world "A-01") _ "row_num" eq_refl);
      [cbn; tauto | reflexivity].
Defined.

Lemma assoc_some_of_key {A : Type} (k : string) (l : list (string * A)) :
  In k (map fst l) -> exists v, assoc k l = Some v.
Proof.
  induction l as [|[k' v] l IH]; cbn [map In assoc fst]; [tauto|].
  intros [-> | H].
  - rewrite String.eqb_refl. now exists v.
  - destruct (k =? k')%string; [now exists v | now apply IH].
Qed.

Lemma deceased_set_given (req : Request) (r : Deceased.t) (f : string) :
  In f fields -> In f (map fst (Deceased.cols r)) ->
  nullish (js_get (body req) f) = false ->
  is_empty_string (js_get (body req) f) = false ->
  Deceased.col f (deceased_set fields (map (patch_value req) fields) r)
  = Some (js_get (body req) f).
Proof.
  intros Hf Hcol Hn He. unfold Deceased.col, deceased_set. cbn [Deceased.cols].
  rewrite assoc_map_snd.
  2:{ intros cv. cbv beta. destruct (assoc _ _); reflexivity. }
  destruct (assoc_some_of_key f _ Hcol) as [old ->].
  cbn [option_map fst snd]. rewrite map_map, assoc_combine_map.
  assert (existsb (String.eqb f) fields = true) as ->.
  { apply existsb_exists. exists f. split; [exact Hf | apply String.eqb_refl]. }
  unfold patch_value. rewrite He. rewrite (bind_param_given _ Hn). reflexivity.
Qed.

(** X12.  An update of a deceased record binds what it is given.  In a
    successful update, a value of the request that is neither null,
    missing nor the empty string is itself the parameter bound for its
    column: unlike the creation, the handler neither trims the name nor
    checks its length nor upper-cases the burial type.  The record keeps
    its id and its plot, and the other records are kept.  (A cell of
    the model is the bound parameter; what PostgreSQL makes of it for
    the type of the column is not modelled.) *)
Theorem update_deceased_binds_given_values (rt : Platform) (env : Env) (id : Z)
  (req : Request) (w : World) (row : Deceased.t) :
  snd (server_app rt env (PATCH_deceased id) req w) = mkResponse 200 (DeceasedBody row) ->
  exists before,
    In before (deceased_records w)
    /\ Deceased.id row = Deceased.id before
    /\ Deceased.plot_id row = Deceased.plot_id before
    /\ (forall f, In f fields -> In f (map fst (Deceased.cols before)) ->
          nullish (js_get (body req) f) = false ->
          js_get (body req) f <> JStr "" ->
          Deceased.col f row = bind_param (js_get (body req) f)
          /\ Deceased.col f row <> None)
    /\ (forall other, In other (deceased_records w) -> Deceased.id other <> id ->
          In other (deceased_records (fst (server_app rt env (PATCH_deceased id) req w)))).
Proof.
  unfold server_app; cbn [middleware handler]. rewrite chain_guards.
  destruct (guards rt req) as [resp|req'] eqn:Hg.
  - cbn [snd]. intros ->. apply guards_inl in Hg. discriminate Hg.
  - destruct (guards_inr _ _ _ Hg) as (u & -> & _). intros Hok.
    destruct (patch_deceased_ok _ _ _ _ _ _ Hok) as (Hrows & before & Hin & _ & ->).
    exists before. rewrite Hrows.
    split; [exact Hin|]. split; [reflexivity|]. split; [reflexivity|]. split.
    + intros f Hf Hcol Hn Hne.
      assert (bind_param (js_get (body req) f) = Some (js_get (body req) f)) as ->
        by (unfold bind_param; now rewrite Hn).
      assert (Deceased.col f (deceased_set fields (map (patch_value (set_user u req)) fields)
                                before)
              = Some (js_get (body req) f)) as ->; [|split; [reflexivity | discriminate]].
      apply (deceased_set_given (set_user u req)); auto.
      change (body (set_user u req)) with (body req).
      destruct (js_get (body req) f) as [| | | |s| |]; try reflexivity.
      cbn [is_empty_string]. apply String.eqb_neq. congruence.
    + intros other Ho Hne. now apply update_where_keeps_others.
Qed.

Lemma update_deceased_binds_given_values_witness :
  let req := Demo.request (JObj [("deceased_full_name", JStr " t");
                                 ("burial_type", JStr "cremation")]) in
  exists row,
    snd (server_app Demo.platform (Demo.env 300) (PATCH_deceased 1) req Demo.burial_world)
    = mkResponse 200 (DeceasedBody row)
    /\ Deceased.col "deceased_full_name" row = Some (JStr " t")
    /\ Deceased.col "burial_type" row = Some (JStr "cremation").
Proof.
  intros req. eexists. split; [reflexivity|].
  destruct (update_deceased_binds_given_values Demo.platform (Demo.env 300) 1 req
              Demo.burial_world _ eq_refl) as (before & Hin & _ & _ & Hgiven & _).
  vm_compute in Hin. destruct Hin as [<- | []].
  split; apply Hgiven; try reflexivity; try discriminate; cbn; tauto.
Defined.

(* ------------------------------------------------------------------ *)
(** ** Escaping, decoded *)
(* ------------------------------------------------------------------ *)

Lemma unescape_entity (c : ascii) (r : string) :
  unescape (entity_of c ++ r) = String c (unescape r).
Proof.
  destruct c as [[] [] [] [] [] [] [] []]; try reflexivity.
  all: cbn [entity_of Ascii.eqb Bool.eqb append]; destruct r as [|[[] [] [] [] [] [] [] []] r'];
    reflexivity.
Qed.

Lemma unescape_escape_spec (s : string) : unescape (escape_spec s) = s.
Proof.
  induction s as [|c r IH]; [reflexivity|].
  cbn [escape_spec]. rewrite unescape_entity. now rewrite IH.
Qed.

Lemma entity_length (c : ascii) : (1 <= String.length (entity_of c))%nat.
Proof. destruct c as [[] [] [] [] [] [] [] []]; cbn; lia. Qed.

Lemma append_length (a b : string) :
  String.length (a ++ b) = (String.length a + String.length b)%nat.
Proof. induction a as [|c a IH]; cbn [append String.length]; [reflexivity | now rewrite IH]. Qed.

(** X13.  Escaping loses nothing.  The five entities decode back to the
    string that was escaped, so two different strings never escape to
    the same text; an escaped string is never shorter than the string;
    and [null] and [undefined] escape to the empty string. *)
Theorem esc_loses_nothing :
  (forall s, unescape (esc (JStr s)) = s)
  /\ (forall s1 s2, esc (JStr s1) = esc (JStr s2) -> s1 = s2)
  /\ (forall s, (String.length s <= String.length (esc (JStr s)))%nat)
  /\ esc JNull = "" /\ esc JUndefined = "".
Proof.
  assert (forall s, unescape (esc (JStr s)) = s) as Hround
    by (intros s; rewrite esc_string_spec; apply unescape_escape_spec).
  split; [exact Hround|]. split; [|split; [|split; reflexivity]].
  - intros s1 s2 H. rewrite <- (Hround s1), <- (Hround s2). now rewrite H.
  - intros s. rewrite esc_string_spec. induction s as [|c r IH]; [reflexivity|].
    cbn [escape_spec String.length]. rewrite append_length.
    pose proof (entity_length c). lia.
Qed.

Lemma esc_loses_nothing_witness :
  unescape (esc (JStr "<b>Tom & Co</b>")) = "<b>Tom & Co</b>"
  /\ "R&B" = "R&B".
Proof.
  split; [apply (proj1 esc_loses_nothing)|].
  apply (proj1 (proj2 esc_loses_nothing) "R&B" "R&B"). reflexivity.
Defined.

(* ------------------------------------------------------------------ *)
(** ** Listings and the audit log *)
(* ------------------------------------------------------------------ *)

Lemma insert_by_code_sorted (rt : Platform) (p : Plot.t) (l : list Plot.t) :
  collation_total rt ->
  Sorted (code_ordered rt) l -> Sorted (code_ordered rt) (insert_by_code rt p l).
Proof.
  intros Htot. induction l as [|q l IH]; intros Hs; cbn [insert_by_code].
  - repeat constructor.
  - destruct (code_leb rt (Plot.plot_code p) (Plot.plot_code q)) eqn:E.
    + constructor; [exact Hs | constructor; exact E].
    + apply Sorted_inv in Hs. destruct Hs as [Hs Hhd]. constructor; [now apply IH|].
      assert (code_ordered rt q p) as Hqp.
      { unfold code_ordered. destruct (Htot (Plot.plot_code p) (Plot.plot_code q)); congruence. }
      destruct l as [|r l]; cbn [insert_by_code]; [now constructor|].
      destruct (code_leb rt (Plot.plot_code p) (Plot.plot_code r)); constructor; auto.
      now inversion Hhd.
Qed.

Lemma order_by_plot_code_sorted (rt : Platform) (l : list Plot.t) :
  collation_total rt -> Sorted (code_ordered rt) (order_by_plot_code rt l).
Proof.
  intros Htot. unfold order_by_plot_code. induction l as [|p l IH]; cbn [fold_right].
  - constructor.
  - now apply insert_by_code_sorted.
Qed.

Lemma firstn_sorted {A : Type} (R : A -> A -> Prop) (n : nat) (l : list A) :
  Sorted R l -> Sorted R (firstn n l).
Proof.
  revert l. induction n as [|n IH]; intros [|x l] Hs; cbn [firstn]; try constructor.
  - apply IH. now apply Sorted_inv in Hs.
  - apply Sorted_inv in Hs. destruct Hs as [_ Hhd].
    destruct n; cbn [firstn]; [constructor|]. destruct l; [constructor|].
    constructor. now inversion Hhd.
Qed.

Lemma get_cemetery_plots_reads (rt : Platform) (env : Env) (id : Z) (req : Request)
  (w : World) :
  let w' := fst (get_cemetery_plots rt env id req w) in
  plots w' = plots w /\ deceased_records w' = deceased_records w
  /\ audit_logs w' = audit_logs w /\ outbox w' = outbox w
  /\ cemeteries w' = cemeteries w
  /\ queries w' = (queries w ++ [Q_list_plots])%list.
Proof. unfold_server. exec; repeat split. Qed.


(** X14.  What a listing shows.  A listing changes no table.  When it is
    answered 200, each of its rows is a stored plot of the cemetery
    asked for, not soft-deleted unless the flag is set; there are no
    more rows than the limit; they come in the order of the collation,
    if that compares any two codes; and no selected plot is left out
    when the selection is not larger than the limit. *)
Theorem listing_is_sound (rt : Platform) (env : Env) (id : Z) (req : Request) (w : World) :
  let after := server_app rt env (GET_cemetery_plots id) req w in
  (plots (fst after) = plots w /\ deceased_records (fst after) = deceased_records w
   /\ audit_logs (fst after) = audit_logs w /\ outbox (fst after) = outbox w)
  /\ (code (snd after) = 200 ->
      exists rows,
        payload (snd after) = PlotsBody rows
        /\ (forall p, In p rows ->
              In p (plots w) /\ Plot.cemetery_id p = id
              /\ (includeDeleted rt req = false -> Plot.deleted_at p = None))
        /\ Z.of_nat (length rows) <= PLOTS_PER_CEMETERY_LIMIT env
        /\ (collation_total rt -> Sorted (code_ordered rt) rows)
        /\ (Z.of_nat (length (listed id (includeDeleted rt req) (plots w)))
            <= PLOTS_PER_CEMETERY_LIMIT env ->
            forall p, In p (listed id (includeDeleted rt req) (plots w)) -> In p rows)).
Proof.
  cbn zeta. unfold server_app. cbn [middleware handler chain].
  destruct (authRequired rt req) as [resp|req'] eqn:Ha.
  - destruct (authRequired_inl _ _ _ Ha) as [Hc _]. cbn [fst snd].
    split; [repeat split|]. rewrite Hc. discriminate.
  - destruct (authRequired_inr _ _ _ Ha) as [u ->].
    change (includeDeleted rt req) with (includeDeleted rt (set_user u req)).
    set (r := set_user u req).
    destruct (get_cemetery_plots_reads rt env id r w) as (H1 & H2 & H3 & H4 & _).
    split; [repeat split; assumption|]. intros Hok.
    destruct (get_cemetery_plots_rows rt env id r w Hok) as [Hlim ->].
    fold (listed id (includeDeleted rt r) (plots w)).
    eexists. split; [reflexivity|]. split; [|split; [|split]].
    + intros p Hp. apply In_firstn, In_order_by_plot_code in Hp.
      unfold listed in Hp. apply filter_In in Hp. destruct Hp as [Hin Hp].
      apply andb_prop in Hp. destruct Hp as [Hc Hd]. apply Z.eqb_eq in Hc.
      repeat split; auto. intros Hf. rewrite Hf in Hd. cbn [orb] in Hd.
      destruct (Plot.deleted_at p); [discriminate | reflexivity].
    + rewrite length_firstn. lia.
    + intros Htot. apply firstn_sorted. now apply order_by_plot_code_sorted.
    + intros Hfit p Hp. rewrite firstn_all2 by (rewrite length_order; lia).
      now apply In_order_by_plot_code.
Qed.

Lemma listing_is_sound_witness :
  let after := server_app Demo.platform (Demo.env 500) (GET_cemetery_plots 1)
                 (Demo.listing None) Demo.crowded_world in
  exists rows,
    payload (snd after) = PlotsBody rows
    /\ (forall p, In p rows -> Plot.cemetery_id p = 1 /\ Plot.deleted_at p = None)
    /\ Sorted (code_ordered Demo.platform) rows.
Proof.
  intros after.
  destruct (listing_is_sound Demo.platform (Demo.env 500) 1 (Demo.listing None)
              Demo.crowded_world) as [_ Hok].
  destruct (Hok eq_refl) as (rows & Hrows & Hsound & _ & Hsorted & _).
  exists rows. split; [exact Hrows|]. split.
  - intros p Hp. destruct (Hsound p Hp) as (_ & Hc & Hd). split; [exact Hc | now apply Hd].
  - apply Hsorted. intros a b. unfold Demo.platform. cbn [code_leb].
    unfold String.leb. rewrite (String.compare_antisym b a).
    destruct (String.compare a b); cbn; auto.
Defined.





Lemma str_or_null_not_empty (o : option string) : not_empty (str_or_null o).
Proof.
  unfold not_empty, str_or_null. destruct o as [s|]; [|discriminate].
  destruct (String.eqb_spec s ""); congruence.
Qed.

Lemma audit_ip_not_empty (req : Request) : not_empty (audit_ip req).
Proof.
  unfold audit_ip. cbv zeta.
  destruct (String.eqb_spec (trim (hd "" (split "," (opt_or (x_forwarded_for req) "")))) "")
    as [E|E]; [apply str_or_null_not_empty|].
  unfold not_empty. congruence.
Qed.

(** X16.  Who is in the audit log.  A request appends an audit entry only
    on a mutating route and for a verified user with full permission;
    the entry carries that user's name and role, the first address of
    [x-forwarded-for] or else the remote address, and the entity type
    of the route; name, role and address are never the empty string. *)
Theorem audit_entries_name_the_user (rt : Platform) (env : Env) (route : Route)
  (req : Request) (w : World) :
  let w' := fst (server_app rt env route req w) in
  audit_logs w' = audit_logs w
  \/ exists u entry,
       guards rt req = inr (set_user u req)
       /\ permission u = "full"
       /\ mutating route = true
       /\ audit_logs w' = (audit_logs w ++ [entry])%list
       /\ Some (AuditLog.action entry) = action_of route
       /\ AuditLog.entity_type entry = entity_type_of route
       /\ AuditLog.actor_username entry = str_or_null (Some (username u))
       /\ AuditLog.actor_role entry = str_or_null (Some (role u))
       /\ AuditLog.ip_address entry = audit_ip req
       /\ not_empty (AuditLog.actor_username entry)
       /\ not_empty (AuditLog.actor_role entry)
       /\ not_empty (AuditLog.ip_address entry).
Proof.
  cbn zeta. unfold server_app. destruct (mutating route) eqn:Hm.
  - assert (middleware rt route = [authRequired rt; requireFullControl]) as ->
      by (destruct route; [discriminate Hm | reflexivity ..]).
    rewrite chain_guards. destruct (guards rt req) as [resp|req'] eqn:Hg; [now left|].
    destruct (guards_inr _ _ _ Hg) as (u & -> & Hp).
    destruct (handler_audit_step rt env route (set_user u req) w)
      as [E | (entry & E & Ha & Ht & Hu & Hr & Hi)]; [now left|].
    right. exists u, entry. cbn [user_field user set_user option_map] in Hu, Hr.
    change (audit_ip (set_user u req)) with (audit_ip req) in Hi.
    repeat split; auto.
    + rewrite Hu. apply str_or_null_not_empty.
    + rewrite Hr. apply str_or_null_not_empty.
    + rewrite Hi. apply audit_ip_not_empty.
  - left. destruct route; try discriminate Hm. cbn [middleware handler chain].
    destruct (authRequired rt req) as [resp|req']; [reflexivity|].
    now destruct (get_cemetery_plots_reads rt env id req' w) as (_ & _ & H & _).
Qed.

(* ------------------------------------------------------------------ *)
(** ** Recipients and login *)
(* ------------------------------------------------------------------ *)

Lemma contains_trimStart (c : ascii) (s : string) :
  contains c s = false -> contains c (trimStart s) = false.
Proof.
  induction s as [|d r IH]; [reflexivity|]. cbn [trimStart]. intros H.
  destruct (is_space d); [|exact H].
  cbn [contains] in H. apply orb_false_elim in H. now apply IH.
Qed.

Lemma contains_trimEnd (c : ascii) (s : string) :
  contains c s = false -> contains c (trimEnd s) = false.
Proof.
  induction s as [|d r IH]; [reflexivity|]. cbn [trimEnd contains]. intros H.
  apply orb_false_elim in H. destruct H as [Hd Hr].
  destruct (is_space d && (trimEnd r =? "")%string); [reflexivity|].
  cbn [contains]. now rewrite Hd, IH.
Qed.

Lemma split_pieces_free (sep : ascii) (s piece : string) :
  In piece (split sep s) -> contains sep piece = false.
Proof.
  revert piece. induction s as [|c r IH]; intros piece.
  - cbn. intros [<- | []]. reflexivity.
  - cbn [split]. destruct (c =? sep)%char eqn:E.
    + intros [<- | H]; [reflexivity | now apply IH].
    + destruct (split sep r) as [|p ps].
      * intros [<- | []]. cbn [contains]. now rewrite E.
      * intros [<- | H].
        -- cbn [contains]. rewrite E. apply IH. now left.
        -- apply IH. now right.
Qed.

Lemma trimEnd_idem (s : string) : trimEnd (trimEnd s) = trimEnd s.
Proof.
  induction s as [|c r IH]; [reflexivity|]. cbn [trimEnd].
  destruct (is_space c && (trimEnd r =? "")%string) eqn:E; [reflexivity|].
  cbn [trimEnd]. rewrite IH, E. reflexivity.
Qed.

Lemma trimStart_head (s : string) :
  trimStart s = "" \/ exists c r, trimStart s = String c r /\ is_space c = false.
Proof.
  induction s as [|c r IH]; [now left|]. cbn [trimStart].
  destruct (is_space c) eqn:E; [exact IH|]. right. now exists c, r.
Qed.

Lemma trim_idem (s : string) : trim (trim s) = trim s.
Proof.
  unfold trim. destruct (trimStart_head s) as [-> | (c & r & -> & Hc)]; [reflexivity|].
  cbn [trimEnd]. rewrite Hc. cbn [andb trimStart]. rewrite Hc.
  change (trimEnd (String c (trimEnd r)) = String c (trimEnd r)).
  cbn [trimEnd]. rewrite Hc. cbn [andb]. now rewrite trimEnd_idem.
Qed.

Lemma trim_blank (s : string) : all_chars is_space s = true -> trim s = "".
Proof.
  unfold trim. induction s as [|c r IH]; [reflexivity|]. cbn [all_chars trimStart].
  intros H. apply andb_prop in H. destruct H as [-> Hr]. now apply IH.
Qed.

Lemma split_blank (s : string) :
  all_chars (fun c => is_space c || (c =? ",")%char) s = true ->
  Forall (fun piece => all_chars is_space piece = true) (split "," s).
Proof.
  induction s as [|c r IH]; intros H.
  - repeat constructor.
  - cbn [all_chars] in H. apply andb_prop in H. destruct H as [Hc Hr].
    specialize (IH Hr). cbn [split].
    destruct (c =? ",")%char eqn:E.
    + constructor; [reflexivity | exact IH].
    + rewrite orb_false_r in Hc.
      destruct (split "," r) as [|p ps].
      * repeat constructor. cbn [all_chars]. now rewrite Hc.
      * inversion IH as [|? ? Hp Hps]; subst. constructor; [|exact Hps].
        cbn [all_chars]. now rewrite Hc, Hp.
Qed.

Lemma notify_to_blank (raw : option string) : blank_list raw = true -> notify_to raw = [].
Proof.
  unfold blank_list, notify_to. intros H. apply split_blank in H.
  induction H as [|p ps Hp _ IH]; [reflexivity|].
  cbn [map filter]. rewrite (trim_blank p Hp). exact IH.
Qed.

(** X17.  The recipients of mail.  Each recipient read from [NOTIFY_TO] is
    a trimmed piece of the variable between two commas: it is not
    empty, it has no comma, and no white space at either end. *)
Theorem recipients_are_trimmed (raw : option string) (s : string) :
  In s (notify_to raw) ->
  s <> "" /\ trim s = s /\ contains "," s = false
  /\ exists piece, In piece (split "," (opt_or raw "")) /\ s = trim piece.
Proof.
  unfold notify_to. intros H. apply filter_In in H. destruct H as [Hin Hne].
  apply in_map_iff in Hin. destruct Hin as (piece & <- & Hpiece).
  split; [|split; [|split]].
  - apply negb_true_iff, String.eqb_neq in Hne. exact Hne.
  - apply trim_idem.
  - unfold trim. apply contains_trimEnd, contains_trimStart.
    exact (split_pieces_free _ _ _ Hpiece).
  - now exists piece.
Qed.

Lemma recipients_are_trimmed_witness :
  notify_to (Some " office@example.com, ,ward@example.com ,")
  = ["office@example.com"; "ward@example.com"]
  /\ trim "ward@example.com" = "ward@example.com".
Proof.
  split; [reflexivity|].
  apply (recipients_are_trimmed (Some " office@example.com, ,ward@example.com ,")
           "ward@example.com").
  vm_compute. right. left. reflexivity.
Defined.

(** X18.  No recipients, no mail.  When [NOTIFY_TO] is unset or has
    nothing but white space and commas, mail is disabled whatever the
    SMTP settings are, and no request sends mail. *)
Theorem blank_recipient_list_disables_mail (rt : Platform) (env : Env) (raw : option string)
  (route : Route) (req : Request) (w : World) :
  blank_list raw = true ->
  emailEnabled (set_notify_to raw env) = false
  /\ outbox (fst (server_app rt (set_notify_to raw env) route req w)) = outbox w.
Proof.
  intros H.
  assert (emailEnabled (set_notify_to raw env) = false) as Hoff.
  { unfold emailEnabled, set_notify_to. cbn [NOTIFY_TO]. rewrite (notify_to_blank raw H).
    cbn [length Nat.eqb negb]. now rewrite andb_false_r. }
  split; [exact Hoff|].
  assert (mail_step (set_notify_to raw env) route w
            (server_app rt (set_notify_to raw env) route req w)) as Hstep.
  { unfold server_app. apply (chain_prop (mail_step (set_notify_to raw env) route w)).
    - intros resp. now left.
    - intros req'. apply handler_mail_step. }
  destruct Hstep as [E | (m & _ & _ & _ & Hon & _)]; [exact E|]. congruence.
Qed.

Lemma blank_recipient_list_disables_mail_witness :
  outbox (fst (server_app Demo.platform (set_notify_to (Some " , ,") (Demo.env_mail 100))
                 POST_plots (Demo.request Demo.plot_A01) Demo.empty_world)) = []
  /\ length (outbox (fst (server_app Demo.platform
                            (set_notify_to (Some "office@example.com") (Demo.env_mail 100))
                            POST_plots (Demo.request Demo.plot_A01) Demo.empty_world))) = 1%nat.
Proof.
  split; [|vm_compute; reflexivity].
  apply (blank_recipient_list_disables_mail Demo.platform (Demo.env_mail 100) (Some " , ,")
           POST_plots (Demo.request Demo.plot_A01) Demo.empty_world).
  reflexivity.
Defined.

Lemma find_users (cr : Crypto) (name : string) (a : Account) :
  find (fun a => (username (account a) =? name)%string) (users cr) = Some a ->
  In a (users cr) /\ username (account a) = name.
Proof.
  intros H. apply find_some in H. destruct H as [Hin Hn].
  apply String.eqb_eq in Hn. now split.
Qed.

Lemma users_permission (cr : Crypto) (a : Account) :
  In a (users cr) ->
  role (account a) = username (account a)
  /\ (permission (account a) = "full"
      /\ (username (account a) = "manager" \/ username (account a) = "administrator")
      \/ permission (account a) = "read" /\ username (account a) = "supervisor").
Proof.
  intros [<- | [<- | [<- | []]]]; cbn; split; auto.
Qed.

Lemma account_eta (u : User) : mkUser (username u) (role u) (permission u) = u.
Proof. now destruct u. Qed.



Lemma login_ok_account (rt : Platform) (cr : Crypto) (now : Z) (b : JsVal)
  (token : string) (u : User) :
  login rt cr now b = Ok (mkLogin 200 (LoginOk token u)) ->
  exists a, In a (users cr) /\ u = account a /\ token = jwt_sign cr now u
            /\ username u = login_name rt b.
Proof.
  unfold login. cbv zeta.
  destruct (find _ (users cr)) as [a|] eqn:Hfind; [|discriminate].
  destruct (find_users cr _ a Hfind) as [Hin Hname].
  destruct (bcrypt_compare cr _ (passwordHash a)) as [[|]|e]; try discriminate.
  unfold signToken. rewrite account_eta. intros H. inversion H; subst.
  exists a. auto.
Qed.

(** X20.  What a login allows.  When the token of a successful login
    verifies to its payload, a request that carries it on a mutating
    route is answered 403 and changes nothing if the login was that of
    the supervisor, and reaches the handler as that user if it was that
    of the manager or the administrator; the role in the token is the
    name of the account. *)
Theorem login_decides_write_access (rt : Platform) (cr : Crypto) (now : Z) (b : JsVal)
  (token scheme : string) (u : User) (env : Env) (route : Route) (req : Request) (w : World) :
  login rt cr now b = Ok (mkLogin 200 (LoginOk token u)) ->
  jwt_verify rt token = Some u ->
  with_header scheme token req -> token <> "" ->
  mutating route = true ->
  role u = username u
  /\ (username u = "supervisor"
      /\ server_app rt env route req w = (w, read_only_role)
      \/ (username u = "manager" \/ username u = "administrator")
         /\ server_app rt env route req w = handler rt env route (set_user u req) w).
Proof.
  intros Hlogin Hv Hh Hne Hm.
  destruct (login_ok_account _ _ _ _ _ _ Hlogin) as (a & Hin & -> & _ & _).
  destruct (users_permission cr a Hin) as [Hrole Hperm]. split; [exact Hrole|].
  assert (authRequired rt req = inr (set_user (account a) req)) as Ha.
  { rewrite (authRequired_header rt req scheme token Hh), Hv.
    apply String.eqb_neq in Hne. now rewrite Hne. }
  unfold server_app.
  destruct Hperm as [[Hp Hn] | [Hp Hn]]; [right | left]; (split; [exact Hn|]);
    destruct route; try discriminate Hm; cbn [middleware chain]; rewrite Ha;
    unfold requireFullControl, user_field; cbn [user set_user option_map];
    rewrite Hp; reflexivity.
Qed.

Lemma login_decides_write_access_witness :
  let req := mkRequest (Some "Bearer supervisor-token") None None None JUndefined None in
  server_app Demo.platform (Demo.env 500) (DELETE_plot 2) req Demo.full_world
  = (Demo.full_world, read_only_role).
Proof.
  intros req.
  destruct (login_decides_write_access Demo.platform demo_crypto 100
              (credentials "Supervisor" "Supervisor@123") "supervisor-token" "Bearer"
              Demo.supervisor (Demo.env 500) (DELETE_plot 2) req Demo.full_world)
    as [_ [[_ H] | [[H | H] _]]].
  - reflexivity.
  - reflexivity.
  - repeat split.
  - discriminate.
  - reflexivity.
  - exact H.
  - discriminate H.
  - discriminate H.
Defined.

(* ------------------------------------------------------------------ *)
(** ** Answers *)
(* ------------------------------------------------------------------ *)

Lemma update_where_none {A : Type} (key : A -> Z) (id : Z) (set : A -> A) (rows : list A) :
  (forall r, key (set r) = key r) ->
  filter (fun r => key r =? id) (update_where key id set rows) = [] ->
  update_where key id set rows = rows.
Proof.
  intros Hset. unfold update_where. induction rows as [|r rows IH]; [reflexivity|].
  cbn [map filter]. destruct (key r =? id) eqn:E.
  - rewrite Hset, E. discriminate.
  - rewrite E. intros H. now rewrite IH.
Qed.

Lemma deceased_set_id (fs : list string) (vs : list JsVal) (r : Deceased.t) :
  Deceased.id (deceased_set fs vs r) = Deceased.id r.
Proof. reflexivity. Qed.

Lemma handler_answer (rt : Platform) (env : Env) (route : Route) (req : Request) (w : World) :
  answer_shape route (snd (handler rt env route req w))
  /\ (client_error (snd (handler rt env route req w)) = true ->
      untouched w (fst (handler rt env route req w))).
Proof.
  destruct route; cbn [handler];
    (unfold answer_shape, untouched, client_error; unfold_server; exec;
     (split;
      [ first [ left; split; [reflexivity | exact I]
              | right; split;
                [ cbn [In refusals]; auto 8
                | eexists; split; [reflexivity|];
                  cbn [hides_the_error code]; intros Hh Hc;
                  first [reflexivity | discriminate Hh | discriminate Hc] ] ]
      | cbn; intros Hc; first [discriminate Hc | idtac] ])).
  all: repeat split.
  all: match goal with
       | H : filter _ (update_where _ _ _ _) = [] |- _ =>
           apply update_where_none in H; [exact H | apply deceased_set_id]
       end.
Qed.

(* ------------------------------------------------------------------ *)
(** ** Refusals *)
(* ------------------------------------------------------------------ *)

Lemma untouched_refl (w : World) : untouched w w.
Proof. repeat split. Qed.

Lemma guards_refusal (rt : Platform) (req : Request) (resp : Response) :
  guards rt req = inl resp ->
  resp = missing_token \/ resp = invalid_token \/ resp = read_only_role.
Proof.
  unfold guards, authRequired, requireFullControl, user_field.
  repeat match goal with
         | |- context [match ?x with _ => _ end] => innermost x; destruct x
         end; intros H; inversion H; auto.
Qed.

(** X21.  A refusal changes nothing.  On every route an answer with a 4xx
    status leaves the plots, the deceased records, the cemeteries, the
    audit log, the outbox, the console and both id sequences as they
    were. *)
Theorem client_errors_change_nothing (rt : Platform) (env : Env) (route : Route)
  (req : Request) (w : World) :
  client_error (snd (server_app rt env route req w)) = true ->
  untouched w (fst (server_app rt env route req w)).
Proof.
  unfold server_app.
  apply (chain_prop (fun r => client_error (snd r) = true -> untouched w (fst r))).
  - intros resp _. apply untouched_refl.
  - intros req'. apply handler_answer.
Qed.

Lemma client_errors_change_nothing_witness :
  let after := server_app Demo.platform (Demo.env 400) POST_plots
                 (Demo.request (Demo.new_plot "A-12")) Demo.crowded_world in
  code (snd after) = 400 /\ plots (fst after) = plots Demo.crowded_world.
Proof.
  intros after. split; [vm_compute; reflexivity|].
  apply (client_errors_change_nothing Demo.platform (Demo.env 400) POST_plots
           (Demo.request (Demo.new_plot "A-12")) Demo.crowded_world).
  vm_compute. reflexivity.
Defined.

(** X22.  The answers of each route.  A route answers with its own success
    status and body (201 with the created row for the two creations,
    200 with the rows, the updated row or [ok] for the others), or with
    an error body and a status of its list: 404 never comes from a
    creation or a listing, 400 never from an update or a delete, 403
    never from a listing.  The plot update answers every 500 with
    [Failed to update plot], whatever was thrown. *)
Theorem answers_of_each_route (rt : Platform) (env : Env) (route : Route)
  (req : Request) (w : World) :
  answer_shape route (snd (server_app rt env route req w)).
Proof.
  unfold server_app. destruct (mutating route) eqn:Hm.
  - assert (middleware rt route = [authRequired rt; requireFullControl]) as ->
      by (destruct route; [discriminate Hm | reflexivity ..]).
    rewrite chain_guards. destruct (guards rt req) as [resp|req'] eqn:Hg;
      [|apply handler_answer].
    right. destruct (guards_refusal _ _ _ Hg) as [-> | [-> | ->]];
      (split; [destruct route; [discriminate Hm | cbn; auto 8 ..]
              | eexists; split; [reflexivity | intros _ Hc; cbn in Hc; discriminate Hc]]).
  - destruct route; try discriminate Hm. cbn [middleware chain].
    destruct (authRequired rt req) as [resp|req'] eqn:Ha;
      [|apply (handler_answer rt env (GET_cemetery_plots id))].
    destruct (authRequired_inl _ _ _ Ha) as [Hc [e He]]. right. cbn [snd].
    split; [rewrite Hc; now left|]. exists e. split; [exact He | discriminate].
Qed.




